(** * ComfyUI-ChomfyNodes: prompt-line nodes, embedded and verified

    A shallow embedding of the four nodes of the repository

      - [nodes/prompt_line_loader.py]       (module [PromptLineLoader])
      - [nodes/auto_prompt_line.py]         (module [AutoPromptLineLoader])
      - [nodes/simple_number_counter.py]    (module [SimpleNumberCounter])
      - [nodes/wildcard_prompt_assembler.py] (module [WildcardPromptAssembler])

    Python integers are [Z]; Python [str] values are [string]s whose
    characters are read as code points below 256; a Python dict with
    string keys is a [gmap string _]; the [self._state] dict of a node,
    whose key set never changes, is a record.  Exceptions are values of
    [PyError]; a method that mutates [self] and may raise is a function
    [S -> S * result A]: the state that comes back is the one the
    instance is left in, also when the call raised.

    The file system, [python-docx], [csv.reader], [glob] and the seed the
    operating system gives an unseeded [random.Random] are the [World] a
    call runs in; [random.Random] itself is the class [PyRandom].

    The model comes first, one module per node; then the notions the
    statements use and a sample world; then the theorems: the wrap-around
    index and the sequencer, the composer's cache and records, its reset,
    seeding and sequential selection, and binary64 addition for the
    counter; after them the facts on whole runs: the sequencer's bounds,
    errors and order of emission, the single-shot loader against the
    sequencer, the counter up to, at and around its cap, and the
    composer's cache, cursors, parsing, texts and prompt; and last the
    wrap-around index in both line nodes, the composer's source indices
    against the items of a file, and the generator of a composer call. *)

From Stdlib Require Import ZArith String Ascii List Bool Lia SpecFloat.
From stdpp Require Import base gmap strings list.
Import ListNotations.

Local Open Scope string_scope.
Local Open Scope Z_scope.

(** ** Exceptions and the state-and-exception monad *)

Inductive PyError :=
| ValueError (msg : string)
| FileNotFoundError (msg : string)
| NotADirectoryError (msg : string)
| ImportError (msg : string)
| TypeError (msg : string)
| AttributeError (msg : string)
| IndexError (msg : string).

Inductive result (A : Type) :=
| Ok (a : A)
| Err (e : PyError).
Arguments Ok {A} a.
Arguments Err {A} e.

Definition M (S A : Type) : Type := S -> S * result A.

Definition ret {S A} (a : A) : M S A := fun s => (s, Ok a).
Definition raise {S A} (e : PyError) : M S A := fun s => (s, Err e).
Definition bind {S A B} (m : M S A) (k : A -> M S B) : M S B :=
  fun s => match m s with
           | (s', Ok a) => k a s'
           | (s', Err e) => (s', Err e)
           end.
Definition get {S} : M S S := fun s => (s, Ok s).
Definition put {S} (s : S) : M S unit := fun _ => (s, Ok tt).
Definition modify {S} (f : S -> S) : M S unit := fun s => (f s, Ok tt).
Definition lift {S A} (r : result A) : M S A := fun s => (s, r).

Declare Scope py_scope.
Delimit Scope py_scope with py.
Notation "'do' x <- m ; k" := (bind m (fun x => k))
  (at level 10, x name, m at level 100, k at level 200) : py_scope.
Notation "'run' m ; k" := (bind m (fun _ => k))
  (at level 10, m at level 100, k at level 200) : py_scope.

(** The same for code that raises but touches no state. *)
Definition rbind {A B} (r : result A) (k : A -> result B) : result B :=
  match r with
  | Ok a => k a
  | Err e => Err e
  end.

(** ** Python values and built-ins used by the nodes *)

(** A value that is either a [str] or [None]: the cells handed out by
    [csv.DictReader] are [None] where a row is shorter than the header. *)
Inductive pyval :=
| PyNone
| PyStr (s : string).

(** Truth value of a [str]: the empty string is false. *)
Definition str_truthy (s : string) : bool :=
  match s with
  | EmptyString => false
  | String _ _ => true
  end.

Definition pyval_truthy (v : pyval) : bool :=
  match v with
  | PyNone => false
  | PyStr s => str_truthy s
  end.

(** [str.isspace] on one character, for code points below 256. *)
Definition is_space (c : ascii) : bool :=
  let n := N_of_ascii c in
  (((9 <=? n) && (n <=? 13)) || ((28 <=? n) && (n <=? 32))
   || (n =? 133) || (n =? 160))%N.

Fixpoint lstrip (s : string) : string :=
  match s with
  | EmptyString => EmptyString
  | String c s' => if is_space c then lstrip s' else s
  end.

Fixpoint rstrip (s : string) : string :=
  match s with
  | EmptyString => EmptyString
  | String c s' =>
      match rstrip s' with
      | EmptyString => if is_space c then EmptyString else String c EmptyString
      | r => String c r
      end
  end.

(** [s.strip()] *)
Definition strip (s : string) : string := rstrip (lstrip s).

Definition newline : ascii := ascii_of_N 10.
Definition carriage_return : ascii := ascii_of_N 13.

(** [s.rstrip("\n")] *)
Fixpoint rstrip_newline (s : string) : string :=
  match s with
  | EmptyString => EmptyString
  | String c s' =>
      match rstrip_newline s' with
      | EmptyString =>
          if Ascii.eqb c newline then EmptyString else String c EmptyString
      | r => String c r
      end
  end.

(** [v.strip()] on a value that may be [None]. *)
Definition pyval_strip (v : pyval) : result pyval :=
  match v with
  | PyStr s => Ok (PyStr (strip s))
  | PyNone => Err (AttributeError "'NoneType' object has no attribute 'strip'")
  end.

(** Line boundaries of [str.splitlines], for code points below 256. *)
Definition is_linebreak (c : ascii) : bool :=
  let n := N_of_ascii c in
  (((10 <=? n) && (n <=? 13)) || ((28 <=? n) && (n <=? 30)) || (n =? 133))%N.

Definition snoc (s : string) (c : ascii) : string :=
  String.append s (String c EmptyString).

(** [s.splitlines()]: [cur] is the line being collected. *)
Fixpoint splitlines_from (cur s : string) : list string :=
  match s with
  | EmptyString => if str_truthy cur then [cur] else []
  | String c s' =>
      if Ascii.eqb c carriage_return then
        match s' with
        | String c' s'' =>
            if Ascii.eqb c' newline then cur :: splitlines_from EmptyString s''
            else cur :: splitlines_from EmptyString s'
        | EmptyString => cur :: splitlines_from EmptyString s'
        end
      else if is_linebreak c then cur :: splitlines_from EmptyString s'
      else splitlines_from (snoc cur c) s'
  end.

Definition splitlines (s : string) : list string := splitlines_from EmptyString s.

(** Iterating a text file: lines end at ["\n"] and keep it. *)
Fixpoint file_lines_from (cur s : string) : list string :=
  match s with
  | EmptyString => if str_truthy cur then [cur] else []
  | String c s' =>
      if Ascii.eqb c newline then snoc cur c :: file_lines_from EmptyString s'
      else file_lines_from (snoc cur c) s'
  end.

Definition file_lines (s : string) : list string := file_lines_from EmptyString s.

(** [sep.join(parts)] *)
Fixpoint join (sep : string) (parts : list string) : string :=
  match parts with
  | [] => EmptyString
  | [p] => p
  | p :: rest => String.append p (String.append sep (join sep rest))
  end.

(** [l[i]] with Python's negative indices. *)
Definition getitem {A} (l : list A) (i : Z) : result A :=
  let n := Z.of_nat (length l) in
  let j := if i <? 0 then i + n else i in
  if (0 <=? j) && (j <? n) then
    match l !! Z.to_nat j with
    | Some x => Ok x
    | None => Err (IndexError "list index out of range")
    end
  else Err (IndexError "list index out of range").

(** [l[:n]] *)
Definition slice_to {A} (l : list A) (n : Z) : list A :=
  if n <? 0 then take (Z.to_nat (Z.of_nat (length l) + n)) l
  else take (Z.to_nat n) l.

(** [enumerate(l, start=1)] *)
Fixpoint enumerate_from {A} (k : Z) (l : list A) : list (Z * A) :=
  match l with
  | [] => []
  | x :: l' => (k, x) :: enumerate_from (k + 1) l'
  end.

Definition lower_char (c : ascii) : ascii :=
  let n := N_of_ascii c in
  if ((65 <=? n) && (n <=? 90))%N then ascii_of_N (n + 32) else c.

(** [s.lower()], for the ASCII letters *)
Fixpoint lower (s : string) : string :=
  match s with
  | EmptyString => EmptyString
  | String c s' => String (lower_char c) (lower s')
  end.

(** [os.path.splitext(p)[1]] on a POSIX path: the extension starts at the
    last dot of the last component, unless that component has only dots
    before it. *)
Fixpoint last_component (cur p : string) : string :=
  match p with
  | EmptyString => cur
  | String c p' =>
      if Ascii.eqb c "/"%char then last_component EmptyString p'
      else last_component (snoc cur c) p'
  end.

(** [ext_from seen_name cur s]: [seen_name] tells whether a character other
    than a dot came before; [cur] is the candidate extension. *)
Fixpoint ext_from (seen_name : bool) (cur s : string) : string :=
  match s with
  | EmptyString => cur
  | String c s' =>
      if Ascii.eqb c "."%char then
        if seen_name then ext_from true (String c EmptyString) s'
        else ext_from false EmptyString s'
      else
        ext_from true (if str_truthy cur then snoc cur c else cur) s'
  end.

Definition splitext_ext (p : string) : string :=
  ext_from false EmptyString (last_component EmptyString p).

(** ** The file system

    A file is seen through the three readers the nodes use: its decoded
    text (what [f.read()] returns, newlines translated), the rows
    [csv.reader] yields for it, and the paragraph texts [python-docx]
    finds in it.  The extension of the path decides which view a node
    looks at. *)
Record FileData := {
  fd_mtime : Z;
  fd_text : string;
  fd_csv : list (list string);
  fd_docx : list string
}.

Record World := {
  w_files : gmap string FileData;
  w_isdir : string -> bool;
  w_glob : string -> list string;
  w_expanduser : string -> string;
  w_docx_installed : bool;
  w_entropy : Z
}.

Definition isfile (w : World) (path : string) : bool :=
  match w_files w !! path with
  | Some _ => true
  | None => false
  end.

Definition open_file (w : World) (path : string) : result FileData :=
  match w_files w !! path with
  | Some fd => Ok fd
  | None => Err (FileNotFoundError "No such file or directory")
  end.

(** *** [csv.DictReader]

    The first row is the header; empty rows are skipped; a row is the
    dict [zip(fieldnames, row)], then every field beyond the row's length
    is set to [None]. *)
Definition dict_fieldnames (rows : list (list string)) : option (list string) :=
  match rows with
  | [] => None
  | h :: _ => Some h
  end.

Definition dict_rows (rows : list (list string)) : list (list string) :=
  match rows with
  | [] => []
  | _ :: body => List.filter (fun r => match r with [] => false | _ => true end) body
  end.

Definition str_in (x : string) (l : list string) : bool :=
  existsb (String.eqb x) l.

(** Last value bound to [key] by [zip(fields, row)]. *)
Fixpoint zip_lookup (key : string) (fields row : list string) : option string :=
  match fields, row with
  | f :: fields', c :: row' =>
      match zip_lookup key fields' row' with
      | Some v => Some v
      | None => if String.eqb f key then Some c else None
      end
  | _, _ => None
  end.

(** [row.get(column, default)] for a [DictReader] row; [None] is "absent". *)
Definition dict_row_get (fields row : list string) (column : string) : option pyval :=
  if str_in column (drop (length row) fields) then Some PyNone
  else match zip_lookup column fields row with
       | Some v => Some (PyStr v)
       | None => None
       end.

Definition getmtime (w : World) (path : string) : result Z :=
  rbind (open_file w path) (fun fd => Ok (fd_mtime fd)).

(** * The single-shot loader: [nodes/prompt_line_loader.py] *)
Module PromptLineLoader.

Definition _read_txt (w : World) (path : string) : result (list pyval) :=
  rbind (open_file w path) (fun fd => Ok (map PyStr (splitlines (fd_text fd)))).

Definition _read_md (w : World) (path : string) : result (list pyval) :=
  _read_txt w path.

(** With a column every row is a dict and the column must be one of its
    keys; the keys of a row are the header's fields. *)
Fixpoint _read_csv_dict (fields : list string) (column : string)
    (rows : list (list string)) : result (list pyval) :=
  match rows with
  | [] => Ok []
  | row :: rows' =>
      match dict_row_get fields row column with
      | None => Err (ValueError "Column not found in CSV.")
      | Some v => rbind (_read_csv_dict fields column rows') (fun l => Ok (v :: l))
      end
  end.

Definition _read_csv (w : World) (path column : string) : result (list pyval) :=
  rbind (open_file w path) (fun fd =>
    if str_truthy column then
      match dict_fieldnames (fd_csv fd) with
      | None => Ok []
      | Some fields => _read_csv_dict fields column (dict_rows (fd_csv fd))
      end
    else Ok (map (fun row => PyStr (join ", " row)) (fd_csv fd))).

Definition _read_docx (w : World) (path : string) : result (list pyval) :=
  if negb (w_docx_installed w) then
    Err (ImportError "python-docx is required for DOCX support.")
  else
    rbind (open_file w path) (fun fd =>
      Ok (map PyStr (List.filter (fun t => str_truthy (strip t)) (fd_docx fd)))).

(** The tuple [(prompt, line_index, total_lines)]. *)
Definition Output : Type := pyval * Z * Z.

Definition load_line (w : World) (file_path : string) (line_index : Z)
    (csv_column : string) (strip_whitespace : bool) : result Output :=
  if negb (str_truthy file_path) then Err (ValueError "file_path is empty.")
  else
    let path := w_expanduser w file_path in
    if negb (isfile w path) then Err (FileNotFoundError "File not found")
    else
      let ext := lower (splitext_ext path) in
      rbind (if String.eqb ext ".txt" || String.eqb ext ".log" then _read_txt w path
             else if String.eqb ext ".md" then _read_md w path
             else if String.eqb ext ".csv" then _read_csv w path csv_column
             else if String.eqb ext ".docx" then _read_docx w path
             else Err (ValueError "Unsupported file extension. Use txt, md, csv, or docx."))
        (fun lines =>
           let total_lines := Z.of_nat (length lines) in
           if total_lines =? 0 then
             Err (ValueError "The selected file contained zero lines.")
           else
             let index := ((line_index - 1) mod total_lines) + 1 in
             rbind (getitem lines (index - 1)) (fun text =>
             rbind (if strip_whitespace then pyval_strip text else Ok text)
               (fun text => Ok (text, index, total_lines)))).

End PromptLineLoader.

(** * The sequencer: [nodes/auto_prompt_line.py] *)
Module AutoPromptLineLoader.

(** The dict [self._state]. *)
Record State := {
  initialized : bool;
  file_path : string;
  file_mtime : option Z;
  csv_column : string;
  strip_whitespace : bool;
  start_value : Z;
  step : Z;
  max_steps : Z;
  auto_reset : bool;
  lines : list pyval;
  total_lines : Z;
  next_index : Z;
  emitted_steps : Z;
  last_prompt : pyval;
  last_line_index : Z;
  last_step_index : Z
}.

(** The state [__init__] builds. *)
Definition __init__ : State := {|
  initialized := false;
  file_path := "";
  file_mtime := None;
  csv_column := "";
  strip_whitespace := true;
  start_value := 1;
  step := 1;
  max_steps := -1;
  auto_reset := false;
  lines := [];
  total_lines := 0;
  next_index := 1;
  emitted_steps := 0;
  last_prompt := PyStr "";
  last_line_index := 0;
  last_step_index := 0
|}.

(** The inputs of one call of [next_prompt]. *)
Record Args := {
  a_file_path : string;
  a_start_value : Z;
  a_step : Z;
  a_max_steps : Z;
  a_auto_reset : bool;
  a_reset : bool;
  a_csv_column : string;
  a_strip_whitespace : bool
}.

(** The tuple [(prompt, line_index, step_index, total_lines, done)]. *)
Definition Output : Type := pyval * Z * Z * Z * bool.

Definition _normalize_index (index total : Z) : result Z :=
  if total =? 0 then Err (ValueError "No lines available from the loaded file.")
  else Ok (((index - 1) mod total) + 1).

Definition _read_txt (w : World) (path : string) : result (list pyval) :=
  rbind (open_file w path) (fun fd => Ok (map PyStr (splitlines (fd_text fd)))).

Definition _read_md (w : World) (path : string) : result (list pyval) :=
  _read_txt w path.

Definition _read_csv (w : World) (path column : string) : result (list pyval) :=
  rbind (open_file w path) (fun fd =>
    if str_truthy column then
      match dict_fieldnames (fd_csv fd) with
      | None => Err (TypeError "argument of type 'NoneType' is not iterable")
      | Some fields =>
          if negb (str_in column fields) then
            Err (ValueError "Column not found in CSV header")
          else
            Ok (map (fun row => default (PyStr "") (dict_row_get fields row column))
                    (dict_rows (fd_csv fd)))
      end
    else Ok (map (fun row => PyStr (join ", " row)) (fd_csv fd))).

Definition _read_docx (w : World) (path : string) : result (list pyval) :=
  if negb (w_docx_installed w) then
    Err (ImportError "python-docx is required for DOCX support.")
  else
    rbind (open_file w path) (fun fd =>
      Ok (map PyStr (List.filter str_truthy (fd_docx fd)))).

Definition _load_lines (w : World) (path csv_column : string) : result (list pyval) :=
  let ext := lower (splitext_ext path) in
  if String.eqb ext ".txt" || String.eqb ext ".log" then _read_txt w path
  else if String.eqb ext ".md" then _read_md w path
  else if String.eqb ext ".csv" then _read_csv w path csv_column
  else if String.eqb ext ".docx" then _read_docx w path
  else Err (ValueError "Unsupported file extension. Use txt, md, csv, or docx.").

Definition mtime_differs (stored : option Z) (current : Z) : bool :=
  match stored with
  | Some m => negb (m =? current)
  | None => true
  end.

Definition _should_reset (state : State) (path : string) (mtime : Z)
    (a : Args) : bool :=
  if a_reset a || negb (initialized state) then true
  else
    negb (String.eqb (file_path state) path)
    || mtime_differs (file_mtime state) mtime
    || negb (start_value state =? a_start_value a)
    || negb (step state =? a_step a)
    || negb (max_steps state =? a_max_steps a)
    || negb (Bool.eqb (auto_reset state) (a_auto_reset a))
    || negb (String.eqb (csv_column state) (a_csv_column a))
    || negb (Bool.eqb (strip_whitespace state) (a_strip_whitespace a)).

(** The state [_reset_state] installs: every key of the dict is overwritten. *)
Definition fresh_state (path : string) (mtime : Z) (a : Args)
    (loaded : list pyval) : State := {|
  initialized := true;
  file_path := path;
  file_mtime := Some mtime;
  csv_column := a_csv_column a;
  strip_whitespace := a_strip_whitespace a;
  start_value := a_start_value a;
  step := a_step a;
  max_steps := a_max_steps a;
  auto_reset := a_auto_reset a;
  lines := loaded;
  total_lines := Z.of_nat (length loaded);
  next_index := a_start_value a;
  emitted_steps := 0;
  last_prompt := PyStr "";
  last_line_index := 0;
  last_step_index := 0
|}.

Definition _reset_state (w : World) (path : string) (mtime : Z) (a : Args)
    : M State unit :=
  (do loaded <- lift (_load_lines w path (a_csv_column a));
   match loaded with
   | [] => raise (ValueError "The selected file contained zero usable lines.")
   | _ :: _ => put (fresh_state path mtime a loaded)
   end)%py.

(** The output held once [max_steps] is reached. *)
Definition held_output (state : State) : Output :=
  (last_prompt state, last_line_index state, last_step_index state,
   total_lines state, true).

(** The state after an emission of [prompt] at line [index]. *)
Definition emitted_state (state : State) (prompt : pyval) (index : Z) : State := {|
  initialized := initialized state;
  file_path := file_path state;
  file_mtime := file_mtime state;
  csv_column := csv_column state;
  strip_whitespace := strip_whitespace state;
  start_value := start_value state;
  step := step state;
  max_steps := max_steps state;
  auto_reset := auto_reset state;
  lines := lines state;
  total_lines := total_lines state;
  next_index := next_index state + step state;
  emitted_steps := emitted_steps state + 1;
  last_prompt := prompt;
  last_line_index := index;
  last_step_index := emitted_steps state + 1
|}.

(** The tail of [next_prompt]: pick the line, advance, remember the output. *)
Definition emit (a : Args) : M State Output :=
  (do state <- get;
   let total := total_lines state in
   do index <- lift (_normalize_index (next_index state) total);
   do raw_prompt <- lift (getitem (lines state) (index - 1));
   do prompt <- lift (if a_strip_whitespace a then pyval_strip raw_prompt
                      else Ok raw_prompt);
   let step_index := emitted_steps state + 1 in
   let done := (0 <=? a_max_steps a) && (a_max_steps a <=? step_index) in
   run put (emitted_state state prompt index);
   ret (prompt, index, step_index, total, done))%py.

Definition next_prompt (w : World) (a : Args) : M State Output :=
  if negb (str_truthy (a_file_path a)) then
    raise (ValueError "file_path is required.")
  else
    let path := w_expanduser w (a_file_path a) in
    if negb (isfile w path) then raise (FileNotFoundError "File not found")
    else
      (do mtime <- lift (getmtime w path);
       do state <- get;
       run (if _should_reset state path mtime a
            then _reset_state w path mtime a else ret tt);
       do state <- get;
       if (0 <=? a_max_steps a) && (a_max_steps a <=? emitted_steps state) then
         if auto_reset state then
           run _reset_state w path mtime a;
           emit a
         else ret (held_output state)
       else emit a)%py.

(** [n] calls in a row with the same inputs over the same files: the
    outcomes of the calls, oldest first, and the state left behind. *)
Fixpoint calls (w : World) (a : Args) (n : nat) (s : State)
    : State * list (result Output) :=
  match n with
  | O => (s, [])
  | S n' =>
      let '(s1, r) := next_prompt w a s in
      let '(s2, rs) := calls w a n' s1 in
      (s2, r :: rs)
  end.

End AutoPromptLineLoader.

(** * The counter: [nodes/simple_number_counter.py]

    A Python [float] is an IEEE 754 binary64 number: [spec_float] with
    53 bits of precision and [emax = 1024]; [+] is [SFadd] (round to
    nearest, ties to even) and [!=] is the negation of [SFeqb]. *)
Module SimpleNumberCounter.

Definition float : Type := spec_float.
Definition prec : Z := 53.
Definition emax : Z := 1024.

Definition float_add (x y : float) : float := SFadd prec emax x y.
Definition float_ne (x y : float) : bool := negb (SFeqb x y).

(** The float nearest to [m * 2^e]; exact whenever [m] fits in 53 bits. *)
Definition float_of_scaled (m e : Z) : float := binary_normalize prec emax m e false.

(** The dict [self._state]. *)
Record State := {
  initialized : bool;
  start_value : float;
  step : float;
  max_steps : Z;
  auto_reset : bool;
  next_value : float;
  last_value : float;
  emitted_steps : Z
}.

Definition __init__ : State := {|
  initialized := false;
  start_value := S754_zero false;
  step := float_of_scaled 1 0;
  max_steps := -1;
  auto_reset := false;
  next_value := S754_zero false;
  last_value := S754_zero false;
  emitted_steps := 0
|}.

Record Args := {
  a_start_value : float;
  a_step : float;
  a_max_steps : Z;
  a_auto_reset : bool;
  a_reset : bool
}.

(** The tuple [(value, step_index, done)]. *)
Definition Output : Type := float * Z * bool.

Definition _reset_state (a : Args) (state : State) : State := {|
  initialized := true;
  start_value := a_start_value a;
  step := a_step a;
  max_steps := a_max_steps a;
  auto_reset := a_auto_reset a;
  next_value := a_start_value a;
  last_value := a_start_value a;
  emitted_steps := 0
|}.

Definition _should_reset (a : Args) (state : State) : bool :=
  if a_reset a then true
  else if negb (initialized state) then true
  else
    float_ne (start_value state) (a_start_value a)
    || float_ne (step state) (a_step a)
    || negb (max_steps state =? a_max_steps a)
    || negb (Bool.eqb (auto_reset state) (a_auto_reset a)).

(** The tail of [count]: emit [next_value] and advance it by the [step]
    argument. *)
Definition advance (a : Args) (state : State) : State * Output :=
  let value := next_value state in
  let emitted := emitted_steps state + 1 in
  let done := (0 <=? a_max_steps a) && (a_max_steps a <=? emitted) in
  ({| initialized := initialized state;
      start_value := start_value state;
      step := step state;
      max_steps := max_steps state;
      auto_reset := auto_reset state;
      next_value := float_add value (a_step a);
      last_value := value;
      emitted_steps := emitted |},
   (value, emitted, done)).

Definition count (a : Args) (state : State) : State * Output :=
  let state := if _should_reset a state then _reset_state a state else state in
  if (0 <=? a_max_steps a) && (a_max_steps a <=? emitted_steps state) then
    if auto_reset state then advance a (_reset_state a state)
    else (state, (last_value state, emitted_steps state, true))
  else advance a state.

(** The state after [n] calls in a row with the same inputs, and the
    output of the [k]-th such call ([k >= 1]). *)
Definition state_after (a : Args) (n : N) (s : State) : State :=
  N.iter n (fun st => fst (count a st)) s.

Definition nth_call (a : Args) (k : N) (s : State) : Output :=
  snd (count a (state_after a (N.pred k) s)).

End SimpleNumberCounter.

(** * The composer: [nodes/wildcard_prompt_assembler.py] *)

(** [random.Random]: a generator is built from an integer seed, and
    [randrange] hands out a number together with the generator's next
    state.  [random.Random()] without a seed is seeded by the operating
    system: the seed is then the world's [w_entropy]. *)
Class PyRandom (R : Type) := {
  Random : Z -> R;
  randrange : R -> Z -> Z * R
}.

Module WildcardPromptAssembler.

(** A record of a source: [{"line_index": idx, "text": text}]. *)
Record Record_ := {
  line_index : Z;
  text : pyval
}.

(** An entry of [self._cache]. *)
Record CacheEntry := {
  mtime : Z;
  records : list Record_;
  strip_flag : bool;
  ignore_blank_flag : bool
}.

(** The instance: [self._cache], [self._positions], [self._global_step],
    and beside it the paths of the files opened for reading so far, the
    latest first. *)
Record Assembler := {
  _cache : gmap string CacheEntry;
  _positions : gmap string Z;
  _global_step : Z;
  opened : list string
}.

Definition __init__ : Assembler := {|
  _cache := ∅;
  _positions := ∅;
  _global_step := 0;
  opened := []
|}.

Definition set_cache (f : gmap string CacheEntry -> gmap string CacheEntry)
    (self : Assembler) : Assembler :=
  {| _cache := f (_cache self); _positions := _positions self;
     _global_step := _global_step self; opened := opened self |}.

Definition set_positions (f : gmap string Z -> gmap string Z)
    (self : Assembler) : Assembler :=
  {| _cache := _cache self; _positions := f (_positions self);
     _global_step := _global_step self; opened := opened self |}.

Definition set_global_step (n : Z) (self : Assembler) : Assembler :=
  {| _cache := _cache self; _positions := _positions self;
     _global_step := n; opened := opened self |}.

Definition log_open (path : string) (self : Assembler) : Assembler :=
  {| _cache := _cache self; _positions := _positions self;
     _global_step := _global_step self; opened := path :: opened self |}.

(** [open(path)]: fails on a missing file, else notes the read. *)
Definition open_ (w : World) (path : string) : M Assembler FileData :=
  (do fd <- lift (open_file w path);
   run modify (log_open path);
   ret fd)%py.

Definition _reset_state : M Assembler unit :=
  (run modify (set_positions (fun _ => ∅));
   modify (set_global_step 0))%py.

Definition startswith_hash (s : string) : bool :=
  match s with
  | String c _ => Ascii.eqb c "#"%char
  | EmptyString => false
  end.

(** The entries kept from the lines of a list of paths. *)
Definition path_entries (raw : list string) : list string :=
  List.filter (fun l => str_truthy l && negb (startswith_hash l)) (map strip raw).

Definition _parse_manual_paths (manual_paths : string) (max_files : Z) : list string :=
  slice_to (path_entries (splitlines manual_paths)) max_files.

Definition _load_manifest (w : World) (manifest_path : string) (max_files : Z)
    : M Assembler (list string) :=
  if negb (str_truthy manifest_path) then
    raise (ValueError "Manifest mode requires 'manifest_path'.")
  else
    let path := w_expanduser w manifest_path in
    if negb (isfile w path) then raise (FileNotFoundError "Manifest file not found")
    else
      (do fd <- open_ w path;
       ret (slice_to (path_entries (file_lines (fd_text fd))) max_files))%py.

(** [os.path.join(a, b)] on POSIX paths *)
Definition ends_with_slash (a : string) : bool :=
  match String.get (String.length a - 1) a with
  | Some c => Ascii.eqb c "/"%char
  | None => false
  end.

Definition path_join (a b : string) : string :=
  match b with
  | String c _ =>
      if Ascii.eqb c "/"%char then b
      else if negb (str_truthy a) || ends_with_slash a then String.append a b
      else String.append a (String "/"%char b)
  | EmptyString =>
      if negb (str_truthy a) || ends_with_slash a then a
      else String.append a "/"
  end.

(** [sorted] on strings: insertion into a list ordered by code points. *)
Fixpoint insert_sorted (x : string) (l : list string) : list string :=
  match l with
  | [] => [x]
  | y :: l' => if String.leb x y then x :: l else y :: insert_sorted x l'
  end.

Definition sorted (l : list string) : list string :=
  fold_right insert_sorted [] l.

Definition _scan_directory (w : World) (directory_path directory_glob : string)
    (max_files : Z) : M Assembler (list string) :=
  if negb (str_truthy directory_path) then
    raise (ValueError "Directory mode requires 'directory_path'.")
  else
    let directory := w_expanduser w directory_path in
    if negb (w_isdir w directory) then raise (NotADirectoryError "Directory not found")
    else
      let pattern :=
        path_join directory
          (if str_truthy directory_glob then directory_glob else "*.txt") in
      ret (slice_to (sorted (w_glob w pattern)) max_files).

Definition _gather_files (w : World) (mode manual_paths manifest_path
    directory_path directory_glob : string) (max_files : Z)
    : M Assembler (list string) :=
  if String.eqb mode "MANUAL" then ret (_parse_manual_paths manual_paths max_files)
  else if String.eqb mode "CONFIG_FILE" then _load_manifest w manifest_path max_files
  else if String.eqb mode "DIRECTORY" then
    _scan_directory w directory_path directory_glob max_files
  else raise (ValueError "Unknown mode").

Definition _parse_custom_inserts (custom_inserts : string) : list string :=
  if negb (str_truthy custom_inserts) then []
  else map rstrip_newline (splitlines custom_inserts).

(** [entry.split("::", 1)] when ["::"] occurs in [entry]. *)
Fixpoint split_once (cur s : string) : option (string * string) :=
  match s with
  | EmptyString => None
  | String c s' =>
      match s' with
      | String c' s'' =>
          if Ascii.eqb c ":"%char && Ascii.eqb c' ":"%char then Some (cur, s'')
          else split_once (snoc cur c) s'
      | EmptyString => None
      end
  end.

(** [s or None] *)
Definition or_none (s : string) : option string :=
  if str_truthy s then Some s else None.

(** [column or ''] *)
Definition or_empty (column : option string) : string :=
  match column with
  | Some c => c
  | None => ""
  end.

Definition _split_path_and_column (entry default_column : string)
    : string * option string :=
  match split_once EmptyString entry with
  | Some (path, column) => (strip path, or_none (strip column))
  | None => (strip entry, or_none (strip default_column))
  end.

(** The body shared by the readers' loops: strip, drop blanks, append. *)
Fixpoint collect (strip_ ignore_blank : bool) (items : list (Z * pyval))
    : result (list Record_) :=
  match items with
  | [] => Ok []
  | (idx, raw) :: items' =>
      rbind (if strip_ then pyval_strip raw else Ok raw) (fun t =>
        if ignore_blank && negb (pyval_truthy t) then collect strip_ ignore_blank items'
        else rbind (collect strip_ ignore_blank items') (fun rest =>
               Ok ({| line_index := idx; text := t |} :: rest)))
  end.

Definition _read_text_file (w : World) (path : string) (strip_ ignore_blank : bool)
    : M Assembler (list Record_) :=
  (do fd <- open_ w path;
   lift (collect strip_ ignore_blank
           (enumerate_from 1
              (map (fun line => PyStr (rstrip_newline line)) (file_lines (fd_text fd))))))%py.

Definition _read_markdown (w : World) (path : string) (strip_ ignore_blank : bool)
    : M Assembler (list Record_) :=
  _read_text_file w path strip_ ignore_blank.

Definition _read_csv (w : World) (path : string) (column : option string)
    (strip_ ignore_blank : bool) : M Assembler (list Record_) :=
  (do fd <- open_ w path;
   if str_truthy (or_empty column) then
     match dict_fieldnames (fd_csv fd) with
     | None => raise (TypeError "argument of type 'NoneType' is not iterable")
     | Some fields =>
         if negb (str_in (or_empty column) fields) then
           raise (ValueError "CSV column not found")
         else
           lift (collect strip_ ignore_blank
                   (enumerate_from 1
                      (map (fun row => default (PyStr "")
                                         (dict_row_get fields row (or_empty column)))
                           (dict_rows (fd_csv fd)))))
     end
   else
     lift (collect strip_ ignore_blank
             (enumerate_from 1
                (map (fun row =>
                        PyStr (join ", " (map (fun cell => if strip_ then strip cell
                                                         else cell) row)))
                     (fd_csv fd)))))%py.

Definition _read_docx (w : World) (path : string) (strip_ ignore_blank : bool)
    : M Assembler (list Record_) :=
  if negb (w_docx_installed w) then
    raise (ImportError "python-docx is required for DOCX support.")
  else
    (do fd <- open_ w path;
     lift (collect strip_ ignore_blank (enumerate_from 1 (map PyStr (fd_docx fd)))))%py.

Definition cache_key (path : string) (column : option string) : string :=
  String.append path (String.append "::" (or_empty column)).

Definition cache_valid (cached : CacheEntry) (mtime_ : Z) (strip_ ignore_blank : bool)
    : bool :=
  (mtime cached =? mtime_) && Bool.eqb (strip_flag cached) strip_
  && Bool.eqb (ignore_blank_flag cached) ignore_blank.

Definition read_by_extension (w : World) (path : string) (column : option string)
    (strip_ ignore_blank : bool) : M Assembler (list Record_) :=
  let ext := lower (splitext_ext path) in
  if String.eqb ext ".txt" || String.eqb ext ".log" then
    _read_text_file w path strip_ ignore_blank
  else if String.eqb ext ".md" then _read_markdown w path strip_ ignore_blank
  else if String.eqb ext ".csv" then _read_csv w path column strip_ ignore_blank
  else if String.eqb ext ".docx" then _read_docx w path strip_ ignore_blank
  else raise (ValueError "Unsupported file extension").

(** The test of [_load_file_lines] on the cache: the stored records when
    the entry under [key] has this modification time and these flags. *)
Definition cache_hit (self : Assembler) (key : string) (mtime_ : Z)
    (strip_ ignore_blank : bool) : option (list Record_) :=
  match _cache self !! key with
  | Some cached =>
      if cache_valid cached mtime_ strip_ ignore_blank then Some (records cached)
      else None
  | None => None
  end.

Definition _load_file_lines (w : World) (path : string) (column : option string)
    (strip_ ignore_blank : bool) : M Assembler (list Record_) :=
  (do mtime_ <- lift (getmtime w path);
   let key := cache_key path column in
   do self <- get;
   match cache_hit self key mtime_ strip_ ignore_blank with
   | Some recs => ret recs
   | None =>
       do recs <- read_by_extension w path column strip_ ignore_blank;
       run modify (set_cache (insert key
             {| mtime := mtime_; records := recs; strip_flag := strip_;
                ignore_blank_flag := ignore_blank |}));
       ret recs
   end)%py.

Section WithRandom.
Context {R : Type} `{PyRandom R}.

Definition _make_rng (w : World) (random_seed : Z) : M Assembler R :=
  (do self <- get;
   let global_step := _global_step self + 1 in
   run put (set_global_step global_step self);
   if 0 <=? random_seed then ret (Random (random_seed + global_step - 1))
   else ret (Random (w_entropy w)))%py.

(** Returns [(text, line_index, total)] and the generator as the call
    leaves it. *)
Definition _select_line_from_file (w : World) (path : string)
    (column : option string) (selection_mode : string)
    (strip_ ignore_blank : bool) (rng : R) : M Assembler (pyval * Z * Z * R) :=
  let path := w_expanduser w path in
  if negb (isfile w path) then raise (FileNotFoundError "Prompt file not found")
  else
    (do recs <- _load_file_lines w path column strip_ ignore_blank;
     match recs with
     | [] => raise (ValueError "No usable lines found in file")
     | _ :: _ =>
         let key := cache_key path column in
         let total := Z.of_nat (length recs) in
         do pick <-
           (if String.eqb selection_mode "SEQUENTIAL" then
              do self <- get;
              let position := default 0 (_positions self !! key) in
              let idx := position mod total in
              run put (set_positions (insert key (position + 1)) self);
              ret (idx, rng)
            else ret (randrange rng total));
         do record <- lift (getitem recs (fst pick));
         ret (text record, line_index record, total, snd pick)
     end)%py.

(** One entry of the report's ["segments"] list. *)
Record Segment := {
  seg_file : string;
  seg_column : option string;
  seg_line_index : Z;
  seg_total_lines : Z;
  seg_text : pyval
}.

(** The object handed to [json.dumps]. *)
Record Report := {
  rep_mode : string;
  rep_selection_mode : string;
  rep_prompt : string;
  rep_segments : list Segment
}.

(** The inputs of one call of [compose]. *)
Record Args := {
  a_mode : string;
  a_selection_mode : string;
  a_auto_space : bool;
  a_strip_whitespace : bool;
  a_ignore_blank_lines : bool;
  a_random_seed : Z;
  a_manual_paths : string;
  a_manifest_path : string;
  a_directory_path : string;
  a_directory_glob : string;
  a_max_files : Z;
  a_custom_inserts : string;
  a_prefix_text : string;
  a_suffix_text : string;
  a_csv_column : string;
  a_reset : bool
}.

(** [inserts[idx]] when [idx < len(inserts)] and the entry is not empty. *)
Definition insert_at (inserts : list string) (idx : nat) : list pyval :=
  match inserts !! idx with
  | Some i => if str_truthy i then [PyStr i] else []
  | None => []
  end.

(** The [for] loop of [compose] from source number [idx] on: [parts] and
    [segments] are the lists built so far. *)
Fixpoint compose_loop (w : World) (a : Args) (inserts : list string)
    (files : list string) (idx : nat) (rng : R)
    (parts : list pyval) (segments : list Segment)
    : M Assembler (list pyval * list Segment) :=
  match files with
  | [] => ret (parts, segments)
  | file_entry :: files' =>
      (let '(path, column) := _split_path_and_column file_entry (a_csv_column a) in
       do sel <- _select_line_from_file w path column (a_selection_mode a)
                   (a_strip_whitespace a) (a_ignore_blank_lines a) rng;
       let '(line_text, line_index_, total, rng') := sel in
       compose_loop w a inserts files' (S idx) rng'
         (parts ++ insert_at inserts idx ++ [line_text])
         (segments ++ [{| seg_file := path; seg_column := column;
                          seg_line_index := line_index_; seg_total_lines := total;
                          seg_text := line_text |}]))%py
  end.

(** The strings among [parts] that are not empty. *)
Fixpoint truthy_parts (parts : list pyval) : list string :=
  match parts with
  | [] => []
  | PyStr s :: parts' =>
      if str_truthy s then s :: truthy_parts parts' else truthy_parts parts'
  | PyNone :: parts' => truthy_parts parts'
  end.

(** The tuple [(prompt, segments_json, file_count)], the second component
    before serialisation. *)
Definition Output : Type := string * Report * Z.

Definition compose (w : World) (a : Args) : M Assembler Output :=
  (run (if a_reset a then _reset_state else ret tt);
   do files <- _gather_files w (a_mode a) (a_manual_paths a) (a_manifest_path a)
                 (a_directory_path a) (a_directory_glob a) (a_max_files a);
   match files with
   | [] => raise (ValueError "Wildcard Prompt Assembler: No files found for the selected mode.")
   | _ :: _ =>
       let inserts := _parse_custom_inserts (a_custom_inserts a) in
       do rng <- _make_rng w (a_random_seed a);
       let parts := if str_truthy (a_prefix_text a) then [PyStr (a_prefix_text a)] else [] in
       do out <- compose_loop w a inserts files 0 rng parts [];
       let '(parts, segments) := out in
       let parts := (parts ++ insert_at inserts (length files))%list in
       let parts := if str_truthy (a_suffix_text a)
                    then (parts ++ [PyStr (a_suffix_text a)])%list else parts in
       let prompt := if a_auto_space a then join " " (truthy_parts parts)
                     else join "" (truthy_parts parts) in
       ret (prompt,
            {| rep_mode := a_mode a; rep_selection_mode := a_selection_mode a;
               rep_prompt := prompt; rep_segments := segments |},
            Z.of_nat (length files))
   end)%py.

(** A run: the calls of [compose] one after the other, each in the world
    it finds; the outcomes, oldest first, and the instance left behind. *)
Fixpoint compose_all (calls : list (World * Args)) (self : Assembler)
    : Assembler * list (result Output) :=
  match calls with
  | [] => (self, [])
  | (w, a) :: calls' =>
      let '(self1, r) := compose w a self in
      let '(self2, rs) := compose_all calls' self1 in
      (self2, r :: rs)
  end.

End WithRandom.

End WildcardPromptAssembler.

(** * Notions used in the statements *)

Module Sequencer.
Import AutoPromptLineLoader.

(** The path a call works with. *)
Definition call_path (w : World) (a : Args) : string :=
  w_expanduser w (a_file_path a).

(** The cap on emissions is reached. *)
Definition capped (a : Args) (s : State) : bool :=
  (0 <=? a_max_steps a) && (a_max_steps a <=? emitted_steps s).

(** The call finds the instance ready: the file is there, nothing forces a
    reload, and the cap on emissions is not reached. *)
Definition ready (w : World) (a : Args) (s : State) : bool :=
  str_truthy (a_file_path a)
  && match w_files w !! call_path w a with
     | Some fd =>
         negb (_should_reset s (call_path w a) (fd_mtime fd) a) && negb (capped a s)
     | None => false
     end.

End Sequencer.

(** * Sample worlds *)

Definition colours_txt : FileData := {|
  fd_mtime := 1700000000;
  fd_text := String.append " red " (String newline
            (String.append "green" (String newline
            (String newline (String.append "blue" (String newline EmptyString))))));
  fd_csv := [];
  fd_docx := []
|}.

Definition names_csv : FileData := {|
  fd_mtime := 1700000005;
  fd_text := "";
  fd_csv := [["name"; "score"]; ["alice"; "1"]; []; ["bob"]];
  fd_docx := []
|}.

Definition sample_world : World := {|
  w_files := {[ "/prompts/colours.txt" := colours_txt;
                "/prompts/names.csv" := names_csv ]};
  w_isdir := fun d => String.eqb d "/prompts";
  w_glob := fun _ => ["/prompts/colours.txt"];
  w_expanduser := fun p => p;
  w_docx_installed := false;
  w_entropy := 42
|}.

Definition sample_args (max_steps : Z) (auto_reset : bool)
    : AutoPromptLineLoader.Args := {|
  AutoPromptLineLoader.a_file_path := "/prompts/colours.txt";
  AutoPromptLineLoader.a_start_value := 1;
  AutoPromptLineLoader.a_step := 1;
  AutoPromptLineLoader.a_max_steps := max_steps;
  AutoPromptLineLoader.a_auto_reset := auto_reset;
  AutoPromptLineLoader.a_reset := false;
  AutoPromptLineLoader.a_csv_column := "";
  AutoPromptLineLoader.a_strip_whitespace := true
|}.

(** The sequencer after two calls on the sample file, capped at two. *)
Definition sample_state (auto_reset : bool) : AutoPromptLineLoader.State :=
  fst (AutoPromptLineLoader.calls sample_world (sample_args 2 auto_reset) 2
         AutoPromptLineLoader.__init__).

Module Counter.
Import SimpleNumberCounter.

(** [start + step + ... + step], [n] additions, each one rounded. *)
Definition progression (start step : float) (n : N) : float :=
  N.iter n (fun v => float_add v step) start.

(** The counter while it runs on the inputs [a]: [next_value], [last_value]
    and [emitted_steps] vary, the rest mirrors the inputs. *)
Definition running (a : Args) (next last : float) (emitted : Z) : State := {|
  initialized := true;
  start_value := a_start_value a;
  step := a_step a;
  max_steps := a_max_steps a;
  auto_reset := a_auto_reset a;
  next_value := next;
  last_value := last;
  emitted_steps := emitted
|}.

(** The floats 0.0 and 2.5. *)
Definition zero : float := S754_zero false.
Definition two_and_half : float := float_of_scaled 5 (-1).

(** [start_value = 0], [step = 2.5], [max_steps = -1], no reset. *)
Definition by_two_and_half : Args := {|
  a_start_value := zero;
  a_step := two_and_half;
  a_max_steps := -1;
  a_auto_reset := false;
  a_reset := false
|}.

End Counter.

Module Composer.
Import WildcardPromptAssembler.

(** Source indices as the readers hand them out, from [k] on: each is at
    least the number after its predecessor's, and exactly that number
    when no blank item is dropped. *)
Fixpoint indexed_from (k : Z) (ignore_blank : bool) (recs : list Record_) : Prop :=
  match recs with
  | [] => True
  | r :: rest =>
      k <= line_index r
      /\ (ignore_blank = false -> line_index r = k)
      /\ indexed_from (line_index r + 1) ignore_blank rest
  end.

(** Every entry of the cache holds records numbered that way. *)
Definition cache_indexed (self : Assembler) : Prop :=
  forall key e, _cache self !! key = Some e ->
                indexed_from 1 (ignore_blank_flag e) (records e).

(** The one change a load makes to the cache: an entry written under a
    key, its records numbered as the readers do. *)
Definition cache_step (c c' : gmap string CacheEntry) : Prop :=
  exists key e, c' = <[key := e]> c
                /\ indexed_from 1 (ignore_blank_flag e) (records e).

(** The same world with another seed from the operating system. *)
Definition with_entropy (e : Z) (w : World) : World := {|
  w_files := w_files w;
  w_isdir := w_isdir w;
  w_glob := w_glob w;
  w_expanduser := w_expanduser w;
  w_docx_installed := w_docx_installed w;
  w_entropy := e
|}.

(** The same inputs with another [reset] flag. *)
Definition with_reset (b : bool) (a : Args) : Args := {|
  a_mode := a_mode a;
  a_selection_mode := a_selection_mode a;
  a_auto_space := a_auto_space a;
  a_strip_whitespace := a_strip_whitespace a;
  a_ignore_blank_lines := a_ignore_blank_lines a;
  a_random_seed := a_random_seed a;
  a_manual_paths := a_manual_paths a;
  a_manifest_path := a_manifest_path a;
  a_directory_path := a_directory_path a;
  a_directory_glob := a_directory_glob a;
  a_max_files := a_max_files a;
  a_custom_inserts := a_custom_inserts a;
  a_prefix_text := a_prefix_text a;
  a_suffix_text := a_suffix_text a;
  a_csv_column := a_csv_column a;
  a_reset := b
|}.

Section WithRandom.
Context {R : Type} `{PyRandom R}.

(** [n] selections in a row from one source, the generator handed on:
    the outcomes, oldest first, and the instance left behind. *)
Fixpoint select_repeatedly (w : World) (path : string) (column : option string)
    (selection_mode : string) (strip_ ignore_blank : bool) (rng : R) (n : nat)
    (self : Assembler) : Assembler * list (result (pyval * Z * Z)) :=
  match n with
  | O => (self, [])
  | S n' =>
      match _select_line_from_file w path column selection_mode strip_ ignore_blank
              rng self with
      | (self1, Ok (t, i, total, rng')) =>
          let '(self2, rs) := select_repeatedly w path column selection_mode
                                strip_ ignore_blank rng' n' self1 in
          (self2, Ok (t, i, total) :: rs)
      | (self1, Err e) =>
          let '(self2, rs) := select_repeatedly w path column selection_mode
                                strip_ ignore_blank rng n' self1 in
          (self2, Err e :: rs)
      end
  end.

End WithRandom.

(** A run in which the operating system hands out the seeds [es], one
    per call, in place of those of the worlds. *)
Fixpoint reseed (es : list Z) (calls : list (World * Args)) : list (World * Args) :=
  match calls, es with
  | (w, a) :: calls', e :: es' => (with_entropy e w, a) :: reseed es' calls'
  | _, _ => calls
  end.

(** [records[cursor % len(records)]], reported as [(text, line_index, total)]. *)
Definition selection (recs : list Record_) (cursor : Z) : result (pyval * Z * Z) :=
  rbind (getitem recs (cursor mod Z.of_nat (length recs)))
    (fun r => Ok (text r, line_index r, Z.of_nat (length recs))).

(** A generator for the examples: a linear congruential one. *)
Definition lcg : PyRandom Z := {|
  Random := fun seed => seed;
  randrange := fun g n => ((7 * g + 3) mod n, 7 * g + 3)
|}.

(** The composer's cache after loading the sample text file with
    (strip, ignore_blank) = (true, true), and then with (false, false). *)
Definition colours_path : string := "/prompts/colours.txt".

Definition sample_compose (selection_mode : string) (random_seed : Z) (reset : bool)
    : Args := {|
  a_mode := "MANUAL";
  a_selection_mode := selection_mode;
  a_auto_space := true;
  a_strip_whitespace := true;
  a_ignore_blank_lines := true;
  a_random_seed := random_seed;
  a_manual_paths := String.append "/prompts/colours.txt"
                      (String newline "/prompts/names.csv::name");
  a_manifest_path := "";
  a_directory_path := "";
  a_directory_glob := "*.txt";
  a_max_files := 16;
  a_custom_inserts := "";
  a_prefix_text := "a";
  a_suffix_text := "";
  a_csv_column := "";
  a_reset := reset
|}.

Definition loaded_once : Assembler :=
  fst (_load_file_lines sample_world colours_path None true true __init__).

Definition loaded_twice : Assembler :=
  fst (_load_file_lines sample_world colours_path None false false loaded_once).

Definition loaded_thrice : Assembler :=
  fst (_load_file_lines sample_world colours_path None true true loaded_twice).

Definition colours_stripped : list Record_ :=
  [ {| line_index := 1; text := PyStr "red" |};
    {| line_index := 2; text := PyStr "green" |};
    {| line_index := 4; text := PyStr "blue" |} ].

Definition colours_raw : list Record_ :=
  [ {| line_index := 1; text := PyStr " red " |};
    {| line_index := 2; text := PyStr "green" |};
    {| line_index := 3; text := PyStr "" |};
    {| line_index := 4; text := PyStr "blue" |} ].

(** Two calls in sequential mode, and the composer they leave behind. *)
Definition two_calls (selection_mode : string) (random_seed : Z)
    : list (World * Args) :=
  [ (sample_world, sample_compose selection_mode random_seed false);
    (sample_world, sample_compose selection_mode random_seed false) ].

Definition composed_twice : Assembler :=
  fst (compose_all (H := lcg) (two_calls "SEQUENTIAL" 7) __init__).

End Composer.

(** * Runs of the sequencer *)

Module SequencerRuns.
Import AutoPromptLineLoader.

(** A run: the calls of [next_prompt] one after the other, each with its
    own inputs in the world it finds; the outcomes, oldest first, and the
    state left behind. *)
Fixpoint next_prompts (cs : list (World * Args)) (s : State)
    : State * list (result Output) :=
  match cs with
  | [] => (s, [])
  | (w, a) :: cs' =>
      let '(s1, r) := next_prompt w a s in
      let '(s2, rs) := next_prompts cs' s1 in
      (s2, r :: rs)
  end.

(** What the dict holds once a file is loaded: at least one line, their
    number, and the last output, which is the placeholder before the
    first emission and a line of the file after it. *)
Definition well_formed (s : State) : Prop :=
  initialized s = true ->
  lines s <> [] /\ total_lines s = Z.of_nat (length (lines s))
  /\ last_step_index s = emitted_steps s
  /\ ((emitted_steps s = 0 /\ last_line_index s = 0 /\ last_prompt s = PyStr "")
      \/ (1 <= emitted_steps s /\ 1 <= last_line_index s <= total_lines s)).

(** An outcome within bounds: a numbered line of the file, or the
    placeholder of a sequence that has not emitted; no [IndexError], and
    not the error [_normalize_index] raises on an empty list. *)
Definition in_range (r : result Output) : Prop :=
  match r with
  | Ok (p, idx, k, t, d) =>
      1 <= t /\ ((k = 0 /\ idx = 0 /\ p = PyStr "") \/ (1 <= k /\ 1 <= idx <= t))
  | Err (IndexError _) => False
  | Err e => e <> ValueError "No lines available from the loaded file."
  end.

(** Emission number [j], counted from 0, of a sequence over the lines
    [texts]: the line at the wrapped [start_value + j * step]. *)
Definition emission (a : Args) (texts : list string) (j : Z) : Output :=
  let total := Z.of_nat (length texts) in
  let idx := (a_start_value a + j * a_step a - 1) mod total + 1 in
  let t := default "" (texts !! Z.to_nat (idx - 1)) in
  (PyStr (if a_strip_whitespace a then strip t else t), idx, j + 1, total,
   (0 <=? a_max_steps a) && (a_max_steps a <=? j + 1)).

(** The state of a sequence over [texts] that has emitted [j] lines and
    that the inputs [a] find current. *)
Definition walking (a : Args) (path : string) (m : Z) (texts : list string)
    (j : Z) (s : State) : Prop :=
  _should_reset s path m a = false
  /\ lines s = map PyStr texts
  /\ total_lines s = Z.of_nat (length texts)
  /\ next_index s = a_start_value a + j * a_step a
  /\ emitted_steps s = j.

End SequencerRuns.

(** The sequencer's inputs for the second row of the ["score"] column of
    the sample CSV file, a row that is shorter than the header. *)
Definition short_row_args : AutoPromptLineLoader.Args := {|
  AutoPromptLineLoader.a_file_path := "/prompts/names.csv";
  AutoPromptLineLoader.a_start_value := 2;
  AutoPromptLineLoader.a_step := 1;
  AutoPromptLineLoader.a_max_steps := -1;
  AutoPromptLineLoader.a_auto_reset := false;
  AutoPromptLineLoader.a_reset := false;
  AutoPromptLineLoader.a_csv_column := "score";
  AutoPromptLineLoader.a_strip_whitespace := true
|}.

(** The counter's inputs [start_value = 0], [step = 2.5] with a cap, and
    inputs whose [step] is not a number. *)
Definition capped_by_two_and_half (max_steps : Z) (auto_reset : bool)
    : SimpleNumberCounter.Args := {|
  SimpleNumberCounter.a_start_value := Counter.zero;
  SimpleNumberCounter.a_step := Counter.two_and_half;
  SimpleNumberCounter.a_max_steps := max_steps;
  SimpleNumberCounter.a_auto_reset := auto_reset;
  SimpleNumberCounter.a_reset := false
|}.

Definition by_nan : SimpleNumberCounter.Args := {|
  SimpleNumberCounter.a_start_value := Counter.two_and_half;
  SimpleNumberCounter.a_step := S754_nan;
  SimpleNumberCounter.a_max_steps := -1;
  SimpleNumberCounter.a_auto_reset := false;
  SimpleNumberCounter.a_reset := false
|}.

(** * Worlds and tables for the composer's statements *)
Module ComposerRuns.
Import WildcardPromptAssembler.

(** The same world with the file at [path] replaced or created. *)
Definition with_file (path : string) (fd : FileData) (w : World) : World := {|
  w_files := <[path := fd]> (w_files w);
  w_isdir := w_isdir w;
  w_glob := w_glob w;
  w_expanduser := w_expanduser w;
  w_docx_installed := w_docx_installed w;
  w_entropy := w_entropy w
|}.

(** No cursor is lost or moved back from [p] to [p']. *)
Definition advanced (p p' : gmap string Z) : Prop :=
  forall key c, p !! key = Some c -> exists c', p' !! key = Some c' /\ c <= c'.

(** The source a segment names. *)
Definition seg_source (s : Segment) : string * option string :=
  (seg_file s, seg_column s).

End ComposerRuns.

(** The sample text file edited in place, its modification time kept, and
    the same edit with a later modification time. *)
Definition colours_edited (mtime : Z) : FileData := {|
  fd_mtime := mtime;
  fd_text := String.append "cyan" (String newline EmptyString);
  fd_csv := [];
  fd_docx := []
|}.

(** The report of the first sequential call on the sample world, and
    inputs that name no source. *)
Definition sample_report : WildcardPromptAssembler.Report := {|
  WildcardPromptAssembler.rep_mode := "MANUAL";
  WildcardPromptAssembler.rep_selection_mode := "SEQUENTIAL";
  WildcardPromptAssembler.rep_prompt := "a red alice";
  WildcardPromptAssembler.rep_segments :=
    [ {| WildcardPromptAssembler.seg_file := "/prompts/colours.txt";
         WildcardPromptAssembler.seg_column := None;
         WildcardPromptAssembler.seg_line_index := 1;
         WildcardPromptAssembler.seg_total_lines := 3;
         WildcardPromptAssembler.seg_text := PyStr "red" |};
      {| WildcardPromptAssembler.seg_file := "/prompts/names.csv";
         WildcardPromptAssembler.seg_column := Some "name";
         WildcardPromptAssembler.seg_line_index := 1;
         WildcardPromptAssembler.seg_total_lines := 2;
         WildcardPromptAssembler.seg_text := PyStr "alice" |} ]
|}.

Definition no_sources (reset : bool) : WildcardPromptAssembler.Args := {|
  WildcardPromptAssembler.a_mode := "MANUAL";
  WildcardPromptAssembler.a_selection_mode := "SEQUENTIAL";
  WildcardPromptAssembler.a_auto_space := true;
  WildcardPromptAssembler.a_strip_whitespace := true;
  WildcardPromptAssembler.a_ignore_blank_lines := true;
  WildcardPromptAssembler.a_random_seed := 7;
  WildcardPromptAssembler.a_manual_paths := "# nothing yet";
  WildcardPromptAssembler.a_manifest_path := "";
  WildcardPromptAssembler.a_directory_path := "";
  WildcardPromptAssembler.a_directory_glob := "*.txt";
  WildcardPromptAssembler.a_max_files := 16;
  WildcardPromptAssembler.a_custom_inserts := "";
  WildcardPromptAssembler.a_prefix_text := "a";
  WildcardPromptAssembler.a_suffix_text := "";
  WildcardPromptAssembler.a_csv_column := "";
  WildcardPromptAssembler.a_reset := reset
|}.

(** * Shapes of strings used in the statements *)

(** No [":"] occurs in [s]. *)
Fixpoint no_colon (s : string) : bool :=
  match s with
  | EmptyString => true
  | String c s' => negb (Ascii.eqb c ":"%char) && no_colon s'
  end.

(** The only line boundary of [str.splitlines] that occurs in [s] is
    ["\n"]. *)
Fixpoint plain_lines (s : string) : bool :=
  match s with
  | EmptyString => true
  | String c s' => (negb (is_linebreak c) || Ascii.eqb c newline) && plain_lines s'
  end.

(** A manifest that lists the two sample sources, and the sample world
    with it. *)
Definition manifest_txt : FileData := {|
  fd_mtime := 1700000007;
  fd_text := String.append " /prompts/colours.txt " (String newline
            (String.append "# names" (String newline (String newline
            (String.append "/prompts/names.csv::name" (String newline EmptyString))))));
  fd_csv := [];
  fd_docx := []
|}.

Definition manifest_world : World :=
  ComposerRuns.with_file "/prompts/list.txt" manifest_txt sample_world.

(** * Texts as the composer's readers leave them *)
Module ComposerTexts.
Import WildcardPromptAssembler.

(** A text read under the flags [(strip, ignore_blank)]: not blank when
    blank lines are dropped, and a string without surrounding whitespace
    when lines are stripped. *)
Definition formatted (strip_ ignore_blank : bool) (t : pyval) : Prop :=
  (ignore_blank = true -> pyval_truthy t = true)
  /\ (strip_ = true -> exists s, t = PyStr s /\ strip s = s).

(** Every entry of the cache holds texts read under its flags. *)
Definition cache_formatted (self : Assembler) : Prop :=
  forall key e, _cache self !! key = Some e ->
    Forall (fun r => formatted (strip_flag e) (ignore_blank_flag e) (text r))
      (records e).

(** The segments of a successful call hold texts read under the call's
    flags. *)
Definition formatted_outcome (a : Args) (r : result Output) : Prop :=
  match r with
  | Ok (_, rep, _) =>
      Forall (fun seg => formatted (a_strip_whitespace a) (a_ignore_blank_lines a)
                           (seg_text seg))
        (rep_segments rep)
  | Err _ => True
  end.

End ComposerTexts.

(** * Lines, records and parts *)
Module ComposerLines.
Import WildcardPromptAssembler.

(** The records of the lines [texts], numbered from [k], stripped or
    not, none dropped. *)
Fixpoint numbered (strip_ : bool) (k : Z) (texts : list string) : list Record_ :=
  match texts with
  | [] => []
  | t :: texts' =>
      {| line_index := k; text := PyStr (if strip_ then strip t else t) |}
      :: numbered strip_ (k + 1) texts'
  end.

(** The parts the loop of [compose] appends for the selected [texts],
    the first of them from source number [idx]: before each text the
    insert of its source, if there is one. *)
Fixpoint interleave (inserts : list string) (idx : nat) (texts : list pyval)
    : list pyval :=
  match texts with
  | [] => []
  | t :: texts' => insert_at inserts idx ++ [t] ++ interleave inserts (S idx) texts'
  end.

End ComposerLines.

(** A sequential selection and a call in RANDOM mode on the composer
    that two sequential calls left behind. *)
Definition selected_once
    : WildcardPromptAssembler.Assembler * result (pyval * Z * Z * Z) :=
  WildcardPromptAssembler._select_line_from_file (H := Composer.lcg) sample_world
    Composer.colours_path None "SEQUENTIAL" true true 0 Composer.composed_twice.

Definition composed_randomly
    : WildcardPromptAssembler.Assembler * result WildcardPromptAssembler.Output :=
  WildcardPromptAssembler.compose (H := Composer.lcg) sample_world
    (Composer.sample_compose "RANDOM" 7 false) Composer.composed_twice.

(** * Readers seen whole *)

(** The lines [load_line] reads: those of the reader its extension
    selects. *)
Definition loader_lines (w : World) (path csv_column : string)
    : result (list pyval) :=
  let ext := lower (splitext_ext path) in
  if String.eqb ext ".txt" || String.eqb ext ".log" then PromptLineLoader._read_txt w path
  else if String.eqb ext ".md" then PromptLineLoader._read_md w path
  else if String.eqb ext ".csv" then PromptLineLoader._read_csv w path csv_column
  else if String.eqb ext ".docx" then PromptLineLoader._read_docx w path
  else Err (ValueError "Unsupported file extension. Use txt, md, csv, or docx.").

(** The items the composer's reader for [path] enumerates from 1, before
    it strips or drops any: the lines of a text file without their
    ["\n"], the values of the column or else the joined rows of a CSV
    file, the paragraphs of a DOCX file. *)
Definition source_items (w : World) (path : string) (column : option string)
    (strip_ : bool) : result (list pyval) :=
  let ext := lower (splitext_ext path) in
  if String.eqb ext ".txt" || String.eqb ext ".log" || String.eqb ext ".md" then
    rbind (open_file w path) (fun fd =>
      Ok (map (fun line => PyStr (rstrip_newline line)) (file_lines (fd_text fd))))
  else if String.eqb ext ".csv" then
    rbind (open_file w path) (fun fd =>
      if str_truthy (WildcardPromptAssembler.or_empty column) then
        match dict_fieldnames (fd_csv fd) with
        | None => Err (TypeError "argument of type 'NoneType' is not iterable")
        | Some fields =>
            if negb (str_in (WildcardPromptAssembler.or_empty column) fields) then
              Err (ValueError "CSV column not found")
            else
              Ok (map (fun row =>
                         default (PyStr "")
                           (dict_row_get fields row
                              (WildcardPromptAssembler.or_empty column)))
                      (dict_rows (fd_csv fd)))
        end
      else
        Ok (map (fun row =>
                   PyStr (join ", " (map (fun cell => if strip_ then strip cell
                                                      else cell) row)))
                (fd_csv fd)))
  else if String.eqb ext ".docx" then
    if negb (w_docx_installed w) then
      Err (ImportError "python-docx is required for DOCX support.")
    else rbind (open_file w path) (fun fd => Ok (map PyStr (fd_docx fd)))
  else Err (ValueError "Unsupported file extension").

(** The sequencer after four calls on the sample file, its [next_index]
    at 5. *)
Definition walked_four : AutoPromptLineLoader.State :=
  fst (AutoPromptLineLoader.calls sample_world (sample_args (-1) false) 4
         AutoPromptLineLoader.__init__).

(** The composer after one call in RANDOM mode with the seed 7. *)
Definition composed_once_randomly : WildcardPromptAssembler.Assembler :=
  fst (WildcardPromptAssembler.compose (H := Composer.lcg) sample_world
         (Composer.sample_compose "RANDOM" 7 false)
         WildcardPromptAssembler.__init__).

(** The prompt of an outcome of [compose], empty when the call raised. *)
Definition prompt_of (r : result WildcardPromptAssembler.Output) : string :=
  match r with
  | Ok (prompt, _, _) => prompt
  | Err _ => ""
  end.

(** * The wrap-around index and the sequencer *)
Section SequencerFacts.
Import AutoPromptLineLoader Sequencer.

Lemma wrap_range (i total : Z) : 0 < total -> 1 <= (i - 1) mod total + 1 <= total.
Proof. intros Ht. pose proof (Z.mod_pos_bound (i - 1) total Ht). lia. Qed.

Lemma wrap_periodic (i k total : Z) :
  total <> 0 -> (i + k * total - 1) mod total + 1 = (i - 1) mod total + 1.
Proof.
  intros Ht. replace (i + k * total - 1) with (i - 1 + k * total) by lia.
  now rewrite Z.mod_add.
Qed.

Lemma normalize_index_ok (i total : Z) :
  total <> 0 -> _normalize_index i total = Ok ((i - 1) mod total + 1).
Proof.
  intros Ht. unfold _normalize_index.
  destruct (Z.eqb_spec total 0); [contradiction | reflexivity].
Qed.

(** What a successful emission returns and leaves behind. *)
Lemma emit_inv (a : Args) (s s' : State) p idx k t d :
  emit a s = (s', Ok (p, idx, k, t, d)) ->
  total_lines s <> 0
  /\ idx = (next_index s - 1) mod total_lines s + 1
  /\ k = emitted_steps s + 1
  /\ t = total_lines s
  /\ d = (0 <=? a_max_steps a) && (a_max_steps a <=? emitted_steps s + 1)
  /\ s' = emitted_state s p idx.
Proof.
  unfold emit, bind, get, lift, put, ret, _normalize_index.
  destruct (Z.eqb_spec (total_lines s) 0) as [|Hne]; [discriminate|].
  destruct (getitem _ _) as [raw|]; [|discriminate].
  destruct (if a_strip_whitespace a then _ else _) as [q|]; [|discriminate].
  intros [= <- <- <- <- <- <-]. repeat split; auto.
Qed.

(** A ready instance goes straight to the emission. *)
Lemma next_prompt_ready (w : World) (a : Args) (s : State) :
  ready w a s = true -> next_prompt w a s = emit a s.
Proof.
  unfold ready, capped, call_path, next_prompt, isfile, getmtime, open_file.
  destruct (str_truthy (a_file_path a)); [|discriminate]. simpl.
  destruct (w_files w !! _) as [fd|]; [|discriminate]. simpl.
  unfold bind at 1, lift. simpl. unfold bind at 1, get.
  destruct (_should_reset _ _ _ _); [discriminate|]. simpl.
  unfold bind at 1, ret. unfold bind at 1, get.
  destruct ((0 <=? a_max_steps a) && _); [discriminate|]. reflexivity.
Qed.

Lemma load_line_inv (w : World) file_path i col sw p idx t :
  PromptLineLoader.load_line w file_path i col sw = Ok (p, idx, t) ->
  0 < t /\ idx = (i - 1) mod t + 1.
Proof.
  unfold PromptLineLoader.load_line.
  destruct (negb (str_truthy file_path)); [discriminate|].
  destruct (negb (isfile w _)); [discriminate|].
  destruct (if _ || _ then _ else _) as [lines|]; [|discriminate]. simpl.
  destruct (Z.eqb_spec (Z.of_nat (length lines)) 0) as [|Hne]; [discriminate|].
  destruct (getitem _ _) as [raw|]; [|discriminate]. simpl.
  destruct (if sw then _ else _) as [q|]; [|discriminate]. simpl.
  intros [= <- <- <-]. split; [lia | reflexivity].
Qed.

Example load_line_wraps :
  PromptLineLoader.load_line sample_world "/prompts/colours.txt" 5 "" true
  = Ok (PyStr "red", 1, 4).
Proof. reflexivity. Qed.

Example next_prompt_wraps :
  snd (calls sample_world (sample_args (-1) false) 5 __init__)
  = [Ok (PyStr "red", 1, 1, 4, false); Ok (PyStr "green", 2, 2, 4, false);
     Ok (PyStr "", 3, 3, 4, false); Ok (PyStr "blue", 4, 4, 4, false);
     Ok (PyStr "red", 1, 5, 4, false)].
Proof. reflexivity. Qed.

Lemma reset_state_eq (w : World) path m (a : Args) (s : State) :
  _reset_state w path m a s
  = match _load_lines w path (a_csv_column a) with
    | Ok [] => (s, Err (ValueError "The selected file contained zero usable lines."))
    | Ok (l :: ls) => (fresh_state path m a (l :: ls), Ok tt)
    | Err e => (s, Err e)
    end.
Proof.
  unfold _reset_state, bind, lift.
  destruct (_load_lines w path (a_csv_column a)) as [[|l ls]|e]; reflexivity.
Qed.

(** [next_prompt] on an existing file, step by step. *)
Lemma next_prompt_eq (w : World) (a : Args) (s : State) fd :
  str_truthy (a_file_path a) = true ->
  w_files w !! call_path w a = Some fd ->
  next_prompt w a s
  = match (if _should_reset s (call_path w a) (fd_mtime fd) a
           then _reset_state w (call_path w a) (fd_mtime fd) a s
           else (s, Ok tt)) with
    | (s0, Err e) => (s0, Err e)
    | (s0, Ok _) =>
        if capped a s0 then
          if auto_reset s0 then
            match _reset_state w (call_path w a) (fd_mtime fd) a s0 with
            | (s2, Ok _) => emit a s2
            | (s2, Err e) => (s2, Err e)
            end
          else (s0, Ok (held_output s0))
        else emit a s0
    end.
Proof.
  intros Hp Hf. unfold next_prompt, isfile, getmtime, open_file, call_path in *.
  rewrite Hp, Hf. simpl. unfold bind at 1, lift. unfold bind at 1, get.
  unfold bind at 1.
  destruct (_should_reset s _ _ a).
  - destruct (_reset_state _ _ _ _ s) as [s0 [[]|e]]; [|reflexivity].
    unfold bind at 1, capped.
    destruct ((0 <=? a_max_steps a) && _); [|reflexivity].
    destruct (auto_reset s0); [|reflexivity].
    unfold bind at 1. destruct (_reset_state _ _ _ _ s0) as [s2 [[]|e]]; reflexivity.
  - unfold ret at 1. unfold bind at 1, capped.
    destruct ((0 <=? a_max_steps a) && _); [|reflexivity].
    destruct (auto_reset s); [|reflexivity].
    unfold bind at 1. destruct (_reset_state _ _ _ _ s) as [s2 [[]|e]]; reflexivity.
Qed.

(** A call that fails before looking at the file returns no output. *)
Lemma next_prompt_ok_file (w : World) (a : Args) (s s1 : State) out :
  next_prompt w a s = (s1, Ok out) ->
  str_truthy (a_file_path a) = true
  /\ exists fd, w_files w !! call_path w a = Some fd.
Proof.
  unfold next_prompt, isfile, call_path.
  destruct (str_truthy (a_file_path a)); [|discriminate]. simpl.
  destruct (w_files w !! _) as [fd|]; [|discriminate].
  intros _. split; [reflexivity | now exists fd].
Qed.

Lemma should_reset_fresh path m (a : Args) loaded :
  _should_reset (fresh_state path m a loaded) path m a = a_reset a.
Proof.
  unfold _should_reset, fresh_state, mtime_differs. simpl.
  rewrite !String.eqb_refl, !Z.eqb_refl, !Bool.eqb_reflx. simpl.
  now destruct (a_reset a).
Qed.

Lemma should_reset_emitted (s : State) path m (a : Args) p idx :
  _should_reset (emitted_state s p idx) path m a = _should_reset s path m a.
Proof. reflexivity. Qed.

Lemma should_reset_false (s : State) path m (a : Args) :
  _should_reset s path m a = false ->
  a_reset a = false /\ auto_reset s = a_auto_reset a /\ max_steps s = a_max_steps a.
Proof.
  unfold _should_reset. destruct (a_reset a); [discriminate|].
  destruct (initialized s); [|discriminate]. simpl.
  intros Hor. repeat (apply orb_false_elim in Hor as [Hor ?]).
  repeat match goal with H : negb _ = false |- _ => apply negb_false_iff in H end.
  split; [reflexivity|]. split; [now apply Bool.eqb_prop | now apply Z.eqb_eq].
Qed.

(** Once a call has returned [step_index = max_steps] and [auto_reset] is
    off, the next call returns the same triple again, with [done], and
    leaves the state as it is. *)
Lemma cap_reached_fixpoint (w : World) (a : Args) (s s1 : State) p idx k t d :
  0 <= a_max_steps a -> a_auto_reset a = false ->
  next_prompt w a s = (s1, Ok (p, idx, k, t, d)) ->
  k = a_max_steps a ->
  next_prompt w a s1 = (s1, Ok (p, idx, k, t, true)).
Proof.
  intros Hmax Hauto Hcall Hk.
  destruct (next_prompt_ok_file _ _ _ _ _ Hcall) as [Hp [fd Hf]].
  rewrite (next_prompt_eq _ _ _ _ Hp Hf) in Hcall.
  rewrite (next_prompt_eq _ _ _ _ Hp Hf).
  set (path := call_path w a) in *. set (m := fd_mtime fd) in *.
  destruct (_should_reset s path m a) eqn:Hsr.
  - (* the first call reloaded *)
    rewrite reset_state_eq in Hcall.
    destruct (_load_lines w path (a_csv_column a)) as [[|l ls]|e] eqn:Hload;
      [discriminate| |discriminate].
    set (r := fresh_state path m a (l :: ls)) in *.
    assert (Hra : auto_reset r = false) by exact Hauto.
    pose proof (should_reset_fresh path m a (l :: ls)) as Hsrf. fold r in Hsrf.
    rewrite Hra in Hcall.
    destruct (capped a r) eqn:Hcap.
    + injection Hcall as <- <- <- <- <- <-.
      rewrite Hsrf.
      destruct (a_reset a).
      * rewrite reset_state_eq, Hload. fold r. now rewrite Hcap, Hra.
      * fold r. now rewrite Hcap, Hra.
    + pose proof Hcall as Hemit.
      apply emit_inv in Hcall as (_ & Hidx & Hk1 & Ht & Hd & Hs1).
      assert (Hkmax : a_max_steps a = 1) by (rewrite <- Hk, Hk1; reflexivity).
      assert (Hd' : d = true) by (rewrite Hd, Hkmax; reflexivity).
      subst s1. rewrite should_reset_emitted, Hsrf.
      destruct (a_reset a).
      * rewrite reset_state_eq, Hload. fold r. rewrite Hcap.
        rewrite Hemit. now rewrite Hd'.
      * unfold capped. simpl. rewrite Hkmax. simpl. rewrite Hauto.
        unfold held_output. simpl. rewrite Ht, Hk1. reflexivity.
  - (* the first call found the state current *)
    destruct (should_reset_false _ _ _ _ Hsr) as (Hreset & Has & _).
    destruct (capped a s) eqn:Hcap.
    + rewrite Has, Hauto in Hcall. injection Hcall as <- <- <- <- <- <-.
      now rewrite Hsr, Hcap, Has, Hauto.
    + apply emit_inv in Hcall as (_ & Hidx & Hk1 & Ht & Hd & Hs1).
      subst s1. rewrite should_reset_emitted, Hsr.
      unfold capped. simpl.
      replace ((0 <=? a_max_steps a) && (a_max_steps a <=? emitted_steps s + 1))
        with true by (symmetry; apply andb_true_iff; split; lia).
      rewrite Has, Hauto. unfold held_output. simpl. now rewrite Ht, Hk1.
Qed.

(** C2: with [max_steps = N >= 0] and [auto_reset] off, once a call has
    returned [step_index = N] (the N-th emission), every later call with
    the same inputs over the same files returns [done = true] with the
    same [(prompt, line_index, step_index)] and [total_lines], and the
    state no longer moves. *)
Theorem exhausted_output_is_frozen (w : World) (a : Args) (s s1 : State)
    p idx k t d (n : nat) :
  0 <= a_max_steps a -> a_auto_reset a = false ->
  next_prompt w a s = (s1, Ok (p, idx, k, t, d)) ->
  k = a_max_steps a ->
  calls w a n s1 = (s1, repeat (Ok (p, idx, k, t, true)) n).
Proof.
  intros Hmax Hauto Hcall Hk.
  pose proof (cap_reached_fixpoint _ _ _ _ _ _ _ _ _ Hmax Hauto Hcall Hk) as Hfix.
  induction n as [|n IH]; [reflexivity|].
  simpl. rewrite Hfix, IH. reflexivity.
Qed.

Example frozen_after_two :
  snd (calls sample_world (sample_args 2 false) 5 __init__)
  = [Ok (PyStr "red", 1, 1, 4, false); Ok (PyStr "green", 2, 2, 4, true);
     Ok (PyStr "green", 2, 2, 4, true); Ok (PyStr "green", 2, 2, 4, true);
     Ok (PyStr "green", 2, 2, 4, true)].
Proof. reflexivity. Qed.

Lemma exhausted_output_is_frozen_witness :
  calls sample_world (sample_args 2 false) 3 (sample_state false)
  = (sample_state false, repeat (Ok (PyStr "green", 2, 2, 4, true)) 3).
Proof.
  apply (exhausted_output_is_frozen sample_world (sample_args 2 false)
           (fst (calls sample_world (sample_args 2 false) 1 __init__))
           (sample_state false) (PyStr "green") 2 2 4 true 3);
    [simpl; lia | reflexivity | reflexivity | reflexivity].
Defined.

Lemma getitem_in_range {A} (l : list A) (j : Z) (x : A) :
  0 <= j < Z.of_nat (length l) -> l !! Z.to_nat j = Some x -> getitem l j = Ok x.
Proof.
  intros Hj Hx. unfold getitem.
  destruct (Z.ltb_spec j 0); [lia|].
  destruct (Z.leb_spec 0 j); [|lia].
  destruct (Z.ltb_spec j (Z.of_nat (length l))); [|lia].
  simpl. now rewrite Hx.
Qed.

Lemma should_reset_init path m (a : Args) : _should_reset __init__ path m a = true.
Proof. unfold _should_reset. simpl. now rewrite orb_true_r. Qed.

(** A call that reports [done] leaves the cap reached. *)
Lemma done_means_capped (w : World) (a : Args) (s s1 : State) p idx k t :
  next_prompt w a s = (s1, Ok (p, idx, k, t, true)) ->
  0 <= a_max_steps a <= emitted_steps s1.
Proof.
  intros Hcall.
  destruct (next_prompt_ok_file _ _ _ _ _ Hcall) as [Hp [fd Hf]].
  rewrite (next_prompt_eq _ _ _ _ Hp Hf) in Hcall.
  assert (Hemit : forall s0, emit a s0 = (s1, Ok (p, idx, k, t, true)) ->
                             0 <= a_max_steps a <= emitted_steps s1).
  { intros s0 He. apply emit_inv in He as (_ & _ & _ & _ & Hd & ->).
    symmetry in Hd. apply andb_true_iff in Hd as [H1 H2]. simpl. lia. }
  assert (Hbody : forall s0,
    (if capped a s0 then
       if auto_reset s0 then
         match _reset_state w (call_path w a) (fd_mtime fd) a s0 with
         | (s2, Ok _) => emit a s2
         | (s2, Err e) => (s2, Err e)
         end
       else (s0, Ok (held_output s0))
     else emit a s0) = (s1, Ok (p, idx, k, t, true)) ->
    0 <= a_max_steps a <= emitted_steps s1).
  { intros s0. destruct (capped a s0) eqn:Hcap; [|apply (Hemit s0)].
    destruct (auto_reset s0).
    - destruct (_reset_state _ _ _ _ s0) as [s2 [[]|e]]; [apply (Hemit s2)|discriminate].
    - intros [= <- _ _ _ _]. apply andb_true_iff in Hcap as [H1 H2]. lia. }
  destruct (_should_reset s _ _ a).
  - destruct (_reset_state _ _ _ _ s) as [s0 [[]|e]]; [|discriminate].
    exact (Hbody s0 Hcall).
  - exact (Hbody s Hcall).
Qed.

(** With [auto_reset] on, a call that finds the cap reached reloads and
    emits from the reloaded state. *)
Lemma auto_reset_reloads (w : World) (a : Args) (s : State) fd l ls :
  a_auto_reset a = true ->
  capped a s = true \/ _should_reset s (call_path w a) (fd_mtime fd) a = true ->
  str_truthy (a_file_path a) = true ->
  w_files w !! call_path w a = Some fd ->
  _load_lines w (call_path w a) (a_csv_column a) = Ok (l :: ls) ->
  next_prompt w a s = emit a (fresh_state (call_path w a) (fd_mtime fd) a (l :: ls)).
Proof.
  intros Hauto Hcase Hp Hf Hload.
  rewrite (next_prompt_eq _ _ _ _ Hp Hf), !reset_state_eq, Hload.
  set (r := fresh_state _ _ _ _).
  assert (Hr : (if capped a r then
                  if auto_reset r then
                    match _reset_state w (call_path w a) (fd_mtime fd) a r with
                    | (s2, Ok _) => emit a s2
                    | (s2, Err e) => (s2, Err e)
                    end
                  else (r, Ok (held_output r))
                else emit a r) = emit a r).
  { destruct (capped a r); [|reflexivity].
    replace (auto_reset r) with true by (symmetry; exact Hauto).
    now rewrite reset_state_eq, Hload. }
  destruct (_should_reset s _ _ a) eqn:Hsr; [exact Hr|].
  destruct Hcase as [Hcap|]; [|discriminate].
  destruct (should_reset_false _ _ _ _ Hsr) as (_ & Has & _).
  now rewrite Hcap, Has, Hauto, reset_state_eq, Hload.
Qed.

(** C3: with [auto_reset] on and [max_steps >= 0], the call that finds the
    cap reached reloads the state exactly as the first call of a fresh
    instance does ([next_index = start_value], [emitted_steps = 0]) and
    then emits: it returns [step_index = 1], the line at the wrapped
    [start_value], and leaves [emitted_steps = 1]. *)
Theorem auto_reset_restarts (w : World) (a : Args) (s : State) fd l ls txt :
  0 <= a_max_steps a -> a_auto_reset a = true ->
  a_max_steps a <= emitted_steps s ->
  str_truthy (a_file_path a) = true ->
  w_files w !! call_path w a = Some fd ->
  _load_lines w (call_path w a) (a_csv_column a) = Ok (l :: ls) ->
  let r := fresh_state (call_path w a) (fd_mtime fd) a (l :: ls) in
  let total := Z.of_nat (length (l :: ls)) in
  let idx := (a_start_value a - 1) mod total + 1 in
  (l :: ls) !! Z.to_nat (idx - 1) = Some (PyStr txt) ->
  let prompt := PyStr (if a_strip_whitespace a then strip txt else txt) in
  next_index r = a_start_value a /\ emitted_steps r = 0
  /\ _reset_state w (call_path w a) (fd_mtime fd) a s = (r, Ok tt)
  /\ next_prompt w a s = next_prompt w a __init__
  /\ next_prompt w a s
     = (emitted_state r prompt idx, Ok (prompt, idx, 1, total, a_max_steps a <=? 1))
  /\ emitted_steps (emitted_state r prompt idx) = 1.
Proof.
  intros Hmax Hauto Hcapped Hp Hf Hload r total idx Hline prompt.
  assert (Hcap : capped a s = true)
    by (unfold capped; apply andb_true_iff; split; lia).
  split; [reflexivity|]. split; [reflexivity|].
  split; [now rewrite reset_state_eq, Hload|].
  rewrite (auto_reset_reloads w a s fd l ls Hauto (or_introl Hcap) Hp Hf Hload).
  rewrite (auto_reset_reloads w a __init__ fd l ls Hauto
             (or_intror (should_reset_init _ _ _)) Hp Hf Hload).
  fold r. split; [reflexivity|]. split; [|reflexivity].
  assert (Htot : 0 < total) by (unfold total; simpl length; lia).
  pose proof (wrap_range (a_start_value a) total Htot) as Hrange. fold idx in Hrange.
  unfold emit, bind, get, lift, put, ret.
  change (total_lines r) with total. change (next_index r) with (a_start_value a).
  rewrite normalize_index_ok by lia. fold idx.
  change (lines r) with (l :: ls).
  rewrite (getitem_in_range (l :: ls) (idx - 1) (PyStr txt)) by (fold total; lia || exact Hline).
  change (emitted_steps r) with 0. change (0 + 1) with 1.
  replace (0 <=? a_max_steps a) with true by (symmetry; apply Z.leb_le; lia).
  unfold prompt. destruct (a_strip_whitespace a); reflexivity.
Qed.

Example auto_reset_cycle :
  snd (calls sample_world (sample_args 2 true) 5 __init__)
  = [Ok (PyStr "red", 1, 1, 4, false); Ok (PyStr "green", 2, 2, 4, true);
     Ok (PyStr "red", 1, 1, 4, false); Ok (PyStr "green", 2, 2, 4, true);
     Ok (PyStr "red", 1, 1, 4, false)].
Proof. reflexivity. Qed.

Lemma auto_reset_restarts_witness :
  next_prompt sample_world (sample_args 2 true) (sample_state true)
  = next_prompt sample_world (sample_args 2 true) __init__
  /\ snd (next_prompt sample_world (sample_args 2 true) (sample_state true))
     = Ok (PyStr "red", 1, 1, 4, false).
Proof.
  pose proof (auto_reset_restarts sample_world (sample_args 2 true) (sample_state true)
                colours_txt (PyStr " red ") [PyStr "green"; PyStr ""; PyStr "blue"]
                " red "
                ltac:(simpl; lia) eq_refl ltac:(vm_compute; discriminate)
                eq_refl eq_refl eq_refl eq_refl) as (_ & _ & _ & Hsame & Hcall & _).
  split; [exact Hsame|]. rewrite Hcall. reflexivity.
Defined.

(** With [max_steps = 0] and [auto_reset] off, a call that reloads, or
    that finds the reloaded state, holds the placeholder. *)
Lemma zero_cap_call (w : World) (a : Args) (s : State) fd l ls :
  a_max_steps a = 0 -> a_auto_reset a = false ->
  str_truthy (a_file_path a) = true ->
  w_files w !! call_path w a = Some fd ->
  _load_lines w (call_path w a) (a_csv_column a) = Ok (l :: ls) ->
  let r := fresh_state (call_path w a) (fd_mtime fd) a (l :: ls) in
  _should_reset s (call_path w a) (fd_mtime fd) a = true \/ s = r ->
  next_prompt w a s = (r, Ok (PyStr "", 0, 0, Z.of_nat (length (l :: ls)), true)).
Proof.
  intros Hmax Hauto Hp Hf Hload r Hs.
  assert (Hbody : (if capped a r then
                     if auto_reset r then
                       match _reset_state w (call_path w a) (fd_mtime fd) a r with
                       | (s2, Ok _) => emit a s2
                       | (s2, Err e) => (s2, Err e)
                       end
                     else (r, Ok (held_output r))
                   else emit a r)
                  = (r, Ok (PyStr "", 0, 0, Z.of_nat (length (l :: ls)), true))).
  { unfold capped. rewrite Hmax. change (emitted_steps r) with 0. simpl (_ && _).
    replace (auto_reset r) with false by (symmetry; exact Hauto). reflexivity. }
  rewrite (next_prompt_eq _ _ _ _ Hp Hf).
  destruct Hs as [Hsr | ->].
  - rewrite Hsr, reset_state_eq, Hload. exact Hbody.
  - pose proof (should_reset_fresh (call_path w a) (fd_mtime fd) a (l :: ls)) as Hsrf.
    fold r in Hsrf. rewrite Hsrf.
    destruct (a_reset a); [rewrite reset_state_eq, Hload|]; exact Hbody.
Qed.

(** C10: with [max_steps = 0] and [auto_reset] off on a file with at least
    one line, every call, the first one of a fresh instance included,
    returns the placeholder [("", 0, 0)] with [done = true] and
    [total_lines] the number of lines of the file; no line is emitted
    ([emitted_steps] stays 0), and the [line_index] 0 is outside
    [1..total_lines]. *)
Theorem zero_cap_returns_placeholder (w : World) (a : Args) fd l ls (n : nat) :
  a_max_steps a = 0 -> a_auto_reset a = false ->
  str_truthy (a_file_path a) = true ->
  w_files w !! call_path w a = Some fd ->
  _load_lines w (call_path w a) (a_csv_column a) = Ok (l :: ls) ->
  let total := Z.of_nat (length (l :: ls)) in
  snd (calls w a n __init__) = repeat (Ok (PyStr "", 0, 0, total, true)) n
  /\ emitted_steps (fst (calls w a n __init__)) = 0
  /\ ~ (1 <= 0 <= total).
Proof.
  intros Hmax Hauto Hp Hf Hload total.
  set (r := fresh_state (call_path w a) (fd_mtime fd) a (l :: ls)).
  assert (Hr : forall m, calls w a m r = (r, repeat (Ok (PyStr "", 0, 0, total, true)) m)).
  { induction m as [|m IH]; [reflexivity|]. simpl.
    rewrite (zero_cap_call w a r fd l ls Hmax Hauto Hp Hf Hload (or_intror eq_refl)).
    fold r. rewrite IH. reflexivity. }
  split; [|split; [|lia]].
  - destruct n as [|n]; [reflexivity|]. simpl.
    rewrite (zero_cap_call w a __init__ fd l ls Hmax Hauto Hp Hf Hload
               (or_introl (should_reset_init _ _ _))).
    fold r. rewrite Hr. reflexivity.
  - destruct n as [|n]; [reflexivity|]. simpl.
    rewrite (zero_cap_call w a __init__ fd l ls Hmax Hauto Hp Hf Hload
               (or_introl (should_reset_init _ _ _))).
    fold r. rewrite Hr. reflexivity.
Qed.

Lemma zero_cap_returns_placeholder_witness :
  snd (calls sample_world (sample_args 0 false) 3 __init__)
  = repeat (Ok (PyStr "", 0, 0, 4, true)) 3.
Proof.
  exact (proj1 (zero_cap_returns_placeholder sample_world (sample_args 0 false)
                  colours_txt (PyStr " red ") [PyStr "green"; PyStr ""; PyStr "blue"] 3
                  eq_refl eq_refl eq_refl eq_refl eq_refl)).
Defined.

End SequencerFacts.

(** * The composer's file cache *)
Section CacheFacts.
Import WildcardPromptAssembler Composer.

Lemma open_eq (w : World) (path : string) (self : Assembler) :
  open_ w path self
  = match w_files w !! path with
    | Some fd => (log_open path self, Ok fd)
    | None => (self, Err (FileNotFoundError "No such file or directory"))
    end.
Proof.
  unfold open_, bind, lift, modify, ret, open_file.
  now destruct (w_files w !! path).
Qed.

Lemma open_then_shape {A} (w : World) path (k : FileData -> M Assembler A) :
  (forall fd, exists r, forall self, k fd self = (self, r)) ->
  exists r : result A,
    (forall self, bind (open_ w path) k self
                  = ((if isfile w path then log_open path self else self), r))
    /\ (forall x, r = Ok x -> isfile w path = true).
Proof.
  intros Hk. unfold isfile. destruct (w_files w !! path) as [fd|] eqn:Hf.
  - destruct (Hk fd) as [r Hr]. exists r. split.
    + intros self. unfold bind. rewrite open_eq, Hf. apply Hr.
    + reflexivity.
  - exists (Err (FileNotFoundError "No such file or directory")). split.
    + intros self. unfold bind. now rewrite open_eq, Hf.
    + intros x [=].
Qed.

(** Whether a reader opens the file depends on the path and the world
    only; what it returns does not depend on the instance. *)
Lemma read_by_extension_shape (w : World) path col :
  exists b : bool, forall st ig, exists r : result (list Record_),
    (forall self, read_by_extension w path col st ig self
                  = ((if b then log_open path self else self), r))
    /\ (forall recs, r = Ok recs -> b = true).
Proof.
  unfold read_by_extension.
  assert (Htext : exists b : bool, forall st ig, exists r : result (list Record_),
    (forall self, _read_text_file w path st ig self
                  = ((if b then log_open path self else self), r))
    /\ (forall recs, r = Ok recs -> b = true)).
  { exists (isfile w path). intros st ig.
    apply open_then_shape. intros fd. eexists. intros self. reflexivity. }
  destruct (_ || _); [exact Htext|].
  destruct (String.eqb _ ".md"); [exact Htext|].
  destruct (String.eqb _ ".csv").
  { exists (isfile w path). intros st ig. apply open_then_shape. intros fd.
    destruct (str_truthy (or_empty col)).
    - destruct (dict_fieldnames (fd_csv fd)) as [fields|].
      + destruct (negb (str_in (or_empty col) fields));
          eexists; intros self; reflexivity.
      + eexists; intros self; reflexivity.
    - eexists; intros self; reflexivity. }
  destruct (String.eqb _ ".docx").
  { unfold _read_docx. destruct (negb (w_docx_installed w)).
    - exists false. intros st ig. eexists.
      split; [intros self; reflexivity | intros recs [=]].
    - exists (isfile w path). intros st ig.
      apply open_then_shape. intros fd. eexists. intros self. reflexivity. }
  exists false. intros st ig. eexists.
  split; [intros self; reflexivity | intros recs [=]].
Qed.

(** [_load_file_lines] on an existing file: a hit returns the stored
    records and touches nothing; a miss runs the reader and, when it
    succeeds, overwrites the entry under the key. *)
Lemma load_file_lines_eq (w : World) path col st ig (self : Assembler) fd :
  w_files w !! path = Some fd ->
  _load_file_lines w path col st ig self
  = match cache_hit self (cache_key path col) (fd_mtime fd) st ig with
    | Some recs => (self, Ok recs)
    | None =>
        match read_by_extension w path col st ig self with
        | (s', Ok recs) =>
            (set_cache (insert (cache_key path col)
                          {| mtime := fd_mtime fd; records := recs;
                             strip_flag := st; ignore_blank_flag := ig |}) s',
             Ok recs)
        | (s', Err e) => (s', Err e)
        end
    end.
Proof.
  intros Hf. unfold _load_file_lines, getmtime, open_file. rewrite Hf. simpl.
  unfold bind at 1, lift. unfold bind at 1, get.
  destruct (cache_hit _ _ _ _ _); [reflexivity|].
  unfold bind at 1. destruct (read_by_extension _ _ _ _ _ self) as [s' [recs|e]];
    reflexivity.
Qed.

Lemma load_file_lines_missing (w : World) path col st ig (self : Assembler) :
  w_files w !! path = None ->
  _load_file_lines w path col st ig self
  = (self, Err (FileNotFoundError "No such file or directory")).
Proof.
  intros Hf. unfold _load_file_lines, getmtime, open_file. now rewrite Hf.
Qed.

Lemma cache_valid_flags (e : CacheEntry) m st ig :
  cache_valid e m st ig = true ->
  mtime e = m /\ strip_flag e = st /\ ignore_blank_flag e = ig.
Proof.
  unfold cache_valid. intros H.
  apply andb_true_iff in H as [H Hig]. apply andb_true_iff in H as [Hm Hst].
  split; [now apply Z.eqb_eq|]. split; now apply Bool.eqb_prop.
Qed.

Lemma cache_hit_inv (self : Assembler) key m st ig recs :
  cache_hit self key m st ig = Some recs ->
  exists e, _cache self !! key = Some e /\ cache_valid e m st ig = true
            /\ records e = recs.
Proof.
  unfold cache_hit. destruct (_cache self !! key) as [e|]; [|discriminate].
  destruct (cache_valid e m st ig) eqn:Hv; [|discriminate].
  intros [= <-]. now exists e.
Qed.

Lemma cache_hit_entry (self : Assembler) key m recs st ig :
  _cache self !! key
  = Some {| mtime := m; records := recs; strip_flag := st; ignore_blank_flag := ig |} ->
  cache_hit self key m st ig = Some recs.
Proof.
  intros He. unfold cache_hit, cache_valid. rewrite He. simpl.
  now rewrite Z.eqb_refl, !Bool.eqb_reflx.
Qed.

Lemma cache_hit_other_flags (self : Assembler) key m (e : CacheEntry) st ig :
  _cache self !! key = Some e ->
  (strip_flag e, ignore_blank_flag e) <> (st, ig) ->
  cache_hit self key m st ig = None.
Proof.
  intros He Hne. unfold cache_hit. rewrite He.
  destruct (cache_valid e m st ig) eqn:Hv; [|reflexivity].
  apply cache_valid_flags in Hv as (_ & <- & <-). now destruct Hne.
Qed.

(** After a successful load the entry under the key holds the request's
    flags, the file's modification time and the records returned. *)
Lemma load_ok_entry (w : World) path col st ig (self s1 : Assembler) recs :
  _load_file_lines w path col st ig self = (s1, Ok recs) ->
  exists fd e, w_files w !! path = Some fd
    /\ _cache s1 !! cache_key path col = Some e
    /\ mtime e = fd_mtime fd /\ strip_flag e = st /\ ignore_blank_flag e = ig
    /\ records e = recs.
Proof.
  intros Hload. destruct (w_files w !! path) as [fd|] eqn:Hf;
    [|rewrite load_file_lines_missing in Hload by assumption; discriminate].
  rewrite (load_file_lines_eq _ _ _ _ _ _ _ Hf) in Hload. exists fd.
  destruct (cache_hit _ _ _ _ _) as [hit|] eqn:Hhit.
  - injection Hload as <- <-.
    apply cache_hit_inv in Hhit as (e & He & Hv & Hr).
    apply cache_valid_flags in Hv as (? & ? & ?). now exists e.
  - destruct (read_by_extension _ _ _ _ _ self) as [s' [r|e]]; [|discriminate].
    injection Hload as <- <-. eexists. split; [reflexivity|].
    split; [apply lookup_insert_eq|]. now simpl.
Qed.

(** A request whose flags differ from the stored ones runs the reader
    again, on an existing file. *)
Lemma load_other_flags (w : World) path col st ig (self : Assembler) fd e :
  w_files w !! path = Some fd ->
  _cache self !! cache_key path col = Some e ->
  (strip_flag e, ignore_blank_flag e) <> (st, ig) ->
  _load_file_lines w path col st ig self
  = match read_by_extension w path col st ig self with
    | (s', Ok recs) =>
        (set_cache (insert (cache_key path col)
                      {| mtime := fd_mtime fd; records := recs;
                         strip_flag := st; ignore_blank_flag := ig |}) s',
         Ok recs)
    | (s', Err err) => (s', Err err)
    end.
Proof.
  intros Hf He Hne. rewrite (load_file_lines_eq _ _ _ _ _ _ _ Hf).
  now rewrite (cache_hit_other_flags _ _ _ _ _ _ He Hne).
Qed.

(** C5, as the code has it: the cache is keyed by path and column only,
    and the formatting flags are stored in the entry.  A request whose
    flags differ from the stored ones reads the file again and overwrites
    the entry in place.  So after a load with flags A and one with flags
    B <> A, the cache still has one entry for the source, holding B; a
    third request with flags A reads the file once more, and only the
    request that repeats B is a hit, answered from the store without
    reading. *)
Theorem cache_entry_follows_last_flags (w : World) path col stA igA stB igB
    (self s1 s2 : Assembler) recsA recsB :
  (stA, igA) <> (stB, igB) ->
  _load_file_lines w path col stA igA self = (s1, Ok recsA) ->
  _load_file_lines w path col stB igB s1 = (s2, Ok recsB) ->
  exists fd, w_files w !! path = Some fd
  /\ _cache s2
     = <[cache_key path col :=
           {| mtime := fd_mtime fd; records := recsB;
              strip_flag := stB; ignore_blank_flag := igB |}]> (_cache s1)
  /\ dom (_cache s2) = dom (_cache s1)
  /\ opened s2 = path :: opened s1
  /\ opened (fst (_load_file_lines w path col stA igA s2)) = path :: opened s2
  /\ _load_file_lines w path col stB igB s2 = (s2, Ok recsB).
Proof.
  intros Hne HA HB.
  destruct (load_ok_entry _ _ _ _ _ _ _ _ HA) as (fd & eA & Hf & HeA & _ & HstA & HigA & _).
  exists fd. split; [exact Hf|].
  destruct (read_by_extension_shape w path col) as [b Hshape].
  assert (HneB : (strip_flag eA, ignore_blank_flag eA) <> (stB, igB))
    by (rewrite HstA, HigA; exact Hne).
  rewrite (load_other_flags _ _ _ _ _ _ _ _ Hf HeA HneB) in HB.
  destruct (Hshape stB igB) as (rB & HrB & HbB). rewrite HrB in HB.
  destruct rB as [recs|err]; [|discriminate].
  pose proof (HbB recs eq_refl) as Hb. subst b. injection HB as <- <-.
  set (eB := {| mtime := fd_mtime fd; records := recs;
                strip_flag := stB; ignore_blank_flag := igB |}).
  set (s2 := set_cache (insert (cache_key path col) eB) (log_open path s1)).
  assert (HeB : _cache s2 !! cache_key path col = Some eB) by apply lookup_insert_eq.
  split; [reflexivity|].
  split. { simpl. apply dom_insert_lookup_L. now exists eA. }
  split; [reflexivity|].
  split.
  - assert (HneA : (strip_flag eB, ignore_blank_flag eB) <> (stA, igA))
      by (simpl; congruence).
    rewrite (load_other_flags _ _ _ _ _ _ _ _ Hf HeB HneA).
    destruct (Hshape stA igA) as (rA & HrA & _). rewrite HrA.
    now destruct rA.
  - rewrite (load_file_lines_eq _ _ _ _ _ _ _ Hf).
    now rewrite (cache_hit_entry _ _ _ _ _ _ HeB).
Qed.

(** C5, the claim as written fails: in the sample world, after a load
    with (strip, ignore_blank) = (true, true) and one with (false, false),
    the cache holds a single entry, and the third request, with
    (true, true) again, opens the file once more. *)
Lemma third_request_reads_again :
  size (_cache loaded_twice) = 1%nat
  /\ opened loaded_twice = [colours_path; colours_path]
  /\ opened loaded_thrice = [colours_path; colours_path; colours_path]
  /\ opened loaded_thrice <> opened loaded_twice.
Proof.
  split; [reflexivity|]. split; [reflexivity|]. split; [reflexivity|].
  vm_compute. discriminate.
Qed.

Lemma cache_entry_follows_last_flags_witness :
  opened loaded_thrice = colours_path :: opened loaded_twice
  /\ _load_file_lines sample_world colours_path None false false loaded_twice
     = (loaded_twice, Ok colours_raw).
Proof.
  destruct (cache_entry_follows_last_flags sample_world colours_path None
              true true false false __init__ loaded_once loaded_twice
              colours_stripped colours_raw)
    as (fd & _ & _ & _ & _ & Hthird & Hhit);
    [discriminate | reflexivity | reflexivity |].
  split; [exact Hthird | exact Hhit].
Defined.

End CacheFacts.

(** * Source indices of the composer's records *)
Section RecordFacts.
Import WildcardPromptAssembler Composer.

Lemma indexed_from_weaken k k' recs :
  k' <= k -> indexed_from k true recs -> indexed_from k' true recs.
Proof.
  destruct recs as [|r rest]; [trivial|]. simpl.
  intros Hk (Hle & _ & Hrest). split; [lia|]. split; [discriminate | exact Hrest].
Qed.

(** The loop of a reader numbers its records from the enumeration, and
    no number goes past the last item. *)
Lemma collect_indexed st ig items : forall k recs,
  collect st ig (enumerate_from k items) = Ok recs ->
  indexed_from k ig recs
  /\ Forall (fun r => k <= line_index r < k + Z.of_nat (length items)) recs.
Proof.
  induction items as [|raw items IH]; intros k recs Hc.
  - injection Hc as <-. split; [exact I | constructor].
  - simpl in Hc. destruct (if st then pyval_strip raw else Ok raw) as [t|]; [|discriminate].
    simpl in Hc.
    assert (Hwide : forall rs, Forall (fun r => k + 1 <= line_index r
                                   < k + 1 + Z.of_nat (length items)) rs ->
              Forall (fun r => k <= line_index r
                                   < k + Z.of_nat (length (raw :: items))) rs).
    { intros rs Hrs. eapply Forall_impl; [exact Hrs|].
      intros r. cbv beta. simpl length. lia. }
    destruct (ig && negb (pyval_truthy t)) eqn:Hskip.
    + apply IH in Hc as [Hi Hb]. apply andb_true_iff in Hskip as [-> _].
      split; [apply (indexed_from_weaken (k + 1)); [lia | exact Hi] | now apply Hwide].
    + destruct (collect st ig (enumerate_from (k + 1) items)) as [rest|] eqn:Hrest;
        [|discriminate].
      injection Hc as <-. apply IH in Hrest as [Hi Hb].
      split.
      * simpl. split; [lia|]. split; [reflexivity | exact Hi].
      * constructor; [simpl; lia | now apply Hwide].
Qed.

Lemma indexed_from_lookup ig recs : forall k (i : nat) r,
  indexed_from k ig recs -> recs !! i = Some r ->
  k + Z.of_nat i <= line_index r
  /\ (ig = false -> line_index r = k + Z.of_nat i).
Proof.
  induction recs as [|r0 rest IH]; intros k i r Hi Hl; [discriminate|].
  destruct Hi as (Hle & Hex & Hrest). destruct i as [|i].
  - injection Hl as <-. split; [lia|]. intros Hig. rewrite (Hex Hig). lia.
  - destruct (IH _ _ _ Hrest Hl) as [Hlow Heq]. split; [lia|].
    intros Hig. rewrite (Heq Hig), (Hex Hig). lia.
Qed.

Lemma indexed_from_increasing ig recs : forall k (i j : nat) ri rj,
  indexed_from k ig recs -> (i < j)%nat ->
  recs !! i = Some ri -> recs !! j = Some rj -> line_index ri < line_index rj.
Proof.
  induction recs as [|r0 rest IH]; intros k i j ri rj Hi Hij Hli Hlj; [discriminate|].
  destruct Hi as (Hle & Hex & Hrest). destruct j as [|j]; [lia|].
  destruct i as [|i].
  - injection Hli as <-.
    destruct (indexed_from_lookup _ _ _ _ _ Hrest Hlj) as [Hlow _]. lia.
  - apply (IH _ i j ri rj Hrest); [lia | exact Hli | exact Hlj].
Qed.

(** Every reader is its loop over numbered items. *)
Lemma read_by_extension_collects (w : World) path col st ig (self s' : Assembler) recs :
  read_by_extension w path col st ig self = (s', Ok recs) ->
  exists items, collect st ig (enumerate_from 1 items) = Ok recs.
Proof.
  unfold read_by_extension.
  assert (Htext : _read_text_file w path st ig self = (s', Ok recs) ->
                  exists items, collect st ig (enumerate_from 1 items) = Ok recs).
  { unfold _read_text_file, bind. rewrite open_eq.
    destruct (w_files w !! path) as [fd|]; [|discriminate].
    unfold lift. intros [= _ Hc]. eauto. }
  destruct (_ || _); [exact Htext|].
  destruct (String.eqb _ ".md"); [exact Htext|].
  destruct (String.eqb _ ".csv").
  { unfold _read_csv, bind. rewrite open_eq.
    destruct (w_files w !! path) as [fd|]; [|discriminate].
    destruct (str_truthy (or_empty col)).
    - destruct (dict_fieldnames (fd_csv fd)) as [fields|]; [|discriminate].
      destruct (negb (str_in (or_empty col) fields)); [discriminate|].
      unfold lift. intros [= _ Hc]. eauto.
    - unfold lift. intros [= _ Hc]. eauto. }
  destruct (String.eqb _ ".docx"); [|discriminate].
  unfold _read_docx. destruct (negb (w_docx_installed w)); [discriminate|].
  unfold bind. rewrite open_eq.
  destruct (w_files w !! path) as [fd|]; [|discriminate].
  unfold lift. intros [= _ Hc]. eauto.
Qed.

Lemma load_file_lines_indexed (w : World) path col st ig (self self' : Assembler) recs :
  cache_indexed self ->
  _load_file_lines w path col st ig self = (self', Ok recs) ->
  cache_indexed self' /\ indexed_from 1 ig recs.
Proof.
  intros Hwf Hload. destruct (w_files w !! path) as [fd|] eqn:Hf;
    [|rewrite load_file_lines_missing in Hload by assumption; discriminate].
  rewrite (load_file_lines_eq _ _ _ _ _ _ _ Hf) in Hload.
  destruct (cache_hit _ _ _ _ _) as [hit|] eqn:Hhit.
  - injection Hload as <- <-. split; [exact Hwf|].
    apply cache_hit_inv in Hhit as (e & He & Hv & <-).
    apply cache_valid_flags in Hv as (_ & _ & <-). exact (Hwf _ _ He).
  - destruct (read_by_extension _ _ _ _ _ self) as [s1 [r|e]] eqn:Hread; [|discriminate].
    injection Hload as <- <-.
    destruct (read_by_extension_collects _ _ _ _ _ _ _ _ Hread) as [items Hc].
    apply collect_indexed in Hc as [Hi _].
    destruct (read_by_extension_shape w path col) as [b Hshape].
    destruct (Hshape st ig) as (r' & Hr' & _). rewrite Hr' in Hread.
    injection Hread as <- _.
    split; [|exact Hi].
    intros key e. simpl. destruct (decide (cache_key path col = key)) as [<-|Hne].
    + rewrite lookup_insert_eq. intros [= <-]. exact Hi.
    + rewrite lookup_insert_ne by exact Hne.
      destruct b; apply Hwf.
Qed.

Lemma collect_length st ig items : forall k recs,
  collect st ig (enumerate_from k items) = Ok recs ->
  (length recs <= length items)%nat.
Proof.
  induction items as [|raw items IH]; intros k recs Hc.
  - injection Hc as <-. reflexivity.
  - simpl in Hc. destruct (if st then pyval_strip raw else Ok raw) as [t|]; [|discriminate].
    simpl in Hc. destruct (ig && negb (pyval_truthy t)).
    + apply IH in Hc. simpl. lia.
    + destruct (collect st ig (enumerate_from (k + 1) items)) as [rest|] eqn:Hrest;
        [|discriminate].
      injection Hc as <-. apply IH in Hrest. simpl. lia.
Qed.

Lemma cache_indexed_init : cache_indexed __init__.
Proof. intros key e. simpl. now rewrite lookup_empty. Qed.

(** C6, the claim as written fails: in the sample file the third line is
    blank; with [ignore_blank] the load returns three records and the last
    one keeps the source index 4. *)
Lemma blank_line_shifts_source_index :
  snd (_load_file_lines sample_world colours_path None true true __init__)
  = Ok colours_stripped
  /\ colours_stripped !! 2%nat = Some {| line_index := 4; text := PyStr "blue" |}
  /\ ~ (1 <= 4 <= Z.of_nat (length colours_stripped)).
Proof.
  split; [reflexivity|]. split; [reflexivity|]. simpl. lia.
Qed.

End RecordFacts.

(** * The composer: reset, seeding, sequential selection *)
Section ComposerFacts.
Import WildcardPromptAssembler Composer.
Context {R : Type} `{PyRandom R}.

Lemma compose_loop_with_reset (w : World) (a : Args) b inserts files :
  forall idx rng parts segments self,
    compose_loop w (with_reset b a) inserts files idx rng parts segments self
    = compose_loop w a inserts files idx rng parts segments self.
Proof.
  induction files as [|f files IH]; intros idx rng parts segments self; [reflexivity|].
  simpl. destruct (_split_path_and_column f (a_csv_column a)) as [path column].
  unfold bind.
  destruct (_select_line_from_file w path column _ _ _ rng self)
    as [s1 [[[[t i] total] rng']|e]]; [apply IH | reflexivity].
Qed.

(** ** What a call does to the cache *)

Lemma load_cache_steps (w : World) path col st ig (self s1 : Assembler) r :
  _load_file_lines w path col st ig self = (s1, r) ->
  rtc cache_step (_cache self) (_cache s1).
Proof.
  intros Hload. destruct (w_files w !! path) as [fd|] eqn:Hf;
    [|rewrite load_file_lines_missing in Hload by assumption;
      injection Hload as <- _; constructor].
  rewrite (load_file_lines_eq _ _ _ _ _ _ _ Hf) in Hload.
  destruct (cache_hit _ _ _ _ _); [injection Hload as <- _; constructor|].
  destruct (read_by_extension _ _ _ _ _ self) as [s' [recs|err]] eqn:Hread.
  - destruct (read_by_extension_collects _ _ _ _ _ _ _ _ Hread) as [items Hc].
    apply collect_indexed in Hc as [Hi _].
    destruct (read_by_extension_shape w path col) as [b Hshape].
    destruct (Hshape st ig) as (r' & Hr' & _). rewrite Hr' in Hread.
    injection Hread as <- _. injection Hload as <- _.
    apply rtc_once.
    exists (cache_key path col),
           {| mtime := fd_mtime fd; records := recs;
              strip_flag := st; ignore_blank_flag := ig |}.
    split; [now destruct b | exact Hi].
  - destruct (read_by_extension_shape w path col) as [b Hshape].
    destruct (Hshape st ig) as (r' & Hr' & _). rewrite Hr' in Hread.
    injection Hread as <- _. injection Hload as <- _.
    destruct b; constructor.
Qed.

Lemma select_cache_steps (w : World) path col mode st ig (rng : R)
    (self s1 : Assembler) r :
  _select_line_from_file w path col mode st ig rng self = (s1, r) ->
  rtc cache_step (_cache self) (_cache s1).
Proof.
  unfold _select_line_from_file.
  destruct (negb (isfile w _)); [intros [= <- _]; constructor|].
  unfold bind at 1.
  destruct (_load_file_lines _ _ _ _ _ self) as [s0 [recs|err]] eqn:Hload;
    [|intros [= <- _]; exact (load_cache_steps _ _ _ _ _ _ _ _ Hload)].
  pose proof (load_cache_steps _ _ _ _ _ _ _ _ Hload) as Hsteps.
  destruct recs as [|r0 recs]; [intros [= <- _]; exact Hsteps|].
  unfold bind at 1.
  destruct (String.eqb mode "SEQUENTIAL").
  - unfold bind at 1. unfold bind at 1. unfold get, put, ret.
    unfold bind, lift. destruct (getitem _ _); intros [= <- _]; exact Hsteps.
  - unfold ret at 1. unfold bind, lift.
    destruct (getitem _ _); intros [= <- _]; exact Hsteps.
Qed.

Lemma compose_loop_cache_steps (w : World) (a : Args) inserts files :
  forall idx rng parts segments self s1 r,
    compose_loop w a inserts files idx rng parts segments self = (s1, r) ->
    rtc cache_step (_cache self) (_cache s1).
Proof.
  induction files as [|f files IH]; intros idx rng parts segments self s1 r.
  - intros [= <- _]. constructor.
  - simpl. destruct (_split_path_and_column f (a_csv_column a)) as [path column].
    unfold bind.
    destruct (_select_line_from_file w path column _ _ _ rng self)
      as [s0 [[[[t i] total] rng']|err]] eqn:Hsel.
    + intros Hrest. etransitivity;
        [exact (select_cache_steps _ _ _ _ _ _ _ _ _ _ Hsel) | exact (IH _ _ _ _ _ _ _ Hrest)].
    + intros [= <- _]. exact (select_cache_steps _ _ _ _ _ _ _ _ _ _ Hsel).
Qed.

Lemma gather_files_cache (w : World) mode manual manifest dir glob max
    (self s1 : Assembler) r :
  _gather_files w mode manual manifest dir glob max self = (s1, r) ->
  _cache s1 = _cache self.
Proof.
  unfold _gather_files.
  destruct (String.eqb mode "MANUAL"); [now intros [= <- _]|].
  destruct (String.eqb mode "CONFIG_FILE").
  { unfold _load_manifest. destruct (negb (str_truthy manifest)); [now intros [= <- _]|].
    destruct (negb (isfile w _)); [now intros [= <- _]|].
    unfold bind. rewrite open_eq.
    destruct (w_files w !! _); now intros [= <- _]. }
  destruct (String.eqb mode "DIRECTORY"); [|now intros [= <- _]].
  unfold _scan_directory. destruct (negb (str_truthy dir)); [now intros [= <- _]|].
  destruct (negb (w_isdir w _)); now intros [= <- _].
Qed.

(** Whatever a [compose] call does to the cache, it does by writing
    entries: none is removed, and the records written are numbered as the
    readers number them. *)
Lemma compose_cache_steps (w : World) (a : Args) (self : Assembler) :
  rtc cache_step (_cache self) (_cache (fst (compose w a self))).
Proof.
  unfold compose, bind.
  assert (Hreset : exists s0, (if a_reset a then _reset_state else ret tt) self
                              = (s0, Ok tt) /\ _cache s0 = _cache self).
  { destruct (a_reset a); eexists; split; reflexivity. }
  destruct Hreset as (s0 & -> & <-).
  destruct (_gather_files w _ _ _ _ _ _ s0) as [s1 [files|err]] eqn:Hfiles;
    pose proof (gather_files_cache _ _ _ _ _ _ _ _ _ _ Hfiles) as <-;
    [|constructor].
  destruct files as [|f files]; [constructor|].
  unfold _make_rng at 1. unfold bind, get, put.
  set (s2 := set_global_step _ s1).
  assert (Hrng : exists rng, (if 0 <=? a_random_seed a
                              then ret (Random (a_random_seed a + (_global_step s1 + 1) - 1))
                              else ret (Random (w_entropy w))) s2 = (s2, Ok rng)).
  { destruct (0 <=? a_random_seed a); eexists; reflexivity. }
  destruct Hrng as [rng ->].
  destruct (compose_loop w a _ (f :: files) 0 rng _ [] s2) as [s3 [[parts segs]|err]] eqn:Hloop;
    exact (compose_loop_cache_steps _ _ _ _ _ _ _ _ _ _ _ Hloop).
Qed.

Lemma cache_step_dom (c c' : gmap string CacheEntry) :
  rtc cache_step c c' -> dom c ⊆ dom c'.
Proof.
  induction 1 as [|c c1 c2 (key & e & -> & _) _ IH]; [reflexivity|].
  etransitivity; [|exact IH]. rewrite dom_insert. set_solver.
Qed.

(** C8: a [compose] call with [reset = true] first clears the position
    table and puts the call counter back to its initial value 0, and
    leaves the cache (and everything else) as it is; the call then goes
    on as a call without [reset] would from that state, so that no entry
    of the cache is lost in the call: the loads of the call may only
    write entries. *)
Theorem reset_clears_positions_only (w : World) (a : Args) (self : Assembler) :
  a_reset a = true ->
  _positions (fst (_reset_state self)) = ∅
  /\ _global_step (fst (_reset_state self)) = 0
  /\ _global_step (fst (_reset_state self)) = _global_step __init__
  /\ _cache (fst (_reset_state self)) = _cache self
  /\ opened (fst (_reset_state self)) = opened self
  /\ dom (_cache self) ⊆ dom (_cache (fst (compose w a self)))
  /\ compose w a self = compose w (with_reset false a) (fst (_reset_state self)).
Proof.
  intros Hreset. do 5 (split; [reflexivity|]).
  split; [exact (cache_step_dom _ _ (compose_cache_steps w a self))|].
  unfold compose. rewrite Hreset. simpl (a_reset (with_reset false a)). cbv iota.
  set (r := fst (_reset_state self)).
  unfold bind. change (_reset_state self) with (r, @Ok unit tt).
  unfold ret at 2. cbv iota beta. simpl.
  destruct (_gather_files _ _ _ _ _ _ _ _) as [s1 [[|f files]|e]]; try reflexivity.
  destruct (_make_rng _ _ s1) as [s2 [rng|e]]; [|reflexivity].
  now rewrite compose_loop_with_reset.
Qed.

Lemma select_entropy (e : Z) (w : World) path column mode st ig (rng : R) self :
  _select_line_from_file (with_entropy e w) path column mode st ig rng self
  = _select_line_from_file w path column mode st ig rng self.
Proof. reflexivity. Qed.

Lemma compose_loop_entropy (e : Z) (w : World) (a : Args) inserts files :
  forall idx rng parts segments self,
    compose_loop (with_entropy e w) a inserts files idx rng parts segments self
    = compose_loop w a inserts files idx rng parts segments self.
Proof.
  induction files as [|f files IH]; intros idx rng parts segments self; [reflexivity|].
  simpl. destruct (_split_path_and_column f (a_csv_column a)) as [path column].
  unfold bind. rewrite select_entropy.
  destruct (_select_line_from_file w path column _ _ _ rng self)
    as [s1 [[[[t i] total] rng']|err]]; [apply IH | reflexivity].
Qed.

Lemma gather_files_entropy (e : Z) (w : World) mode manual manifest dir glob max self :
  _gather_files (with_entropy e w) mode manual manifest dir glob max self
  = _gather_files w mode manual manifest dir glob max self.
Proof. reflexivity. Qed.

(** The generator of a call with a seed: seeded with [random_seed] plus
    the number of calls counted before this one. *)
Lemma make_rng_seeded (w : World) (random_seed : Z) (self : Assembler) :
  0 <= random_seed ->
  _make_rng w random_seed self
  = (set_global_step (_global_step self + 1) self,
     Ok (Random (random_seed + (_global_step self + 1) - 1))).
Proof.
  intros Hseed. unfold _make_rng, bind, get, put, ret.
  destruct (Z.leb_spec 0 random_seed); [reflexivity | lia].
Qed.

Lemma compose_entropy (e : Z) (w : World) (a : Args) (self : Assembler) :
  0 <= a_random_seed a ->
  compose (with_entropy e w) a self = compose w a self.
Proof.
  intros Hseed. unfold compose, bind.
  destruct (if a_reset a then _reset_state else ret tt) as [s0 [[]|err]]; [|reflexivity].
  rewrite gather_files_entropy.
  destruct (_gather_files w _ _ _ _ _ _ s0) as [s1 [[|f files]|err]]; try reflexivity.
  rewrite !make_rng_seeded by exact Hseed.
  now rewrite compose_loop_entropy.
Qed.

Lemma cache_hit_fields (self : Assembler) key (e : CacheEntry) m st ig :
  _cache self !! key = Some e ->
  mtime e = m -> strip_flag e = st -> ignore_blank_flag e = ig ->
  cache_hit self key m st ig = Some (records e).
Proof.
  intros He <- <- <-. unfold cache_hit, cache_valid. rewrite He.
  now rewrite Z.eqb_refl, !Bool.eqb_reflx.
Qed.

(** A load leaves the position table and the call counter alone. *)
Lemma load_file_lines_frame (w : World) path col st ig (self s1 : Assembler) r :
  _load_file_lines w path col st ig self = (s1, r) ->
  _positions s1 = _positions self /\ _global_step s1 = _global_step self.
Proof.
  intros Hload. destruct (w_files w !! path) as [fd|] eqn:Hf;
    [|rewrite load_file_lines_missing in Hload by assumption;
      now injection Hload as <- _].
  rewrite (load_file_lines_eq _ _ _ _ _ _ _ Hf) in Hload.
  destruct (cache_hit _ _ _ _ _); [now injection Hload as <- _|].
  destruct (read_by_extension_shape w path col) as [b Hshape].
  destruct (Hshape st ig) as (r' & Hr' & _). rewrite Hr' in Hload.
  destruct r'; injection Hload as <- _; now destruct b.
Qed.

Lemma selection_ok (recs : list Record_) (c : Z) :
  recs <> [] ->
  exists r, recs !! Z.to_nat (c mod Z.of_nat (length recs)) = Some r
            /\ selection recs c = Ok (text r, line_index r, Z.of_nat (length recs)).
Proof.
  intros Hne. assert (Hlen : 0 < Z.of_nat (length recs))
    by (destruct recs; [contradiction | simpl length; lia]).
  pose proof (Z.mod_pos_bound c _ Hlen) as Hb.
  destruct (lookup_lt_is_Some_2 recs (Z.to_nat (c mod Z.of_nat (length recs))))
    as [r Hr]; [lia|].
  exists r. split; [exact Hr|]. unfold selection.
  now rewrite (getitem_in_range _ _ _ Hb Hr).
Qed.

Lemma selection_periodic (recs : list Record_) (c : Z) :
  recs <> [] -> selection recs (c + Z.of_nat (length recs)) = selection recs c.
Proof.
  intros Hne. unfold selection.
  replace (c + Z.of_nat (length recs)) with (c + 1 * Z.of_nat (length recs)) by lia.
  rewrite Z.mod_add; [reflexivity|]. destruct recs; [contradiction | simpl length; lia].
Qed.

(** One sequential selection: the record at the cursor modulo the number
    of records, and the cursor one further. *)
Lemma select_sequential (w : World) path col st ig (rng : R)
    (self s1 : Assembler) recs :
  _load_file_lines w (w_expanduser w path) col st ig self = (s1, Ok recs) ->
  recs <> [] ->
  let key := cache_key (w_expanduser w path) col in
  let c := default 0 (_positions self !! key) in
  exists t i,
    selection recs c = Ok (t, i, Z.of_nat (length recs))
    /\ _select_line_from_file w path col "SEQUENTIAL" st ig rng self
       = (set_positions (insert key (c + 1)) s1,
          Ok (t, i, Z.of_nat (length recs), rng)).
Proof.
  intros Hload Hne key c.
  destruct (selection_ok recs c Hne) as (r & Hr & Hsel).
  exists (text r), (line_index r). split; [exact Hsel|].
  destruct (load_ok_entry _ _ _ _ _ _ _ _ Hload) as (fd & _ & Hf & _).
  destruct (load_file_lines_frame _ _ _ _ _ _ _ _ Hload) as [Hpos _].
  unfold _select_line_from_file, isfile. rewrite Hf. cbn [negb].
  unfold bind at 1. rewrite Hload.
  destruct recs as [|r0 recs']; [contradiction|].
  change (String.eqb "SEQUENTIAL" "SEQUENTIAL") with true. cbv iota.
  unfold bind at 1. unfold bind at 1. unfold get, put, ret.
  unfold bind at 1. simpl fst. simpl snd. rewrite Hpos. fold key. fold c.
  assert (Hlen : 0 < Z.of_nat (length (r0 :: recs'))) by (simpl length; lia).
  pose proof (Z.mod_pos_bound c _ Hlen) as Hb.
  change (S (length recs')) with (length (r0 :: recs')).
  unfold bind, lift. now rewrite (getitem_in_range _ _ _ Hb Hr).
Qed.

Lemma selections_shift (recs : list Record_) (c : Z) (n : nat) :
  map (fun j => selection recs (c + 1 + Z.of_nat j)) (seq 0 n)
  = map (fun j => selection recs (c + Z.of_nat j)) (seq 1 n).
Proof.
  rewrite <- seq_shift, map_map. apply map_ext. intros j. f_equal. lia.
Qed.

(** Selections in a row from an instance whose cache answers the load. *)
Lemma select_repeatedly_hit (w : World) path col st ig (rng : R) recs fd :
  w_files w !! w_expanduser w path = Some fd ->
  recs <> [] ->
  let key := cache_key (w_expanduser w path) col in
  forall (n : nat) (self : Assembler),
    cache_hit self key (fd_mtime fd) st ig = Some recs ->
    let c := default 0 (_positions self !! key) in
    let outcome := select_repeatedly w path col "SEQUENTIAL" st ig rng n self in
    snd outcome = map (fun j => selection recs (c + Z.of_nat j)) (seq 0 n)
    /\ _positions (fst outcome) !! key
       = match n with O => _positions self !! key | S _ => Some (c + Z.of_nat n) end.
Proof.
  intros Hf Hne key. induction n as [|n IH]; intros self Hhit c outcome.
  - split; reflexivity.
  - assert (Hload : _load_file_lines w (w_expanduser w path) col st ig self
                    = (self, Ok recs)).
    { rewrite (load_file_lines_eq _ _ _ _ _ _ _ Hf). fold key. now rewrite Hhit. }
    destruct (select_sequential w path col st ig rng self self recs Hload Hne)
      as (t & i & Hsel & Hstep).
    fold key in Hstep. fold c in Hstep, Hsel.
    set (self' := set_positions (insert key (c + 1)) self) in *.
    assert (Hc' : default 0 (_positions self' !! key) = c + 1)
      by (unfold self'; simpl; now rewrite lookup_insert_eq).
    destruct (IH self' Hhit) as [Hout Hpos]. rewrite Hc' in Hout, Hpos.
    subst outcome. simpl select_repeatedly. rewrite Hstep.
    destruct (select_repeatedly w path col "SEQUENTIAL" st ig rng n self')
      as [s2 rs] eqn:Hrun.
    simpl in Hout, Hpos |- *. split.
    + rewrite Hout, selections_shift. f_equal.
      change (Z.of_nat 0) with 0. rewrite Z.add_0_r. exact (eq_sym Hsel).
    + rewrite Hpos. destruct n as [|n].
      * rewrite lookup_insert_eq. f_equal.
      * f_equal. lia.
Qed.

(** C4: in SEQUENTIAL mode the cursor of a source starts at 0 (a fresh
    instance has no entry, and a missing entry counts as 0); each call
    selects [records[cursor mod len(records)]] and stores [cursor + 1],
    never reduced; so over consecutive calls the selections are those at
    cursors [c, c+1, c+2, ...] and repeat with period [len(records)]. *)
Theorem sequential_selection_cycles (w : World) path col st ig (rng : R)
    (self s1 : Assembler) recs :
  _load_file_lines w (w_expanduser w path) col st ig self = (s1, Ok recs) ->
  recs <> [] ->
  let key := cache_key (w_expanduser w path) col in
  let c := default 0 (_positions self !! key) in
  let k := Z.of_nat (length recs) in
  default 0 (_positions __init__ !! key) = 0
  /\ (forall n : nat,
        let outcome := select_repeatedly w path col "SEQUENTIAL" st ig rng n self in
        snd outcome = map (fun j => selection recs (c + Z.of_nat j)) (seq 0 n)
        /\ ((0 < n)%nat -> _positions (fst outcome) !! key = Some (c + Z.of_nat n)))
  /\ (forall cursor, exists r,
        recs !! Z.to_nat (cursor mod k) = Some r
        /\ selection recs cursor = Ok (text r, line_index r, k))
  /\ (forall cursor, selection recs (cursor + k) = selection recs cursor).
Proof.
  intros Hload Hne key c k.
  split; [reflexivity|].
  split; [|split; [intros cursor; now apply selection_ok
                  | intros cursor; now apply selection_periodic]].
  intros [|n] outcome; [split; [reflexivity | lia]|].
  destruct (select_sequential w path col st ig rng self s1 recs Hload Hne)
    as (t & i & Hsel & Hstep).
  fold key in Hstep. fold c in Hstep, Hsel.
  destruct (load_ok_entry _ _ _ _ _ _ _ _ Hload) as (fd & e & Hf & He & Hm & Hst & Hig & Hr).
  set (self' := set_positions (insert key (c + 1)) s1) in *.
  assert (Hhit : cache_hit self' key (fd_mtime fd) st ig = Some recs).
  { rewrite <- Hr. apply cache_hit_fields; assumption. }
  assert (Hc' : default 0 (_positions self' !! key) = c + 1)
    by (unfold self'; simpl; now rewrite lookup_insert_eq).
  destruct (select_repeatedly_hit w path col st ig rng recs fd Hf Hne n self' Hhit)
    as [Hout Hpos].
  fold key in Hout, Hpos. rewrite Hc' in Hout, Hpos.
  subst outcome. simpl select_repeatedly. rewrite Hstep.
  destruct (select_repeatedly w path col "SEQUENTIAL" st ig rng n self')
    as [s2 rs] eqn:Hrun.
  simpl in Hout, Hpos |- *. split.
  - rewrite Hout, selections_shift. f_equal.
    change (Z.of_nat 0) with 0. rewrite Z.add_0_r. exact (eq_sym Hsel).
  - intros _. rewrite Hpos. destruct n as [|n].
    + rewrite lookup_insert_eq. f_equal.
    + f_equal. lia.
Qed.

(** Every composer reached from a fresh one by [compose] calls has a
    cache whose records are numbered as the readers number them. *)
Lemma cache_step_indexed (self s1 : Assembler) :
  rtc cache_step (_cache self) (_cache s1) -> cache_indexed self -> cache_indexed s1.
Proof.
  unfold cache_indexed. generalize (_cache self) (_cache s1). intros c c'.
  induction 1 as [|c c1 c2 (key & e & -> & Hi) _ IH]; [trivial|].
  intros Hc. apply IH. intros key' e'.
  destruct (decide (key = key')) as [<-|Hne].
  - rewrite lookup_insert_eq. now intros [= <-].
  - rewrite lookup_insert_ne by exact Hne. apply Hc.
Qed.

Lemma compose_all_cache_indexed (calls : list (World * Args)) : forall self,
  cache_indexed self -> cache_indexed (fst (compose_all calls self)).
Proof.
  induction calls as [|[w a] calls IH]; intros self Hself; [exact Hself|].
  simpl. pose proof (compose_cache_steps w a self) as Hsteps.
  destruct (compose w a self) as [s1 r]. specialize (IH s1).
  destruct (compose_all calls s1) as [s2 rs]. simpl in *.
  apply IH. exact (cache_step_indexed _ _ Hsteps Hself).
Qed.

End ComposerFacts.

(** * The composer on the sample world *)
Section ComposerExamples.
Import WildcardPromptAssembler Composer.

Example sequential_selections :
  snd (select_repeatedly (H := lcg) sample_world colours_path None "SEQUENTIAL"
         true true 0 5 __init__)
  = [Ok (PyStr "red", 1, 3); Ok (PyStr "green", 2, 3); Ok (PyStr "blue", 4, 3);
     Ok (PyStr "red", 1, 3); Ok (PyStr "green", 2, 3)].
Proof. reflexivity. Qed.

Lemma sequential_selection_cycles_witness :
  snd (select_repeatedly (H := lcg) sample_world colours_path None "SEQUENTIAL"
         true true 0 5 __init__)
  = map (fun j => selection colours_stripped (0 + Z.of_nat j)) (seq 0 5).
Proof.
  exact (proj1 (proj1 (proj2 (sequential_selection_cycles (H := lcg) sample_world
           colours_path None true true 0 __init__ loaded_once colours_stripped
           eq_refl ltac:(discriminate))) 5%nat)).
Defined.

(** Without a seed the outcome follows the seed of the operating system. *)
Example unseeded_runs_differ :
  snd (compose_all (H := lcg) (reseed [1; 2] (two_calls "RANDOM" (-1))) __init__)
  <> snd (compose_all (H := lcg) (reseed [2; 1] (two_calls "RANDOM" (-1))) __init__).
Proof. vm_compute. discriminate. Qed.

(** With a seed the two calls of a run draw from different generators. *)
Example seeded_calls_differ :
  map (fun r => match r with Ok (p, _, _) => p | Err _ => "" end)
    (snd (compose_all (H := lcg) (two_calls "RANDOM" 7) __init__))
  = ["a green bob"; "a blue alice"].
Proof. reflexivity. Qed.

Example reset_then_compose :
  map (fun r => match r with Ok (p, _, _) => p | Err _ => "" end)
    (snd (compose_all (H := lcg)
            [ (sample_world, sample_compose "SEQUENTIAL" 7 true);
              (sample_world, sample_compose "SEQUENTIAL" 7 false) ] composed_twice))
  = ["a red alice"; "a green bob"].
Proof. reflexivity. Qed.

Lemma reset_clears_positions_only_witness :
  _positions (fst (_reset_state composed_twice)) = ∅
  /\ _cache (fst (_reset_state composed_twice)) = _cache composed_twice
  /\ compose (H := lcg) sample_world (sample_compose "SEQUENTIAL" 7 true) composed_twice
     = compose (H := lcg) sample_world
         (with_reset false (sample_compose "SEQUENTIAL" 7 true))
         (fst (_reset_state composed_twice)).
Proof.
  destruct (reset_clears_positions_only (H := lcg) sample_world
              (sample_compose "SEQUENTIAL" 7 true) composed_twice eq_refl)
    as (Hpos & _ & _ & Hcache & _ & _ & Hcall).
  split; [exact Hpos|]. split; [exact Hcache | exact Hcall].
Defined.

End ComposerExamples.

(** * Binary64 addition on a common scale *)
Section FloatFacts.
Import SimpleNumberCounter.

Lemma digits2_pos_size (p : positive) : digits2_pos p = Pos.size p.
Proof. induction p as [p IH|p IH|]; simpl; now rewrite ?IH. Qed.

Lemma digits2_log2 (p : positive) : Zpos (digits2_pos p) = Z.log2 (Zpos p) + 1.
Proof.
  rewrite digits2_pos_size. destruct p as [p|p|]; simpl; lia.
Qed.

Lemma digits2_shiftl (M : positive) (t : nat) :
  Zpos (digits2_pos (Pos.shiftl_nat M t)) = Zpos (digits2_pos M) + Z.of_nat t.
Proof.
  induction t as [|t IH]; [simpl; lia|].
  change (Pos.shiftl_nat M (S t)) with (xO (Pos.shiftl_nat M t)).
  simpl digits2_pos. rewrite Pos2Z.inj_succ, IH. lia.
Qed.

Lemma shiftl_nat_add (M : positive) (a b : nat) :
  Pos.shiftl_nat (Pos.shiftl_nat M a) b = Pos.shiftl_nat M (a + b).
Proof.
  induction b as [|b IH]; [now rewrite Nat.add_0_r|].
  rewrite Nat.add_succ_r. simpl. now rewrite IH.
Qed.

Lemma shiftl_nat_value (M : positive) (t : nat) :
  Zpos (Pos.shiftl_nat M t) = Zpos M * 2 ^ Z.of_nat t.
Proof.
  induction t as [|t IH]; [simpl; lia|].
  change (Pos.shiftl_nat M (S t)) with (xO (Pos.shiftl_nat M t)).
  rewrite Pos2Z.inj_xO, IH, Nat2Z.inj_succ, Z.pow_succ_r by lia. lia.
Qed.

Lemma iter_pos_nat {A} (f : A -> A) (p : positive) : forall x,
  SpecFloat.iter_pos f p x = Nat.iter (Pos.to_nat p) f x.
Proof.
  induction p as [p IH|p IH|]; intros x; cbn [SpecFloat.iter_pos].
  - rewrite !IH, Pos2Nat.inj_xI, Nat.iter_succ_r.
    replace (2 * Pos.to_nat p)%nat with (Pos.to_nat p + Pos.to_nat p)%nat by lia.
    now rewrite Nat.iter_add.
  - rewrite !IH, Pos2Nat.inj_xO.
    replace (2 * Pos.to_nat p)%nat with (Pos.to_nat p + Pos.to_nat p)%nat by lia.
    now rewrite Nat.iter_add.
  - reflexivity.
Qed.

Lemma shr_exact (t : nat) : forall M,
  Nat.iter t shr_1 {| shr_m := Zpos (Pos.shiftl_nat M t); shr_r := false; shr_s := false |}
  = {| shr_m := Zpos M; shr_r := false; shr_s := false |}.
Proof.
  induction t as [|t IH]; intros M; [reflexivity|].
  rewrite Nat.iter_succ_r.
  change (Pos.shiftl_nat M (S t)) with (xO (Pos.shiftl_nat M t)).
  cbn [shr_1 orb]. apply IH.
Qed.

Lemma shl_align_spec (mx : positive) (ex ex' : Z) :
  shl_align mx ex ex'
  = if ex' <? ex then (Pos.shiftl_nat mx (Z.to_nat (ex - ex')), ex') else (mx, ex).
Proof.
  unfold shl_align. destruct (Z.ltb_spec ex' ex) as [Hlt|Hge].
  - destruct (ex' - ex) as [|d|d] eqn:Hd; try lia.
    replace (ex - ex') with (Zpos d) by lia.
    now rewrite Pos2Nat.inj_iter, Z2Nat.inj_pos.
  - destruct (ex' - ex) as [|d|d] eqn:Hd; try reflexivity. lia.
Qed.

(** Rounding a mantissa of 53 bits followed by [u] zero bits is exact. *)
Lemma round_aux_exact (M : positive) (u : nat) (ez : Z) :
  Zpos (digits2_pos M) = 53 ->
  -1074 <= ez -> ez + Z.of_nat u <= 971 ->
  binary_round_aux prec emax false (Zpos (Pos.shiftl_nat M u)) ez loc_Exact
  = S754_finite false M (ez + Z.of_nat u).
Proof.
  intros Hd Hlo Hhi. unfold binary_round_aux, shr_fexp, fexp, emin, prec, emax.
  cbn [Zdigits2 shr_record_of_loc]. rewrite digits2_shiftl, Hd.
  replace (Z.max (53 + Z.of_nat u + ez - 53) (3 - 1024 - 53) - ez) with (Z.of_nat u) by lia.
  destruct u as [|u].
  - change (Z.of_nat 0) with 0.
    cbv beta iota zeta delta [shr shr_m loc_of_shr_record round_nearest_even Zdigits2
                              shr_record_of_loc Pos.shiftl_nat nat_rect].
    rewrite Hd. replace (Z.max (53 + ez - 53) (3 - 1024 - 53) - ez) with 0 by lia.
    cbv beta iota. replace (ez + 0) with ez by lia.
    destruct (Z.leb_spec ez (1024 - 53)); [reflexivity | lia].
  - unfold shr at 1.
    change (Z.of_nat (S u)) with (Zpos (Pos.of_succ_nat u)) at 1.
    cbv iota. rewrite iter_pos_nat, SuccNat2Pos.id_succ, shr_exact.
    change (Zpos (Pos.of_succ_nat u)) with (Z.of_nat (S u)).
    cbv beta iota zeta delta [shr_m loc_of_shr_record round_nearest_even Zdigits2
                              shr_record_of_loc].
    rewrite Hd.
    replace (Z.max (53 + (ez + Z.of_nat (S u)) - 53) (3 - 1024 - 53) - (ez + Z.of_nat (S u)))
      with 0 by lia.
    cbv beta iota zeta delta [shr shr_m].
    destruct (Z.leb_spec (ez + Z.of_nat (S u)) (1024 - 53)); [reflexivity | lia].
Qed.
Lemma digits2_bound (p : positive) : Zpos p < 2 ^ 53 -> Zpos (digits2_pos p) <= 53.
Proof.
  intros Hp. rewrite digits2_log2.
  assert (Z.log2 (Zpos p) < 53) by (apply Z.log2_lt_pow2; lia). lia.
Qed.

Lemma digits2_positive (p : positive) : 1 <= Zpos (digits2_pos p).
Proof. lia. Qed.

(** Rounding [M * 2^t] at exponent [e - t] gives the normal form of
    [M * 2^e] when [M] fits in 53 bits. *)
Lemma binary_round_exact (M : positive) (t : nat) (e : Z) :
  Zpos M < 2 ^ 53 -> -1000 <= e - Z.of_nat t -> e <= 900 ->
  binary_round prec emax false (Pos.shiftl_nat M t) (e - Z.of_nat t)
  = S754_finite false (Pos.shiftl_nat M (Z.to_nat (53 - Zpos (digits2_pos M))))
      (e + Zpos (digits2_pos M) - 53).
Proof.
  intros HM Hlo Hhi. pose proof (digits2_bound M HM) as Hd.
  pose proof (digits2_positive M) as Hd1.
  set (d := Zpos (digits2_pos M)) in *.
  unfold binary_round, fexp, emin, prec, emax.
  rewrite digits2_shiftl. fold d.
  replace (Z.max (d + Z.of_nat t + (e - Z.of_nat t) - 53) (3 - 1024 - 53))
    with (e + d - 53) by lia.
  rewrite shl_align_spec.
  destruct (Z.ltb_spec (e + d - 53) (e - Z.of_nat t)) as [Hlt|Hge].
  - rewrite shiftl_nat_add.
    replace (t + Z.to_nat (e - Z.of_nat t - (e + d - 53)))%nat with (Z.to_nat (53 - d)) by lia.
    pose proof (round_aux_exact (Pos.shiftl_nat M (Z.to_nat (53 - d))) 0 (e + d - 53)) as Hr.
    change (Pos.shiftl_nat (Pos.shiftl_nat M (Z.to_nat (53 - d))) 0)
      with (Pos.shiftl_nat M (Z.to_nat (53 - d))) in Hr.
    unfold prec, emax in Hr. rewrite Hr.
    + f_equal. simpl Z.of_nat. lia.
    + rewrite digits2_shiftl. fold d. lia.
    + lia.
    + simpl Z.of_nat. lia.
  - replace t with (Z.to_nat (53 - d) + Z.to_nat (Z.of_nat t + d - 53))%nat at 1 by lia.
    rewrite <- shiftl_nat_add.
    pose proof (round_aux_exact (Pos.shiftl_nat M (Z.to_nat (53 - d)))
                  (Z.to_nat (Z.of_nat t + d - 53)) (e - Z.of_nat t)) as Hr.
    unfold prec, emax in Hr. rewrite Hr.
    + f_equal. lia.
    + rewrite digits2_shiftl. fold d. lia.
    + lia.
    + lia.
Qed.

Lemma float_of_scaled_pos (p : positive) (e : Z) :
  Zpos p < 2 ^ 53 -> -1000 <= e <= 900 ->
  float_of_scaled (Zpos p) e
  = S754_finite false (Pos.shiftl_nat p (Z.to_nat (53 - Zpos (digits2_pos p))))
      (e + Zpos (digits2_pos p) - 53).
Proof.
  intros Hp He. unfold float_of_scaled, binary_normalize.
  pose proof (binary_round_exact p 0 e Hp) as Hr.
  change (Pos.shiftl_nat p 0) with p in Hr. change (Z.of_nat 0) with 0 in Hr.
  rewrite Z.sub_0_r in Hr. apply Hr; lia.
Qed.

Lemma shiftl_nat_plus (p q : positive) (s : nat) :
  (Pos.shiftl_nat p s + Pos.shiftl_nat q s)%positive = Pos.shiftl_nat (p + q) s.
Proof.
  induction s as [|s IH]; [reflexivity|].
  change (Pos.shiftl_nat ?x (S s)) with (xO (Pos.shiftl_nat x s)).
  now rewrite <- IH.
Qed.

(** Adding two floats on the same scale is exact while the sum of the
    mantissas fits in 53 bits. *)
Lemma float_add_exact (n m e : Z) :
  0 < n -> 0 < m -> n + m < 2 ^ 53 -> -900 <= e <= 900 ->
  float_add (float_of_scaled n e) (float_of_scaled m e) = float_of_scaled (n + m) e.
Proof.
  intros Hn Hm Hsum He.
  destruct n as [|p|p]; try lia. destruct m as [|q|q]; try lia.
  change (Zpos p + Zpos q) with (Zpos (p + q)) in *.
  rewrite !float_of_scaled_pos by lia.
  pose proof (digits2_bound p ltac:(lia)) as Hdp.
  pose proof (digits2_bound q ltac:(lia)) as Hdq.
  pose proof (digits2_positive p) as Hdp1. pose proof (digits2_positive q) as Hdq1.
  set (dp := Zpos (digits2_pos p)) in *. set (dq := Zpos (digits2_pos q)) in *.
  unfold float_add, SFadd. rewrite !shl_align_spec.
  set (s := Z.to_nat (53 - Z.min dp dq)).
  assert (Hx : fst (if Z.min (e + dp - 53) (e + dq - 53) <? e + dp - 53
                    then (Pos.shiftl_nat (Pos.shiftl_nat p (Z.to_nat (53 - dp)))
                            (Z.to_nat (e + dp - 53 - Z.min (e + dp - 53) (e + dq - 53))),
                          Z.min (e + dp - 53) (e + dq - 53))
                    else (Pos.shiftl_nat p (Z.to_nat (53 - dp)), e + dp - 53))
               = Pos.shiftl_nat p s).
  { destruct (Z.ltb_spec (Z.min (e + dp - 53) (e + dq - 53)) (e + dp - 53)); cbn [fst].
    - rewrite shiftl_nat_add. f_equal. unfold s. lia.
    - f_equal. unfold s. lia. }
  assert (Hy : fst (if Z.min (e + dp - 53) (e + dq - 53) <? e + dq - 53
                    then (Pos.shiftl_nat (Pos.shiftl_nat q (Z.to_nat (53 - dq)))
                            (Z.to_nat (e + dq - 53 - Z.min (e + dp - 53) (e + dq - 53))),
                          Z.min (e + dp - 53) (e + dq - 53))
                    else (Pos.shiftl_nat q (Z.to_nat (53 - dq)), e + dq - 53))
               = Pos.shiftl_nat q s).
  { destruct (Z.ltb_spec (Z.min (e + dp - 53) (e + dq - 53)) (e + dq - 53)); cbn [fst].
    - rewrite shiftl_nat_add. f_equal. unfold s. lia.
    - f_equal. unfold s. lia. }
  cbv zeta. rewrite Hx, Hy. cbn [cond_Zopp].
  change (Zpos (Pos.shiftl_nat p s) + Zpos (Pos.shiftl_nat q s))
    with (Zpos (Pos.shiftl_nat p s + Pos.shiftl_nat q s)).
  rewrite shiftl_nat_plus. cbn [binary_normalize].
  replace (Z.min (e + dp - 53) (e + dq - 53)) with (e - Z.of_nat s) by (unfold s; lia).
  apply binary_round_exact; [lia | unfold s; lia | lia].
Qed.
End FloatFacts.

(** * The counter *)
Section CounterFacts.
Import SimpleNumberCounter Counter.

Lemma count_fresh (a : Args) :
  a_max_steps a = -1 ->
  count a __init__
  = (running a (float_add (a_start_value a) (a_step a)) (a_start_value a) 1,
     (a_start_value a, 1, false)).
Proof.
  intros Hmax. unfold count, _should_reset. simpl initialized. cbn [negb].
  replace (if a_reset a then true else true) with true by now destruct (a_reset a).
  unfold _reset_state, advance, running. simpl. now rewrite Hmax.
Qed.

Lemma count_running (a : Args) next last emitted :
  a_max_steps a = -1 -> a_reset a = false ->
  float_ne (a_start_value a) (a_start_value a) = false ->
  float_ne (a_step a) (a_step a) = false ->
  count a (running a next last emitted)
  = (running a (float_add next (a_step a)) next (emitted + 1),
     (next, emitted + 1, false)).
Proof.
  intros Hmax Hreset Hstart Hstep. unfold count, _should_reset, running.
  simpl. rewrite Hreset, Hstart, Hstep, Z.eqb_refl, Bool.eqb_reflx. simpl.
  unfold advance. simpl. now rewrite Hmax.
Qed.

(** Every call of an endless counter emits the next term of the
    progression and counts one step. *)
Lemma count_nth (a : Args) :
  a_max_steps a = -1 -> a_reset a = false ->
  float_ne (a_start_value a) (a_start_value a) = false ->
  float_ne (a_step a) (a_step a) = false ->
  forall n : N,
    count a (state_after a n __init__)
    = (running a (progression (a_start_value a) (a_step a) (N.succ n))
         (progression (a_start_value a) (a_step a) n) (Z.of_N n + 1),
       (progression (a_start_value a) (a_step a) n, Z.of_N n + 1, false)).
Proof.
  intros Hmax Hreset Hstart Hstep n. induction n as [|n IH] using N.peano_ind.
  - exact (count_fresh a Hmax).
  - unfold state_after in *. rewrite N.iter_succ, IH. cbn [fst].
    rewrite count_running by assumption.
    unfold progression. rewrite !N.iter_succ, N2Z.inj_succ. reflexivity.
Qed.

Lemma progression_succ (start step_ : float) (n : N) :
  progression start step_ (N.succ n) = float_add (progression start step_ n) step_.
Proof. unfold progression. now rewrite N.iter_succ. Qed.

(** While [5 n] fits in 53 bits, [n] additions of 2.5 to 0.0 are exact. *)
Lemma progression_exact (n : N) :
  5 * Z.of_N n < 2 ^ 53 ->
  progression zero two_and_half n = float_of_scaled (5 * Z.of_N n) (-1).
Proof.
  induction n as [|n IH] using N.peano_ind; intros Hn; [reflexivity|].
  unfold progression in *. rewrite N.iter_succ, IH by lia.
  destruct (N.eq_dec n 0%N) as [->|Hpos]; [reflexivity|].
  unfold two_and_half. rewrite float_add_exact by lia.
  f_equal. lia.
Qed.

(** [float_of_scaled n (-1)] is the number [n / 2] when [n] fits in 53 bits. *)
Lemma float_of_halves_value (n : Z) :
  0 < n < 2 ^ 53 ->
  exists m e, float_of_scaled n (-1) = S754_finite false m e
              /\ e <= -1 /\ Zpos m = n * 2 ^ (-1 - e).
Proof.
  intros Hn. destruct n as [|p|p]; try lia.
  rewrite float_of_scaled_pos by lia.
  pose proof (digits2_bound p ltac:(lia)) as Hd.
  eexists _, _. split; [reflexivity|]. split; [lia|].
  rewrite shiftl_nat_value. f_equal. f_equal. lia.
Qed.

(** C9, the claim as written fails for large [k]: the 1801439850948203rd
    call returns 4503599627370504.0, while 2.5 * (k - 1) is the float
    4503599627370505.0; from 2^52 on the additions of 2.5 are rounded. *)
Lemma rounding_sets_in :
  nth_call by_two_and_half 1801439850948203 __init__
  = (S754_finite false 4503599627370504 0, 1801439850948203, false)
  /\ float_of_scaled (5 * (1801439850948203 - 1)) (-1)
     = S754_finite false 4503599627370505 0
  /\ 2 * 4503599627370505 = 5 * (1801439850948203 - 1)
  /\ fst (fst (nth_call by_two_and_half 1801439850948203 __init__))
     <> float_of_scaled (5 * (1801439850948203 - 1)) (-1).
Proof.
  assert (Hcall : nth_call by_two_and_half 1801439850948203 __init__
                  = (S754_finite false 4503599627370504 0, 1801439850948203, false));
    [|split; [exact Hcall|]; split; [reflexivity|]; split; [reflexivity|];
      rewrite Hcall; vm_compute; discriminate].
  unfold nth_call. change (N.pred 1801439850948203) with 1801439850948202%N.
  rewrite count_nth by reflexivity. cbn [snd].
  change (a_start_value by_two_and_half) with zero.
  change (a_step by_two_and_half) with two_and_half.
  change 1801439850948202%N
    with (N.succ (N.succ (N.succ (N.succ 1801439850948198)))) at 1.
  do 4 rewrite progression_succ.
  rewrite progression_exact by (vm_compute; reflexivity).
  vm_compute. reflexivity.
Qed.

(** C9, as the code has it: with [start_value = 0], [step = 2.5] and
    [max_steps = -1], the [k]-th call of a fresh counter returns
    [step_index = k], never [done], and as value the result of [k - 1]
    rounded additions of 2.5 to 0.0; as long as [5 (k - 1) < 2^53] (the
    first 1801439850948199 calls) these additions are exact and the value
    is the float [2.5 * (k - 1)]: 0.0, 2.5, 5.0, ... *)
Theorem counter_by_two_and_half (k : N) :
  (1 <= k)%N ->
  nth_call by_two_and_half k __init__
  = (progression zero two_and_half (N.pred k), Z.of_N k, false)
  /\ (5 * (Z.of_N k - 1) < 2 ^ 53 ->
      progression zero two_and_half (N.pred k)
      = float_of_scaled (5 * (Z.of_N k - 1)) (-1)
      /\ (k = 1%N -> progression zero two_and_half (N.pred k) = zero)
      /\ ((1 < k)%N ->
          exists m e,
            progression zero two_and_half (N.pred k) = S754_finite false m e
            /\ e <= -1 /\ Zpos m = 5 * (Z.of_N k - 1) * 2 ^ (-1 - e))).
Proof.
  intros Hk. split.
  - unfold nth_call. rewrite count_nth by reflexivity. cbn [snd].
    do 2 f_equal. lia.
  - intros Hbound.
    assert (Hexact : progression zero two_and_half (N.pred k)
                     = float_of_scaled (5 * (Z.of_N k - 1)) (-1)).
    { rewrite progression_exact by lia. f_equal. lia. }
    split; [exact Hexact|]. split.
    + intros ->. reflexivity.
    + intros Hk1. rewrite Hexact. apply float_of_halves_value. lia.
Qed.

Example first_values :
  map (fun k => nth_call by_two_and_half k __init__) [1; 2; 3; 4]%N
  = [ (zero, 1, false);
      (S754_finite false 5629499534213120 (-51), 2, false);
      (S754_finite false 5629499534213120 (-50), 3, false);
      (S754_finite false 8444249301319680 (-50), 4, false) ].
Proof. reflexivity. Qed.

Lemma counter_by_two_and_half_witness :
  nth_call by_two_and_half 3 __init__
  = (S754_finite false 5629499534213120 (-50), 3, false).
Proof.
  exact (proj1 (counter_by_two_and_half 3 ltac:(vm_compute; discriminate))).
Defined.

End CounterFacts.

(** * Runs of the sequencer: bounds, errors, closed forms *)
Section SequencerRunFacts.
Import AutoPromptLineLoader Sequencer SequencerRuns.

(** The errors [_load_lines] can raise. *)
Lemma load_lines_in_range (w : World) path col e :
  _load_lines w path col = Err e -> in_range (Err e).
Proof.
  assert (Hopen : forall (k : FileData -> result (list pyval)),
            (forall fd e', k fd = Err e' -> in_range (Err e')) ->
            forall e', rbind (open_file w path) k = Err e' -> in_range (Err e')).
  { intros k Hk e'. unfold open_file.
    destruct (w_files w !! path) as [fd|]; simpl; [apply Hk|].
    intros [= <-]. simpl. discriminate. }
  unfold _load_lines, _read_md, _read_txt, _read_csv, _read_docx.
  destruct (_ || _).
  { apply Hopen. discriminate. }
  destruct (String.eqb _ ".md").
  { apply Hopen. discriminate. }
  destruct (String.eqb _ ".csv").
  { apply Hopen. intros fd e'.
    destruct (str_truthy col); [|discriminate].
    destruct (dict_fieldnames _); [|intros [= <-]; simpl; discriminate].
    destruct (negb _); [intros [= <-]; simpl; discriminate | discriminate]. }
  destruct (String.eqb _ ".docx").
  { destruct (negb _); [intros [= <-]; simpl; discriminate|].
    apply Hopen. discriminate. }
  intros [= <-]. simpl. discriminate.
Qed.

(** An emission from a loaded state succeeds unless the line is [None]
    and is to be stripped. *)
Lemma emit_outcome (a : Args) (s : State) :
  initialized s = true -> well_formed s ->
  (exists p idx,
     1 <= idx <= total_lines s
     /\ emit a s = (emitted_state s p idx,
                    Ok (p, idx, emitted_steps s + 1, total_lines s,
                        (0 <=? a_max_steps a)
                        && (a_max_steps a <=? emitted_steps s + 1))))
  \/ emit a s = (s, Err (AttributeError "'NoneType' object has no attribute 'strip'")).
Proof.
  intros Hi Hwf. destruct (Hwf Hi) as (Hne & Htot & Hlast & Hcase).
  assert (Hlen : 0 < total_lines s).
  { rewrite Htot. destruct (lines s); [contradiction | simpl; lia]. }
  pose proof (wrap_range (next_index s) _ Hlen) as Hrange.
  unfold emit, bind, get, lift, put, ret.
  rewrite normalize_index_ok by lia.
  set (idx := (next_index s - 1) mod total_lines s + 1) in *.
  destruct (lookup_lt_is_Some_2 (lines s) (Z.to_nat (idx - 1)) ltac:(lia)) as [raw Hraw].
  rewrite (getitem_in_range _ _ raw) by (lia || exact Hraw).
  destruct (a_strip_whitespace a); [destruct raw; simpl|];
    [now right | left; eauto | left; eauto].
Qed.

Lemma emit_well_formed (a : Args) (s : State) :
  initialized s = true -> well_formed s ->
  well_formed (fst (emit a s)) /\ in_range (snd (emit a s)).
Proof.
  intros Hi Hwf. destruct (Hwf Hi) as (Hne & Htot & Hlast & Hcase).
  destruct (emit_outcome a s Hi Hwf) as [(p & idx & Hidx & ->)| ->]; simpl.
  - split.
    + intros _. simpl. repeat split; auto. right. lia.
    + split; [lia | right; lia].
  - split; [exact Hwf | discriminate].
Qed.

Lemma fresh_well_formed path m (a : Args) l ls :
  well_formed (fresh_state path m a (l :: ls)).
Proof.
  intros _. simpl. repeat split; [discriminate | left; auto].
Qed.

Lemma should_reset_initialized (s : State) path m (a : Args) :
  _should_reset s path m a = false -> initialized s = true.
Proof.
  unfold _should_reset. destruct (a_reset a); [discriminate|].
  destruct (initialized s); [reflexivity | discriminate].
Qed.

(** One call keeps the state well formed and returns within bounds. *)
Lemma next_prompt_well_formed (w : World) (a : Args) (s : State) :
  well_formed s ->
  well_formed (fst (next_prompt w a s)) /\ in_range (snd (next_prompt w a s)).
Proof.
  intros Hwf.
  destruct (str_truthy (a_file_path a)) eqn:Hp.
  2:{ unfold next_prompt. rewrite Hp. simpl. split; [exact Hwf | discriminate]. }
  destruct (w_files w !! call_path w a) as [fd|] eqn:Hf.
  2:{ unfold next_prompt, isfile. fold (call_path w a). rewrite Hp, Hf. simpl.
      split; [exact Hwf | discriminate]. }
  rewrite (next_prompt_eq _ _ _ _ Hp Hf).
  set (path := call_path w a). set (m := fd_mtime fd).
  assert (Hreset : forall s0, well_formed s0 ->
    well_formed (fst (match _reset_state w path m a s0 with
                      | (s2, Ok _) => emit a s2
                      | (s2, Err e) => (s2, Err e)
                      end))
    /\ in_range (snd (match _reset_state w path m a s0 with
                      | (s2, Ok _) => emit a s2
                      | (s2, Err e) => (s2, Err e)
                      end))).
  { intros s0 H0. rewrite reset_state_eq.
    destruct (_load_lines w path (a_csv_column a)) as [[|l ls]|e] eqn:Hload.
    - split; [exact H0 | discriminate].
    - apply emit_well_formed; [reflexivity | apply fresh_well_formed].
    - split; [exact H0 | exact (load_lines_in_range _ _ _ _ Hload)]. }
  assert (Hbody : forall s0, initialized s0 = true -> well_formed s0 ->
    well_formed (fst (if capped a s0 then
                        if auto_reset s0 then
                          match _reset_state w path m a s0 with
                          | (s2, Ok _) => emit a s2
                          | (s2, Err e) => (s2, Err e)
                          end
                        else (s0, Ok (held_output s0))
                      else emit a s0))
    /\ in_range (snd (if capped a s0 then
                        if auto_reset s0 then
                          match _reset_state w path m a s0 with
                          | (s2, Ok _) => emit a s2
                          | (s2, Err e) => (s2, Err e)
                          end
                        else (s0, Ok (held_output s0))
                      else emit a s0))).
  { intros s0 Hi H0. destruct (capped a s0); [|now apply emit_well_formed].
    destruct (auto_reset s0); [now apply Hreset|].
    split; [exact H0|]. destruct (H0 Hi) as (Hne & Htot & Hlast & Hcase).
    simpl. rewrite Hlast. split; [|exact Hcase].
    rewrite Htot. destruct (lines s0); [contradiction | simpl; lia]. }
  destruct (_should_reset s path m a) eqn:Hsr.
  - rewrite reset_state_eq.
    destruct (_load_lines w path (a_csv_column a)) as [[|l ls]|e] eqn:Hload.
    + split; [exact Hwf | discriminate].
    + apply Hbody; [reflexivity | apply fresh_well_formed].
    + split; [exact Hwf | exact (load_lines_in_range _ _ _ _ Hload)].
  - apply Hbody; [exact (should_reset_initialized _ _ _ _ Hsr) | exact Hwf].
Qed.

(** X1: whatever the inputs and the files of each call, every outcome of a
    run that starts from a new instance is within bounds: a successful
    call reports [total_lines >= 1] and either a line with
    [1 <= line_index <= total_lines] and [step_index >= 1], or the
    placeholder [("", 0, 0)]; no call raises [IndexError], nor the
    [ValueError] of [_normalize_index] for an empty list; and the state
    left behind is well formed. *)
Theorem run_outcomes_in_range (cs : list (World * Args)) :
  Forall in_range (snd (next_prompts cs __init__))
  /\ well_formed (fst (next_prompts cs __init__)).
Proof.
  assert (Hgen : forall s, well_formed s ->
            Forall in_range (snd (next_prompts cs s))
            /\ well_formed (fst (next_prompts cs s))).
  { induction cs as [|[w a] cs IH]; intros s Hwf.
    - split; [constructor | exact Hwf].
    - simpl. destruct (next_prompt_well_formed w a s Hwf) as [H1 Hr].
      destruct (next_prompt w a s) as [s1 r]. simpl in H1, Hr.
      destruct (IH s1 H1) as [Hrs H2].
      destruct (next_prompts cs s1) as [s2 rs]. simpl in *.
      split; [constructor; assumption | exact H2]. }
  apply Hgen. intros Hi. discriminate.
Qed.

Lemma emit_err (a : Args) (s s' : State) e : emit a s = (s', Err e) -> s' = s.
Proof.
  unfold emit, bind, get, lift, put, ret.
  destruct (_normalize_index _ _); [|now intros [= <- _]].
  destruct (getitem _ _); [|now intros [= <- _]].
  destruct (if a_strip_whitespace a then _ else _); [discriminate | now intros [= <- _]].
Qed.

(** X2: a successful call returns what the state it leaves remembers:
    [last_prompt], [last_line_index], [last_step_index] and
    [total_lines]; and [done] is true exactly when that state has reached
    the cap, [0 <= max_steps <= emitted_steps]. *)
Theorem output_mirrors_state (w : World) (a : Args) (s s1 : State) p idx k t d :
  next_prompt w a s = (s1, Ok (p, idx, k, t, d)) ->
  p = last_prompt s1 /\ idx = last_line_index s1 /\ k = last_step_index s1
  /\ t = total_lines s1 /\ d = capped a s1.
Proof.
  intros Hcall.
  destruct (next_prompt_ok_file _ _ _ _ _ Hcall) as [Hp [fd Hf]].
  rewrite (next_prompt_eq _ _ _ _ Hp Hf) in Hcall.
  set (Concl := p = last_prompt s1 /\ idx = last_line_index s1 /\ k = last_step_index s1
                /\ t = total_lines s1 /\ d = capped a s1).
  assert (Hemit : forall s0, emit a s0 = (s1, Ok (p, idx, k, t, d)) -> Concl).
  { intros s0 He. apply emit_inv in He as (_ & Hidx & Hk & Ht & Hd & ->).
    unfold Concl, capped. simpl. auto. }
  assert (Hbody : forall s0,
    (if capped a s0 then
       if auto_reset s0 then
         match _reset_state w (call_path w a) (fd_mtime fd) a s0 with
         | (s2, Ok _) => emit a s2
         | (s2, Err e) => (s2, Err e)
         end
       else (s0, Ok (held_output s0))
     else emit a s0) = (s1, Ok (p, idx, k, t, d)) -> Concl).
  { intros s0. destruct (capped a s0) eqn:Hcap; [|apply (Hemit s0)].
    destruct (auto_reset s0).
    - destruct (_reset_state _ _ _ _ s0) as [s2 [[]|e]]; [apply (Hemit s2)|discriminate].
    - intros [= <- <- <- <- <- <-]. unfold Concl. now rewrite Hcap. }
  destruct (_should_reset s _ _ a).
  - destruct (_reset_state _ _ _ _ s) as [s0 [[]|e]]; [|discriminate].
    exact (Hbody s0 Hcall).
  - exact (Hbody s Hcall).
Qed.

Lemma output_mirrors_state_witness :
  PyStr "green" = last_prompt (sample_state false)
  /\ 2 = last_line_index (sample_state false)
  /\ 2 = last_step_index (sample_state false)
  /\ 4 = total_lines (sample_state false)
  /\ true = capped (sample_args 2 false) (sample_state false).
Proof.
  exact (output_mirrors_state sample_world (sample_args 2 false)
           (fst (calls sample_world (sample_args 2 false) 1 __init__))
           (sample_state false) (PyStr "green") 2 2 4 true eq_refl).
Defined.

(** X3: a call that reloads, because [reset] is set, the instance is new,
    or an input or the file's modification time differs from the stored
    one, does not depend on what the instance did before: it returns
    what the first call of a new instance returns, and when it succeeds
    it leaves the same state. *)
Theorem reload_forgets_history (w : World) (a : Args) (s : State) :
  (forall fd, w_files w !! call_path w a = Some fd ->
              _should_reset s (call_path w a) (fd_mtime fd) a = true) ->
  snd (next_prompt w a s) = snd (next_prompt w a __init__)
  /\ (forall out, snd (next_prompt w a s) = Ok out ->
        fst (next_prompt w a s) = fst (next_prompt w a __init__)).
Proof.
  intros Hsr.
  destruct (str_truthy (a_file_path a)) eqn:Hp.
  2:{ unfold next_prompt. rewrite Hp. simpl. split; [reflexivity | discriminate]. }
  destruct (w_files w !! call_path w a) as [fd|] eqn:Hf.
  2:{ unfold next_prompt, isfile. fold (call_path w a). rewrite Hp, Hf. simpl.
      split; [reflexivity | discriminate]. }
  rewrite !(next_prompt_eq _ _ _ _ Hp Hf), (Hsr fd eq_refl), should_reset_init.
  rewrite !reset_state_eq.
  destruct (_load_lines w (call_path w a) (a_csv_column a)) as [[|l ls]|e];
    simpl; split; try reflexivity; discriminate.
Qed.

Lemma reload_forgets_history_witness :
  snd (next_prompt sample_world (sample_args 3 false) (sample_state false))
  = snd (next_prompt sample_world (sample_args 3 false) __init__).
Proof.
  exact (proj1 (reload_forgets_history sample_world (sample_args 3 false)
                  (sample_state false)
                  ltac:(intros fd Hfd; vm_compute in Hfd; injection Hfd as <-;
                        reflexivity))).
Defined.

(** X4: a call that raises never advances the sequence: it leaves the
    state as it found it, or, when the failure came after a successful
    reload (a line that is [None] met [strip]), freshly reloaded with no
    emission counted. *)
Theorem failed_call_never_advances (w : World) (a : Args) (s s1 : State) e :
  next_prompt w a s = (s1, Err e) ->
  s1 = s
  \/ exists fd loaded,
       w_files w !! call_path w a = Some fd
       /\ _load_lines w (call_path w a) (a_csv_column a) = Ok loaded
       /\ s1 = fresh_state (call_path w a) (fd_mtime fd) a loaded
       /\ emitted_steps s1 = 0
       /\ e = AttributeError "'NoneType' object has no attribute 'strip'".
Proof.
  destruct (str_truthy (a_file_path a)) eqn:Hp.
  2:{ unfold next_prompt. rewrite Hp. simpl. intros [= <- _]. now left. }
  destruct (w_files w !! call_path w a) as [fd|] eqn:Hf.
  2:{ unfold next_prompt, isfile. fold (call_path w a). rewrite Hp, Hf. simpl.
      intros [= <- _]. now left. }
  rewrite (next_prompt_eq _ _ _ _ Hp Hf).
  set (path := call_path w a) in *. set (m := fd_mtime fd).
  set (Fresh := exists fd0 loaded,
         Some fd = Some fd0
         /\ _load_lines w path (a_csv_column a) = Ok loaded
         /\ s1 = fresh_state path (fd_mtime fd0) a loaded
         /\ emitted_steps s1 = 0
         /\ e = AttributeError "'NoneType' object has no attribute 'strip'").
  assert (Hfresh : forall l ls,
            _load_lines w path (a_csv_column a) = Ok (l :: ls) ->
            emit a (fresh_state path m a (l :: ls)) = (s1, Err e) -> Fresh).
  { intros l ls Hload He.
    destruct (emit_outcome a (fresh_state path m a (l :: ls)) eq_refl
                (fresh_well_formed path m a l ls)) as [(p & idx & _ & Hok)|Herr].
    - rewrite Hok in He. discriminate.
    - rewrite Herr in He. injection He as <- <-.
      exists fd, (l :: ls). repeat split. exact Hload. }
  assert (Hbody : forall s0,
    s0 = s \/ (exists l ls, _load_lines w path (a_csv_column a) = Ok (l :: ls)
                            /\ s0 = fresh_state path m a (l :: ls)) ->
    (if capped a s0 then
       if auto_reset s0 then
         match _reset_state w path m a s0 with
         | (s2, Ok _) => emit a s2
         | (s2, Err e0) => (s2, Err e0)
         end
       else (s0, Ok (held_output s0))
     else emit a s0) = (s1, Err e) -> s1 = s \/ Fresh).
  { intros s0 H0. destruct (capped a s0).
    - destruct (auto_reset s0); [|discriminate].
      rewrite reset_state_eq.
      destruct (_load_lines w path (a_csv_column a)) as [[|l ls]|e0] eqn:Hload.
      + intros [= <- _]. destruct H0 as [->|(l & ls & Hl & _)]; [now left | discriminate].
      + intros He. right. exact (Hfresh l ls eq_refl He).
      + intros [= <- _]. destruct H0 as [->|(l & ls & Hl & _)]; [now left | discriminate].
    - intros He. destruct H0 as [->|(l & ls & Hl & ->)].
      + left. exact (emit_err _ _ _ _ He).
      + right. exact (Hfresh l ls Hl He). }
  destruct (_should_reset s path m a).
  - rewrite reset_state_eq.
    destruct (_load_lines w path (a_csv_column a)) as [[|l ls]|e0] eqn:Hload.
    + intros [= <- _]. now left.
    + apply Hbody. right. now exists l, ls.
    + intros [= <- _]. now left.
  - apply Hbody. now left.
Qed.

Lemma failed_call_never_advances_witness :
  fst (next_prompt sample_world short_row_args __init__) = __init__
  \/ exists fd loaded,
       w_files sample_world !! call_path sample_world short_row_args = Some fd
       /\ _load_lines sample_world (call_path sample_world short_row_args)
            (a_csv_column short_row_args) = Ok loaded
       /\ fst (next_prompt sample_world short_row_args __init__)
          = fresh_state (call_path sample_world short_row_args) (fd_mtime fd)
              short_row_args loaded
       /\ emitted_steps (fst (next_prompt sample_world short_row_args __init__)) = 0
       /\ AttributeError "'NoneType' object has no attribute 'strip'"
          = AttributeError "'NoneType' object has no attribute 'strip'".
Proof.
  apply (failed_call_never_advances sample_world short_row_args __init__).
  reflexivity.
Defined.

End SequencerRunFacts.
(** * The order in which the sequencer walks a file *)
Section SequencerWalkFacts.
Import AutoPromptLineLoader Sequencer SequencerRuns.

Lemma lookup_map {A B} (f : A -> B) (l : list A) : forall i x,
  l !! i = Some x -> map f l !! i = Some (f x).
Proof.
  induction l as [|y l IH]; intros [|i] x; simpl; try discriminate.
  - now intros [= ->].
  - apply IH.
Qed.

Lemma should_reset_false_step (s : State) path m (a : Args) :
  _should_reset s path m a = false -> step s = a_step a.
Proof.
  unfold _should_reset. destruct (a_reset a); [discriminate|].
  destruct (initialized s); [|discriminate]. simpl.
  intros Hor. repeat (apply orb_false_elim in Hor as [Hor ?]).
  repeat match goal with H : negb _ = false |- _ => apply negb_false_iff in H end.
  now apply Z.eqb_eq.
Qed.

Lemma fresh_walking path m (a : Args) texts :
  a_reset a = false ->
  walking a path m texts 0 (fresh_state path m a (map PyStr texts)).
Proof.
  intros Hr. unfold walking. rewrite should_reset_fresh. simpl.
  rewrite length_map. repeat split; auto; lia.
Qed.

(** The emission of a sequence that has emitted [j] lines. *)
Lemma emit_walking (a : Args) path m texts j (s : State) :
  texts <> [] -> walking a path m texts j s ->
  exists s', emit a s = (s', Ok (emission a texts j))
             /\ walking a path m texts (j + 1) s'.
Proof.
  intros Hne (Hsr & Hlines & Htot & Hnext & Hj).
  assert (Hlen : 0 < Z.of_nat (length texts))
    by (destruct texts; [contradiction | simpl; lia]).
  pose proof (wrap_range (a_start_value a + j * a_step a) _ Hlen) as Hrange.
  unfold emit, bind, get, lift, put, ret.
  rewrite Htot, Hnext, normalize_index_ok by lia.
  set (idx := (a_start_value a + j * a_step a - 1) mod Z.of_nat (length texts) + 1) in *.
  destruct (lookup_lt_is_Some_2 texts (Z.to_nat (idx - 1)) ltac:(lia)) as [t Ht].
  rewrite Hlines.
  rewrite (getitem_in_range _ _ (PyStr t))
    by (rewrite ?length_map; lia || exact (lookup_map PyStr _ _ _ Ht)).
  assert (Hout : (PyStr (if a_strip_whitespace a then strip t else t), idx,
                  emitted_steps s + 1, Z.of_nat (length texts),
                  (0 <=? a_max_steps a) && (a_max_steps a <=? emitted_steps s + 1))
                 = emission a texts j).
  { unfold emission. fold idx. now rewrite Ht, Hj. }
  exists (emitted_state s (PyStr (if a_strip_whitespace a then strip t else t)) idx).
  split.
  - rewrite <- Hout. destruct (a_strip_whitespace a); reflexivity.
  - pose proof (should_reset_false_step _ _ _ _ Hsr) as Hstep.
    split; [exact Hsr|]. simpl. repeat split; auto; lia.
Qed.

(** A call on a current state below the cap emits. *)
Lemma walk_call (w : World) (a : Args) fd texts j (s : State) :
  str_truthy (a_file_path a) = true ->
  w_files w !! call_path w a = Some fd ->
  texts <> [] ->
  walking a (call_path w a) (fd_mtime fd) texts j s ->
  a_max_steps a < 0 \/ j < a_max_steps a ->
  exists s', next_prompt w a s = (s', Ok (emission a texts j))
             /\ walking a (call_path w a) (fd_mtime fd) texts (j + 1) s'.
Proof.
  intros Hp Hf Hne Hw Hcap.
  rewrite (next_prompt_eq _ _ _ _ Hp Hf).
  destruct Hw as (Hsr & Hrest). rewrite Hsr.
  assert (Hc : capped a s = false).
  { unfold capped. destruct Hrest as (_ & _ & _ & ->).
    apply andb_false_iff. destruct Hcap; [left | right]; lia. }
  rewrite Hc. apply (emit_walking a _ _ texts j s Hne). now split.
Qed.

Lemma seq_shift_map {A} (f : nat -> A) (n : nat) :
  map f (seq 1 n) = map (fun i => f (S i)) (seq 0 n).
Proof. now rewrite <- seq_shift, map_map. Qed.

Lemma walk_calls (w : World) (a : Args) fd texts :
  str_truthy (a_file_path a) = true ->
  w_files w !! call_path w a = Some fd ->
  texts <> [] ->
  forall (n : nat) j (s : State),
    walking a (call_path w a) (fd_mtime fd) texts j s ->
    a_max_steps a < 0 \/ j + Z.of_nat n <= a_max_steps a ->
    snd (calls w a n s)
    = map (fun i => Ok (emission a texts (j + Z.of_nat i))) (seq 0 n).
Proof.
  intros Hp Hf Hne. induction n as [|n IH]; intros j s Hw Hcap; [reflexivity|].
  destruct (walk_call w a fd texts j s Hp Hf Hne Hw ltac:(lia)) as (s' & Hcall & Hw').
  cbn [calls]. rewrite Hcall.
  specialize (IH (j + 1) s' Hw' ltac:(lia)).
  destruct (calls w a n s') as [s2 rs]. simpl in IH. subst rs.
  cbn [snd seq map]. rewrite Z.add_0_r. f_equal.
  rewrite seq_shift_map. apply map_ext. intros i. do 2 f_equal. lia.
Qed.

(** The first call of a new instance is the call a freshly loaded state
    gets. *)
Lemma first_call_as_loaded (w : World) (a : Args) fd l ls :
  a_reset a = false ->
  str_truthy (a_file_path a) = true ->
  w_files w !! call_path w a = Some fd ->
  _load_lines w (call_path w a) (a_csv_column a) = Ok (l :: ls) ->
  next_prompt w a __init__
  = next_prompt w a (fresh_state (call_path w a) (fd_mtime fd) a (l :: ls)).
Proof.
  intros Hr Hp Hf Hload.
  rewrite !(next_prompt_eq _ _ _ _ Hp Hf), should_reset_init, should_reset_fresh, Hr.
  now rewrite reset_state_eq, Hload.
Qed.

Lemma calls_first (w : World) (a : Args) (n : nat) (s s' : State) :
  next_prompt w a s = next_prompt w a s' ->
  snd (calls w a n s) = snd (calls w a n s').
Proof.
  intros Heq. destruct n as [|n]; [reflexivity|]. cbn [calls]. now rewrite Heq.
Qed.

(** X5: a new instance called [n] times with the same inputs on a file
    whose lines are strings, without [reset] and below the cap
    ([max_steps < 0] or [n <= max_steps]), emits call after call the
    lines at [start_value], [start_value + step], [start_value + 2*step],
    ..., each wrapped into [1..total_lines]: call number [i+1] returns
    the line at the wrapped [start_value + i*step], that index,
    [step_index = i+1], and [done] exactly when [i+1] reaches a
    nonnegative [max_steps]. *)
Theorem sequencer_walks_the_file (w : World) (a : Args) fd texts (n : nat) :
  a_reset a = false ->
  a_max_steps a < 0 \/ Z.of_nat n <= a_max_steps a ->
  str_truthy (a_file_path a) = true ->
  w_files w !! call_path w a = Some fd ->
  _load_lines w (call_path w a) (a_csv_column a) = Ok (map PyStr texts) ->
  texts <> [] ->
  snd (calls w a n __init__)
  = map (fun i => Ok (emission a texts (Z.of_nat i))) (seq 0 n).
Proof.
  intros Hr Hcap Hp Hf Hload Hne.
  destruct texts as [|t ts]; [contradiction|].
  rewrite (calls_first w a n _ _ (first_call_as_loaded w a fd _ _ Hr Hp Hf Hload)).
  exact (walk_calls w a fd (t :: ts) Hp Hf Hne n 0 _
           (fresh_walking _ _ a (t :: ts) Hr) ltac:(lia)).
Qed.

Lemma sequencer_walks_the_file_witness :
  snd (calls sample_world (sample_args (-1) false) 6 __init__)
  = map (fun i => Ok (emission (sample_args (-1) false)
                        [" red "; "green"; ""; "blue"] (Z.of_nat i))) (seq 0 6).
Proof.
  apply (sequencer_walks_the_file sample_world (sample_args (-1) false) colours_txt
           [" red "; "green"; ""; "blue"] 6);
    [reflexivity | left; simpl; lia | reflexivity | reflexivity | reflexivity
    | discriminate].
Defined.

(** The number of the emission after emission [e] of a cycle of length
    [max 1 N]. *)
Lemma cycle_next (N c e : Z) :
  0 <= N -> e = c mod Z.max 1 N ->
  (if e + 1 <? N then e + 1 else 0) = (c + 1) mod Z.max 1 N.
Proof.
  intros HN He.
  assert (Hpos : 0 < Z.max 1 N) by lia.
  pose proof (Z.mod_pos_bound c _ Hpos) as Hb. rewrite <- He in Hb.
  rewrite <- Z.add_mod_idemp_l, <- He by lia.
  destruct (Z.ltb_spec (e + 1) N).
  - rewrite Z.mod_small; lia.
  - replace (e + 1) with (Z.max 1 N) by lia. now rewrite Z_mod_same_full.
Qed.

(** With [auto_reset] on, a call either emits the next line or, at the
    cap, reloads and emits the first one. *)
Lemma cycle_call (w : World) (a : Args) fd texts j (s : State) :
  a_reset a = false -> a_auto_reset a = true -> 0 <= a_max_steps a ->
  str_truthy (a_file_path a) = true ->
  w_files w !! call_path w a = Some fd ->
  _load_lines w (call_path w a) (a_csv_column a) = Ok (map PyStr texts) ->
  texts <> [] ->
  walking a (call_path w a) (fd_mtime fd) texts j s ->
  let e := if j <? a_max_steps a then j else 0 in
  exists s', next_prompt w a s = (s', Ok (emission a texts e))
             /\ walking a (call_path w a) (fd_mtime fd) texts (e + 1) s'.
Proof.
  intros Hr Hauto HN Hp Hf Hload Hne Hw e. subst e.
  destruct (Z.ltb_spec j (a_max_steps a)) as [Hlt|Hge].
  - exact (walk_call w a fd texts j s Hp Hf Hne Hw (or_intror Hlt)).
  - destruct texts as [|t ts]; [contradiction|].
    assert (Hc : capped a s = true).
    { unfold capped. destruct Hw as (_ & _ & _ & _ & ->).
      apply andb_true_iff. split; lia. }
    rewrite (auto_reset_reloads w a s fd _ _ Hauto (or_introl Hc) Hp Hf Hload).
    exact (emit_walking a _ _ (t :: ts) 0 _ Hne (fresh_walking _ _ a (t :: ts) Hr)).
Qed.

Lemma cycle_calls (w : World) (a : Args) fd texts :
  a_reset a = false -> a_auto_reset a = true -> 0 <= a_max_steps a ->
  str_truthy (a_file_path a) = true ->
  w_files w !! call_path w a = Some fd ->
  _load_lines w (call_path w a) (a_csv_column a) = Ok (map PyStr texts) ->
  texts <> [] ->
  forall (n : nat) c j (s : State),
    walking a (call_path w a) (fd_mtime fd) texts j s ->
    (if j <? a_max_steps a then j else 0) = c mod Z.max 1 (a_max_steps a) ->
    snd (calls w a n s)
    = map (fun i => Ok (emission a texts ((c + Z.of_nat i) mod Z.max 1 (a_max_steps a))))
        (seq 0 n).
Proof.
  intros Hr Hauto HN Hp Hf Hload Hne.
  induction n as [|n IH]; intros c j s Hw Hc; [reflexivity|].
  destruct (cycle_call w a fd texts j s Hr Hauto HN Hp Hf Hload Hne Hw)
    as (s' & Hcall & Hw').
  cbn [calls]. rewrite Hcall.
  specialize (IH (c + 1) _ s' Hw' (cycle_next _ c _ HN Hc)).
  destruct (calls w a n s') as [s2 rs]. simpl in IH. subst rs.
  cbn [snd seq map]. rewrite Z.add_0_r, <- Hc. f_equal.
  rewrite seq_shift_map. apply map_ext. intros i. do 3 f_equal. lia.
Qed.

(** X6: with [auto_reset] on and [max_steps = N >= 0], a new instance
    called again and again with the same inputs on a file whose lines
    are strings repeats its first [max 1 N] emissions for ever: call
    number [i+1] returns emission number [i mod (max 1 N)], so
    [step_index] runs 1, ..., N, 1, ..., N, and with [N = 0] or [N = 1]
    every call returns the line at [start_value] with [step_index = 1]
    and [done = true]. *)
Theorem auto_reset_cycles (w : World) (a : Args) fd texts (n : nat) :
  a_reset a = false -> a_auto_reset a = true -> 0 <= a_max_steps a ->
  str_truthy (a_file_path a) = true ->
  w_files w !! call_path w a = Some fd ->
  _load_lines w (call_path w a) (a_csv_column a) = Ok (map PyStr texts) ->
  texts <> [] ->
  snd (calls w a n __init__)
  = map (fun i => Ok (emission a texts (Z.of_nat i mod Z.max 1 (a_max_steps a))))
      (seq 0 n).
Proof.
  intros Hr Hauto HN Hp Hf Hload Hne.
  destruct texts as [|t ts]; [contradiction|].
  rewrite (calls_first w a n _ _ (first_call_as_loaded w a fd _ _ Hr Hp Hf Hload)).
  assert (H0 : (if 0 <? a_max_steps a then 0 else 0) = 0 mod Z.max 1 (a_max_steps a))
    by (rewrite Zmod_0_l; now destruct (0 <? a_max_steps a)).
  exact (cycle_calls w a fd (t :: ts) Hr Hauto HN Hp Hf Hload Hne n 0 0 _
           (fresh_walking _ _ a (t :: ts) Hr) H0).
Qed.

Lemma auto_reset_cycles_witness :
  snd (calls sample_world (sample_args 0 true) 3 __init__)
  = map (fun i => Ok (emission (sample_args 0 true)
                        [" red "; "green"; ""; "blue"]
                        (Z.of_nat i mod Z.max 1 (a_max_steps (sample_args 0 true)))))
      (seq 0 3).
Proof.
  apply (auto_reset_cycles sample_world (sample_args 0 true) colours_txt
           [" red "; "green"; ""; "blue"] 3);
    [reflexivity | reflexivity | simpl; lia | reflexivity | reflexivity | reflexivity
    | discriminate].
Defined.

End SequencerWalkFacts.
(** * The single-shot loader, and the loader against the sequencer *)
Section LoaderFacts.
Import AutoPromptLineLoader Sequencer.

(** X7: the single-shot loader is periodic in [line_index]: when
    [load_line] returns [(text, index, total)] for [line_index = i], it
    returns the same triple for every [i + k * total], [k] of either
    sign. *)
Theorem load_line_periodic (w : World) file_path (i : Z) col sw p idx t (k : Z) :
  PromptLineLoader.load_line w file_path i col sw = Ok (p, idx, t) ->
  PromptLineLoader.load_line w file_path (i + k * t) col sw = Ok (p, idx, t).
Proof.
  unfold PromptLineLoader.load_line.
  destruct (negb (str_truthy file_path)); [discriminate|].
  destruct (negb (isfile w _)); [discriminate|].
  destruct (if _ || _ then _ else _) as [lines|]; [|discriminate]. simpl.
  destruct (Z.eqb_spec (Z.of_nat (length lines)) 0) as [|Hne]; [discriminate|].
  intros Hload.
  assert (Ht : t = Z.of_nat (length lines)).
  { revert Hload. destruct (getitem _ _) as [raw|]; [|discriminate]. simpl.
    destruct (if sw then _ else _) as [q|]; [|discriminate]. simpl.
    now intros [= _ _ <-]. }
  subst t. rewrite wrap_periodic by exact Hne. exact Hload.
Qed.

Lemma load_line_periodic_witness :
  PromptLineLoader.load_line sample_world "/prompts/colours.txt" (2 + (-3) * 4) "" true
  = Ok (PyStr "green", 2, 4).
Proof.
  apply (load_line_periodic sample_world "/prompts/colours.txt" 2 "" true
           (PyStr "green") 2 4 (-3)).
  reflexivity.
Defined.

Lemma str_in_drop (x : string) (n : nat) (l : list string) :
  str_in x (drop n l) = true -> str_in x l = true.
Proof.
  revert l. induction n as [|n IH]; intros [|y l]; simpl; auto.
  intros Hd. unfold str_in in *. simpl. rewrite (IH l Hd). apply orb_true_r.
Qed.

Lemma zip_lookup_in (key : string) (fields : list string) : forall row v,
  zip_lookup key fields row = Some v -> str_in key fields = true.
Proof.
  induction fields as [|f fields IH]; intros [|c row] v; simpl; try discriminate.
  destruct (zip_lookup key fields row) as [v'|] eqn:Hz.
  - intros _. rewrite (IH row v' Hz). apply orb_true_r.
  - destruct (String.eqb_spec f key) as [->|]; [|discriminate].
    intros _. now rewrite String.eqb_refl.
Qed.

Lemma dict_row_get_in (fields row : list string) (column : string) v :
  dict_row_get fields row column = Some v -> str_in column fields = true.
Proof.
  unfold dict_row_get.
  destruct (str_in column (drop _ _)) eqn:Hd; [intros _; exact (str_in_drop _ _ _ Hd)|].
  destruct (zip_lookup column fields row) as [v'|] eqn:Hz; [|discriminate].
  intros _. exact (zip_lookup_in _ _ _ _ Hz).
Qed.

(** Where the loader's dict reader succeeds on at least one row, the
    header has the column and the sequencer's reader yields the same
    values. *)
Lemma read_csv_dict_agrees (fields : list string) (column : string) :
  forall rows lines,
    PromptLineLoader._read_csv_dict fields column rows = Ok lines ->
    lines = map (fun row => default (PyStr "") (dict_row_get fields row column)) rows
    /\ (lines <> [] -> str_in column fields = true).
Proof.
  induction rows as [|row rows IH]; intros lines; simpl.
  - intros [= <-]. split; [reflexivity | contradiction].
  - destruct (dict_row_get fields row column) as [v|] eqn:Hv; [|discriminate].
    destruct (PromptLineLoader._read_csv_dict fields column rows) as [l|];
      [|discriminate].
    simpl. intros [= <-]. destruct (IH l eq_refl) as [-> _].
    split; [reflexivity|]. intros _. exact (dict_row_get_in _ _ _ _ Hv).
Qed.

(** Off DOCX files, a non-empty list read by the loader is the list the
    sequencer reads. *)
Lemma loader_lines_agree (w : World) path col lines :
  lower (splitext_ext path) <> ".docx" ->
  (let ext := lower (splitext_ext path) in
   if String.eqb ext ".txt" || String.eqb ext ".log" then PromptLineLoader._read_txt w path
   else if String.eqb ext ".md" then PromptLineLoader._read_md w path
   else if String.eqb ext ".csv" then PromptLineLoader._read_csv w path col
   else if String.eqb ext ".docx" then PromptLineLoader._read_docx w path
   else Err (ValueError "Unsupported file extension. Use txt, md, csv, or docx."))
  = Ok lines ->
  lines <> [] ->
  _load_lines w path col = Ok lines.
Proof.
  intros Hdocx. unfold _load_lines. cbv zeta.
  destruct (_ || _); [now intros ?|].
  destruct (String.eqb _ ".md"); [now intros ?|].
  destruct (String.eqb _ ".csv").
  - unfold PromptLineLoader._read_csv, _read_csv.
    destruct (open_file w path) as [fd|]; [|discriminate]. simpl.
    destruct (str_truthy col); [|now intros ?].
    destruct (dict_fieldnames (fd_csv fd)) as [fields|].
    + intros Hread Hne.
      destruct (read_csv_dict_agrees _ _ _ _ Hread) as [-> Hin].
      now rewrite (Hin Hne).
    + intros [= <-]. contradiction.
  - destruct (String.eqb_spec (lower (splitext_ext path)) ".docx"); [contradiction|].
    discriminate.
Qed.

(** X8: off DOCX files the sequencer starts where the single-shot loader
    points: when [load_line] returns [(text, index, total)] for
    [line_index = start_value], the first call of a new sequencer with a
    cap other than 0 returns that text, that index and that total, with
    [step_index = 1]. *)
Theorem first_emission_is_load_line (w : World) (a : Args) p idx t :
  lower (splitext_ext (call_path w a)) <> ".docx" ->
  a_max_steps a <> 0 ->
  PromptLineLoader.load_line w (a_file_path a) (a_start_value a) (a_csv_column a)
    (a_strip_whitespace a) = Ok (p, idx, t) ->
  snd (next_prompt w a __init__)
  = Ok (p, idx, 1, t, (0 <=? a_max_steps a) && (a_max_steps a <=? 1)).
Proof.
  intros Hdocx Hmax. unfold PromptLineLoader.load_line.
  destruct (str_truthy (a_file_path a)) eqn:Hp; [|discriminate]. simpl.
  fold (call_path w a). unfold isfile.
  destruct (w_files w !! call_path w a) as [fd|] eqn:Hf; [|discriminate]. simpl.
  destruct (if _ || _ then _ else _) as [lines|] eqn:Hread; [|discriminate]. simpl.
  destruct (Z.eqb_spec (Z.of_nat (length lines)) 0) as [|Hne]; [discriminate|].
  assert (Hlines : lines <> []) by (intros ->; now apply Hne).
  pose proof (loader_lines_agree w _ _ _ Hdocx Hread Hlines) as Hload.
  destruct lines as [|l ls]; [contradiction|].
  intros Hline.
  rewrite (next_prompt_eq _ _ _ _ Hp Hf), should_reset_init, reset_state_eq, Hload.
  assert (Hc : capped a (fresh_state (call_path w a) (fd_mtime fd) a (l :: ls)) = false).
  { unfold capped. simpl. apply andb_false_iff. lia. }
  rewrite Hc. unfold emit, bind, get, lift, put, ret, _normalize_index.
  cbn [total_lines next_index lines emitted_steps fresh_state].
  destruct (Z.eqb_spec (Z.of_nat (length (l :: ls))) 0) as [|_]; [contradiction|].
  revert Hline.
  destruct (getitem _ _) as [raw|]; [|discriminate]. simpl.
  destruct (if a_strip_whitespace a then _ else _) as [q|]; [|discriminate]. simpl.
  now intros [= <- <- <-].
Qed.

Lemma first_emission_is_load_line_witness :
  snd (next_prompt sample_world (sample_args 2 false) __init__)
  = Ok (PyStr "red", 1, 1, 4,
        (0 <=? a_max_steps (sample_args 2 false))
        && (a_max_steps (sample_args 2 false) <=? 1)).
Proof.
  apply (first_emission_is_load_line sample_world (sample_args 2 false)
           (PyStr "red") 1 4);
    [vm_compute; discriminate | simpl; lia | reflexivity].
Defined.

End LoaderFacts.
(** * DOCX files in the two line nodes *)
Section DocxFacts.

Lemma docx_filter (paragraphs : list string) :
  map PyStr (List.filter (fun t => str_truthy (strip t)) paragraphs)
  = List.filter (fun v => match v with
                          | PyStr s => str_truthy (strip s)
                          | PyNone => false
                          end)
      (map PyStr (List.filter str_truthy paragraphs)).
Proof.
  induction paragraphs as [|t paragraphs IH]; [reflexivity|].
  cbn [List.filter]. destruct (str_truthy t) eqn:Ht.
  - cbn [map List.filter]. destruct (str_truthy (strip t)); cbn [map]; now rewrite IH.
  - destruct t; [|discriminate]. exact IH.
Qed.

(** X25: on a DOCX file the two line nodes count differently: the
    single-shot loader reads the paragraphs the sequencer reads minus
    those that hold whitespace only, which the sequencer keeps as lines;
    both fail alike when [python-docx] or the file is missing. *)
Theorem docx_loader_skips_whitespace (w : World) (path : string) :
  PromptLineLoader._read_docx w path
  = rbind (AutoPromptLineLoader._read_docx w path)
      (fun lines => Ok (List.filter (fun v => match v with
                                              | PyStr s => str_truthy (strip s)
                                              | PyNone => false
                                              end) lines)).
Proof.
  unfold PromptLineLoader._read_docx, AutoPromptLineLoader._read_docx.
  destruct (negb (w_docx_installed w)); [reflexivity|].
  destruct (open_file w path) as [fd|]; [|reflexivity].
  simpl. now rewrite docx_filter.
Qed.

End DocxFacts.
(** * Runs of the counter *)
Section CounterRunFacts.
Import SimpleNumberCounter Counter.

Lemma float_eqb_nan_r (x : float) : SFeqb x S754_nan = false.
Proof. now destruct x. Qed.

Lemma float_ne_refl (x : float) : x <> S754_nan -> float_ne x x = false.
Proof.
  unfold float_ne, SFeqb, SFcompare.
  destruct x as [s|s| |s m e]; intros Hx; try contradiction;
    try (now destruct s).
  destruct s; rewrite Z.compare_refl, Pos.compare_cont_refl; reflexivity.
Qed.

(** A call on a running counter that the inputs find current. *)
Lemma count_at (a : Args) nx ls j :
  a_reset a = false -> a_start_value a <> S754_nan -> a_step a <> S754_nan ->
  count a (running a nx ls j)
  = if (0 <=? a_max_steps a) && (a_max_steps a <=? j) then
      if a_auto_reset a then
        (running a (float_add (a_start_value a) (a_step a)) (a_start_value a) 1,
         (a_start_value a, 1, (0 <=? a_max_steps a) && (a_max_steps a <=? 1)))
      else (running a nx ls j, (ls, j, true))
    else (running a (float_add nx (a_step a)) nx (j + 1),
          (nx, j + 1, (0 <=? a_max_steps a) && (a_max_steps a <=? j + 1))).
Proof.
  intros Hr Hs Hst. unfold count, _should_reset. rewrite Hr. simpl.
  rewrite (float_ne_refl _ Hs), (float_ne_refl _ Hst), Z.eqb_refl, Bool.eqb_reflx.
  simpl.
  destruct ((0 <=? a_max_steps a) && (a_max_steps a <=? j));
    [destruct (a_auto_reset a)|]; reflexivity.
Qed.

Lemma count_init (a : Args) :
  a_reset a = false -> a_start_value a <> S754_nan -> a_step a <> S754_nan ->
  count a __init__ = count a (running a (a_start_value a) (a_start_value a) 0).
Proof.
  intros Hr Hs Hst. rewrite (count_at a _ _ 0 Hr Hs Hst).
  unfold count, _should_reset. rewrite Hr. simpl.
  destruct ((0 <=? a_max_steps a) && (a_max_steps a <=? 0));
    [destruct (a_auto_reset a)|]; reflexivity.
Qed.

Lemma below_cap (cap j : Z) :
  cap < 0 \/ j < cap -> (0 <=? cap) && (cap <=? j) = false.
Proof.
  intros [Hc|Hc]; apply andb_false_iff; [left | right]; apply Z.leb_gt; lia.
Qed.

Lemma at_cap (cap j : Z) : 0 <= cap <= j -> (0 <=? cap) && (cap <=? j) = true.
Proof. intros Hc. apply andb_true_iff. split; apply Z.leb_le; lia. Qed.

Lemma of_N_pred (k : N) : (1 <= k)%N -> Z.of_N (N.pred k) = Z.of_N k - 1.
Proof. intros Hk. rewrite N2Z.inj_pred by lia. lia. Qed.

Lemma state_after_succ (a : Args) (n : N) (s : State) :
  state_after a (N.succ n) s = fst (count a (state_after a n s)).
Proof. unfold state_after. now rewrite N.iter_succ. Qed.

Lemma count_from_init (a : Args) :
  a_reset a = false -> a_start_value a <> S754_nan -> a_step a <> S754_nan ->
  forall n : N,
    count a (state_after a n __init__)
    = count a (state_after a n (running a (a_start_value a) (a_start_value a) 0)).
Proof.
  intros Hr Hs Hst. induction n as [|n IH] using N.peano_ind.
  - exact (count_init a Hr Hs Hst).
  - now rewrite !state_after_succ, IH.
Qed.

(** Below the cap the counter has emitted [n] values after [n] calls. *)
Lemma state_after_walk (a : Args) :
  a_reset a = false -> a_start_value a <> S754_nan -> a_step a <> S754_nan ->
  forall n : N,
    a_max_steps a < 0 \/ Z.of_N n <= a_max_steps a ->
    state_after a n (running a (a_start_value a) (a_start_value a) 0)
    = running a (progression (a_start_value a) (a_step a) n)
        (progression (a_start_value a) (a_step a) (N.pred n)) (Z.of_N n).
Proof.
  intros Hr Hs Hst. induction n as [|n IH] using N.peano_ind; intros Hcap.
  - reflexivity.
  - rewrite state_after_succ, IH by lia. rewrite (count_at a _ _ _ Hr Hs Hst).
    rewrite below_cap by lia.
    cbn [fst]. rewrite progression_succ, N.pred_succ.
    f_equal. lia.
Qed.

(** X9: a new counter called with the same inputs, neither of them NaN,
    without [reset], returns at call number [k] below or at the cap
    ([max_steps < 0] or [k <= max_steps]) the value
    [start_value + step + ... + step] with [k-1] rounded additions,
    [step_index = k], and [done] exactly when [k] reaches a nonnegative
    [max_steps]. *)
Theorem counter_counts_to_cap (a : Args) (k : N) :
  a_reset a = false -> a_start_value a <> S754_nan -> a_step a <> S754_nan ->
  (1 <= k)%N ->
  a_max_steps a < 0 \/ Z.of_N k <= a_max_steps a ->
  nth_call a k __init__
  = (progression (a_start_value a) (a_step a) (N.pred k), Z.of_N k,
     (0 <=? a_max_steps a) && (a_max_steps a <=? Z.of_N k)).
Proof.
  intros Hr Hs Hst Hk Hcap. unfold nth_call.
  pose proof (of_N_pred k Hk) as Hp.
  rewrite (count_from_init a Hr Hs Hst), (state_after_walk a Hr Hs Hst) by lia.
  rewrite (count_at a _ _ _ Hr Hs Hst).
  rewrite below_cap by lia.
  cbn [snd]. replace (Z.of_N (N.pred k) + 1) with (Z.of_N k) by lia. reflexivity.
Qed.

Lemma counter_counts_to_cap_witness :
  nth_call (capped_by_two_and_half 3 false) 3 __init__
  = (progression zero two_and_half (N.pred 3), Z.of_N 3,
     (0 <=? 3) && (3 <=? Z.of_N 3)).
Proof.
  apply (counter_counts_to_cap (capped_by_two_and_half 3 false) 3);
    [reflexivity | discriminate | discriminate | lia | right; simpl; lia].
Defined.

Lemma state_after_add (a : Args) (m n : N) (s : State) :
  state_after a (m + n) s = state_after a m (state_after a n s).
Proof. unfold state_after. now rewrite N.iter_add. Qed.

Lemma state_after_fixpoint (a : Args) (x : State) (n : N) :
  fst (count a x) = x -> state_after a n x = x.
Proof.
  intros Hf. induction n as [|n IH] using N.peano_ind; [reflexivity|].
  now rewrite state_after_succ, IH.
Qed.

(** X10: with [max_steps = N >= 0] and [auto_reset] off, every call
    after the [N]-th of a new counter (inputs unchanged, not NaN, no
    [reset]) returns the last value emitted, [step_index = N] and
    [done = true]; with [N = 0] that is [start_value] with
    [step_index = 0], for no value was emitted. *)
Theorem counter_holds_at_cap (a : Args) (k : N) :
  a_reset a = false -> a_start_value a <> S754_nan -> a_step a <> S754_nan ->
  a_auto_reset a = false ->
  0 <= a_max_steps a < Z.of_N k ->
  nth_call a k __init__
  = (progression (a_start_value a) (a_step a) (N.pred (Z.to_N (a_max_steps a))),
     a_max_steps a, true).
Proof.
  intros Hr Hs Hst Hauto Hk. unfold nth_call.
  pose proof (of_N_pred k ltac:(lia)) as Hp.
  rewrite (count_from_init a Hr Hs Hst).
  set (n := Z.to_N (a_max_steps a)).
  replace (N.pred k) with (N.pred k - n + n)%N by lia.
  rewrite state_after_add, (state_after_walk a Hr Hs Hst) by lia.
  assert (Hfix : count a (running a (progression (a_start_value a) (a_step a) n)
                            (progression (a_start_value a) (a_step a) (N.pred n))
                            (Z.of_N n))
                 = (running a (progression (a_start_value a) (a_step a) n)
                      (progression (a_start_value a) (a_step a) (N.pred n)) (Z.of_N n),
                    (progression (a_start_value a) (a_step a) (N.pred n),
                     Z.of_N n, true))).
  { rewrite (count_at a _ _ _ Hr Hs Hst), Hauto.
    rewrite at_cap by lia.
    reflexivity. }
  rewrite state_after_fixpoint by now rewrite Hfix.
  rewrite Hfix. cbn [snd]. do 2 f_equal. lia.
Qed.

Lemma counter_holds_at_cap_witness :
  nth_call (capped_by_two_and_half 3 false) 7 __init__
  = (progression zero two_and_half (N.pred (Z.to_N 3)), 3, true).
Proof.
  apply (counter_holds_at_cap (capped_by_two_and_half 3 false) 7);
    [reflexivity | discriminate | discriminate | reflexivity | simpl; lia].
Defined.

(** With [auto_reset] on, the counter after [c] calls is ready for
    emission number [c mod (max 1 N)]. *)
Lemma count_cycle (a : Args) :
  a_reset a = false -> a_start_value a <> S754_nan -> a_step a <> S754_nan ->
  a_auto_reset a = true -> 0 <= a_max_steps a ->
  forall c : N,
    let e := Z.of_N c mod Z.max 1 (a_max_steps a) in
    count a (state_after a c (running a (a_start_value a) (a_start_value a) 0))
    = (running a (progression (a_start_value a) (a_step a) (Z.to_N (e + 1)))
         (progression (a_start_value a) (a_step a) (Z.to_N e)) (e + 1),
       (progression (a_start_value a) (a_step a) (Z.to_N e), e + 1,
        a_max_steps a <=? e + 1)).
Proof.
  intros Hr Hs Hst Hauto HN.
  assert (H0 : (0 <=? a_max_steps a) = true) by (apply Z.leb_le; lia).
  induction c as [|c IH] using N.peano_ind; intros e.
  - subst e. rewrite Zmod_0_l. change (state_after a 0 ?s) with s.
    rewrite (count_at a _ _ _ Hr Hs Hst), Hauto, H0.
    destruct (a_max_steps a <=? 0); reflexivity.
  - rewrite state_after_succ, IH. cbn [fst].
    set (e0 := Z.of_N c mod Z.max 1 (a_max_steps a)) in *.
    assert (He0 : 0 <= e0) by (apply Z.mod_pos_bound; lia).
    pose proof (cycle_next (a_max_steps a) (Z.of_N c) e0 HN eq_refl) as Hnext.
    replace (Z.of_N c + 1) with (Z.of_N (N.succ c)) in Hnext by lia.
    fold e in Hnext.
    rewrite (count_at a _ _ _ Hr Hs Hst), Hauto, H0. cbn [andb].
    destruct (Z.ltb_spec (e0 + 1) (a_max_steps a)) as [Hlt|Hge].
    + replace (a_max_steps a <=? e0 + 1) with false by (symmetry; apply Z.leb_gt; lia).
      rewrite <- Hnext.
      replace (Z.to_N (e0 + 1 + 1)) with (N.succ (Z.to_N (e0 + 1))) by lia.
      now rewrite progression_succ.
    + replace (a_max_steps a <=? e0 + 1) with true by (symmetry; apply Z.leb_le; lia).
      rewrite <- Hnext. reflexivity.
Qed.

(** X11: with [auto_reset] on and [max_steps = N >= 0], a new counter
    (inputs unchanged, not NaN, no [reset]) repeats its first [max 1 N]
    emissions for ever: call number [k] returns the value of emission
    [e = (k-1) mod (max 1 N)], that is [start_value] plus [e] rounded
    additions of [step], with [step_index = e + 1] and [done] exactly
    when [e + 1] reaches [N]. *)
Theorem counter_auto_reset_cycles (a : Args) (k : N) :
  a_reset a = false -> a_start_value a <> S754_nan -> a_step a <> S754_nan ->
  a_auto_reset a = true -> 0 <= a_max_steps a -> (1 <= k)%N ->
  let e := (Z.of_N k - 1) mod Z.max 1 (a_max_steps a) in
  nth_call a k __init__
  = (progression (a_start_value a) (a_step a) (Z.to_N e), e + 1,
     a_max_steps a <=? e + 1).
Proof.
  intros Hr Hs Hst Hauto HN Hk e. unfold nth_call.
  pose proof (of_N_pred k Hk) as Hp.
  rewrite (count_from_init a Hr Hs Hst), (count_cycle a Hr Hs Hst Hauto HN).
  cbn [snd]. replace (Z.of_N (N.pred k)) with (Z.of_N k - 1) by lia. reflexivity.
Qed.

Lemma counter_auto_reset_cycles_witness :
  nth_call (capped_by_two_and_half 3 true) 5 __init__
  = (progression zero two_and_half (Z.to_N ((Z.of_N 5 - 1) mod Z.max 1 3)),
     (Z.of_N 5 - 1) mod Z.max 1 3 + 1,
     3 <=? (Z.of_N 5 - 1) mod Z.max 1 3 + 1).
Proof.
  apply (counter_auto_reset_cycles (capped_by_two_and_half 3 true) 5);
    [reflexivity | discriminate | discriminate | reflexivity | simpl; lia | lia].
Defined.

(** X12: a NaN among the inputs stalls the counter: [!=] holds between
    NaN and every float, the stored one included, so every call resets,
    and every call, whatever the state, returns [start_value]; the
    [step_index] is 1, or 0 when [max_steps = 0] holds the counter
    before its first emission. *)
Theorem nan_input_stalls_counter (a : Args) (s : State) (k : N) :
  a_start_value a = S754_nan \/ a_step a = S754_nan ->
  count a s
  = count a __init__
  /\ nth_call a k s
     = (a_start_value a,
        (if (a_max_steps a =? 0) && negb (a_auto_reset a) then 0 else 1),
        (0 <=? a_max_steps a) && (a_max_steps a <=? 1)).
Proof.
  intros Hnan.
  assert (Hsr : forall st, _should_reset a st = true).
  { intros st. unfold _should_reset, float_ne.
    destruct (a_reset a); [reflexivity|].
    destruct (negb (initialized st)); [reflexivity|].
    destruct Hnan as [-> | ->]; rewrite float_eqb_nan_r; simpl;
      [reflexivity | now destruct (negb (SFeqb _ _))]. }
  assert (Hc : forall st, count a st
                 = if (0 <=? a_max_steps a) && (a_max_steps a <=? 0) then
                     if a_auto_reset a then advance a (_reset_state a st)
                     else (_reset_state a st, (a_start_value a, 0, true))
                   else advance a (_reset_state a st)).
  { intros st. unfold count. rewrite Hsr. reflexivity. }
  split; [now rewrite !Hc|].
  unfold nth_call. rewrite Hc. unfold advance.
  cbn [_reset_state next_value emitted_steps]. change (0 + 1) with 1.
  destruct (Z.leb_spec 0 (a_max_steps a)), (Z.leb_spec (a_max_steps a) 0),
    (Z.eqb_spec (a_max_steps a) 0), (a_auto_reset a), (Z.leb_spec (a_max_steps a) 1);
    simpl; try reflexivity; lia.
Qed.

Lemma nan_input_stalls_counter_witness :
  nth_call by_nan 4 (state_after by_two_and_half 2 __init__)
  = (a_start_value by_nan,
     (if (a_max_steps by_nan =? 0) && negb (a_auto_reset by_nan) then 0 else 1),
     (0 <=? a_max_steps by_nan) && (a_max_steps by_nan <=? 1)).
Proof.
  exact (proj2 (nan_input_stalls_counter by_nan (state_after by_two_and_half 2 __init__)
                  4 (or_intror eq_refl))).
Defined.

(** Exact sums on a common scale, from any start. *)
Lemma progression_scaled (s0 m e : Z) (n : N) :
  0 <= s0 -> 0 < m -> -900 <= e <= 900 -> s0 + Z.of_N n * m < 2 ^ 53 ->
  progression (float_of_scaled s0 e) (float_of_scaled m e) n
  = float_of_scaled (s0 + Z.of_N n * m) e.
Proof.
  intros Hs0 Hm He. induction n as [|n IH] using N.peano_ind; intros Hb.
  - simpl. now rewrite Z.add_0_r.
  - rewrite progression_succ, IH by nia.
    replace (s0 + Z.of_N (N.succ n) * m) with (s0 + Z.of_N n * m + m) by lia.
    destruct (Z.eq_dec (s0 + Z.of_N n * m) 0) as [->|Hnz].
    + destruct m as [|p|p]; try lia.
      change (0 + Z.pos p) with (Z.pos p).
      rewrite float_of_scaled_pos by lia. reflexivity.
    + apply float_add_exact; nia.
Qed.

Lemma float_of_scaled_not_nan (m e : Z) :
  0 <= m < 2 ^ 53 -> -900 <= e <= 900 -> float_of_scaled m e <> S754_nan.
Proof.
  intros Hm He. destruct m as [|p|p]; try lia; [discriminate|].
  rewrite float_of_scaled_pos by lia. discriminate.
Qed.

(** X13: the counter is exact on a common binary scale
    ([-900 <= e <= 900]): with
    [start_value = s0 * 2^e] and [step = m * 2^e] for integers
    [s0 >= 0], [0 < m < 2^53] (for [e = 0]: a nonnegative integer start
    and a positive integer step), call number [k] below or at the cap returns
    exactly [(s0 + (k-1) * m) * 2^e], as long as [s0 + (k-1) * m] stays
    below [2^53]. *)
Theorem counter_exact_on_common_scale (a : Args) (s0 m e : Z) (k : N) :
  a_start_value a = float_of_scaled s0 e -> a_step a = float_of_scaled m e ->
  0 <= s0 -> 0 < m < 2 ^ 53 -> -900 <= e <= 900 ->
  a_reset a = false -> (1 <= k)%N ->
  a_max_steps a < 0 \/ Z.of_N k <= a_max_steps a ->
  s0 + (Z.of_N k - 1) * m < 2 ^ 53 ->
  nth_call a k __init__
  = (float_of_scaled (s0 + (Z.of_N k - 1) * m) e, Z.of_N k,
     (0 <=? a_max_steps a) && (a_max_steps a <=? Z.of_N k)).
Proof.
  intros Hstart Hstep Hs0 Hm He Hr Hk Hcap Hb.
  assert (Hpos : 0 <= (Z.of_N k - 1) * m) by (apply Z.mul_nonneg_nonneg; lia).
  assert (Hs : a_start_value a <> S754_nan)
    by (rewrite Hstart; apply float_of_scaled_not_nan; lia).
  assert (Hst : a_step a <> S754_nan)
    by (rewrite Hstep; apply float_of_scaled_not_nan; lia).
  pose proof (of_N_pred k Hk) as Hp.
  unfold nth_call.
  rewrite (count_from_init a Hr Hs Hst), (state_after_walk a Hr Hs Hst) by lia.
  rewrite (count_at a _ _ _ Hr Hs Hst).
  rewrite below_cap by lia.
  cbn [snd]. rewrite Hstart, Hstep, progression_scaled by (rewrite ?Hp; lia).
  replace (Z.of_N (N.pred k) + 1) with (Z.of_N k) by lia.
  replace (Z.of_N (N.pred k)) with (Z.of_N k - 1) by lia. reflexivity.
Qed.

Lemma counter_exact_on_common_scale_witness :
  nth_call (capped_by_two_and_half 3 false) 3 __init__
  = (float_of_scaled (0 + (Z.of_N 3 - 1) * 5) (-1), Z.of_N 3,
     (0 <=? 3) && (3 <=? Z.of_N 3)).
Proof.
  apply (counter_exact_on_common_scale (capped_by_two_and_half 3 false) 0 5 (-1) 3);
    [reflexivity | reflexivity | lia | lia | lia | reflexivity | lia
    | right; simpl; lia | simpl; lia].
Defined.

End CounterRunFacts.
(** * The composer: cache and modification time *)
Section ComposerCacheFacts.
Import WildcardPromptAssembler Composer ComposerRuns.

(** X14: the cache is keyed on the modification time alone: once a file
    has been loaded, a request for the same source with the same flags
    is answered from the cache, without reading and without touching the
    instance, as long as the file's modification time is the stored
    one, even when the file's content has changed. *)
Theorem unchanged_mtime_serves_cache (w w' : World) path col st ig
    (self s1 : Assembler) recs fd fd' :
  _load_file_lines w path col st ig self = (s1, Ok recs) ->
  w_files w !! path = Some fd ->
  w_files w' !! path = Some fd' ->
  fd_mtime fd' = fd_mtime fd ->
  _load_file_lines w' path col st ig s1 = (s1, Ok recs).
Proof.
  intros Hload Hf Hf' Hm.
  destruct (load_ok_entry _ _ _ _ _ _ _ _ Hload)
    as (fd0 & e & Hf0 & He & Hem & Hes & Hei & Her).
  rewrite Hf in Hf0. injection Hf0 as <-.
  rewrite (load_file_lines_eq _ _ _ _ _ _ fd' Hf').
  rewrite (cache_hit_fields s1 _ e (fd_mtime fd') st ig He) by congruence.
  now rewrite Her.
Qed.

Lemma unchanged_mtime_serves_cache_witness :
  _load_file_lines (with_file colours_path (colours_edited 1700000000) sample_world)
    colours_path None true true loaded_once
  = (loaded_once, Ok colours_stripped).
Proof.
  apply (unchanged_mtime_serves_cache sample_world
           (with_file colours_path (colours_edited 1700000000) sample_world)
           colours_path None true true __init__ loaded_once colours_stripped
           colours_txt (colours_edited 1700000000));
    reflexivity.
Defined.

(** X15: a changed modification time invalidates the entry: the next
    request for the source reads the file again, once, and replaces the
    entry by the records read, stamped with the new time. *)
Theorem changed_mtime_reads_again (w w' : World) path col st ig
    (self s1 s2 : Assembler) recs recs' fd fd' :
  _load_file_lines w path col st ig self = (s1, Ok recs) ->
  w_files w !! path = Some fd ->
  w_files w' !! path = Some fd' ->
  fd_mtime fd' <> fd_mtime fd ->
  _load_file_lines w' path col st ig s1 = (s2, Ok recs') ->
  read_by_extension w' path col st ig s1 = (log_open path s1, Ok recs')
  /\ opened s2 = path :: opened s1
  /\ _cache s2
     = <[cache_key path col :=
           {| mtime := fd_mtime fd'; records := recs';
              strip_flag := st; ignore_blank_flag := ig |}]> (_cache s1).
Proof.
  intros Hload Hf Hf' Hm Hload'.
  destruct (load_ok_entry _ _ _ _ _ _ _ _ Hload)
    as (fd0 & e & Hf0 & He & Hem & Hes & Hei & Her).
  rewrite Hf in Hf0. injection Hf0 as <-.
  rewrite (load_file_lines_eq _ _ _ _ _ _ fd' Hf') in Hload'.
  assert (Hmiss : cache_hit s1 (cache_key path col) (fd_mtime fd') st ig = None).
  { unfold cache_hit, cache_valid. rewrite He, Hem.
    destruct (Z.eqb_spec (fd_mtime fd) (fd_mtime fd')); [congruence | reflexivity]. }
  rewrite Hmiss in Hload'.
  destruct (read_by_extension_shape w' path col) as [b Hshape].
  destruct (Hshape st ig) as (r & Hr & Hb).
  rewrite Hr in Hload' |- *.
  destruct r as [recs0|err]; [|discriminate].
  rewrite (Hb recs0 eq_refl) in Hload' |- *.
  injection Hload' as <- <-. repeat split.
Qed.

Lemma changed_mtime_reads_again_witness :
  read_by_extension (with_file colours_path (colours_edited 1700000009) sample_world)
    colours_path None true true loaded_once
  = (log_open colours_path loaded_once, Ok [ {| line_index := 1; text := PyStr "cyan" |} ])
  /\ opened (fst (_load_file_lines
                    (with_file colours_path (colours_edited 1700000009) sample_world)
                    colours_path None true true loaded_once))
     = colours_path :: opened loaded_once.
Proof.
  destruct (changed_mtime_reads_again sample_world
              (with_file colours_path (colours_edited 1700000009) sample_world)
              colours_path None true true __init__ loaded_once
              (fst (_load_file_lines
                      (with_file colours_path (colours_edited 1700000009) sample_world)
                      colours_path None true true loaded_once))
              colours_stripped [ {| line_index := 1; text := PyStr "cyan" |} ]
              colours_txt (colours_edited 1700000009)
              eq_refl eq_refl eq_refl ltac:(simpl; lia) eq_refl) as (Hread & Hopened & _).
  split; [exact Hread | exact Hopened].
Defined.

End ComposerCacheFacts.
(** * The composer: what a selection and a call change *)
Section ComposerRunFacts.
Import WildcardPromptAssembler Composer ComposerRuns.
Context {R : Type} `{PyRandom R}.

(** [_select_line_from_file], step by step. *)
Lemma select_eq (w : World) path col mode st ig (rng : R) (self : Assembler) :
  _select_line_from_file w path col mode st ig rng self
  = if negb (isfile w (w_expanduser w path)) then
      (self, Err (FileNotFoundError "Prompt file not found"))
    else
      match _load_file_lines w (w_expanduser w path) col st ig self with
      | (s1, Err e) => (s1, Err e)
      | (s1, Ok []) => (s1, Err (ValueError "No usable lines found in file"))
      | (s1, Ok (r :: rs)) =>
          let key := cache_key (w_expanduser w path) col in
          let total := Z.of_nat (length (r :: rs)) in
          if String.eqb mode "SEQUENTIAL" then
            let position := default 0 (_positions s1 !! key) in
            match getitem (r :: rs) (position mod total) with
            | Ok record =>
                (set_positions (insert key (position + 1)) s1,
                 Ok (text record, line_index record, total, rng))
            | Err e => (set_positions (insert key (position + 1)) s1, Err e)
            end
          else
            match getitem (r :: rs) (fst (randrange rng total)) with
            | Ok record =>
                (s1, Ok (text record, line_index record, total,
                         snd (randrange rng total)))
            | Err e => (s1, Err e)
            end
      end.
Proof.
  unfold _select_line_from_file.
  destruct (negb (isfile w (w_expanduser w path))); [reflexivity|].
  unfold bind at 1.
  destruct (_load_file_lines _ _ _ _ _ self) as [s1 [[|r rs]|e]]; try reflexivity.
  unfold bind at 1.
  destruct (String.eqb mode "SEQUENTIAL").
  - unfold bind at 1, get. unfold bind at 1, put. unfold ret at 1.
    unfold bind at 1, lift. cbn [fst snd].
    destruct (getitem _ _); reflexivity.
  - unfold ret at 1. unfold bind at 1, lift. cbn [fst snd].
    destruct (getitem _ _); reflexivity.
Qed.

Lemma advanced_refl (p : gmap string Z) : advanced p p.
Proof. intros key c Hc. exists c. split; [exact Hc | lia]. Qed.

Lemma advanced_trans (p q r : gmap string Z) :
  advanced p q -> advanced q r -> advanced p r.
Proof.
  intros Hpq Hqr key c Hc. destruct (Hpq key c Hc) as (c1 & H1 & Hle1).
  destruct (Hqr key c1 H1) as (c2 & H2 & Hle2). exists c2. split; [exact H2 | lia].
Qed.

Lemma advanced_insert (p : gmap string Z) key :
  advanced p (<[key := default 0 (p !! key) + 1]> p).
Proof.
  intros k c Hc. destruct (decide (k = key)) as [->|Hne].
  - rewrite lookup_insert_eq, Hc. simpl. exists (c + 1). split; [reflexivity | lia].
  - rewrite lookup_insert_ne by congruence. exists c. split; [exact Hc | lia].
Qed.

(** What a selection changes. *)
Lemma select_frame (w : World) path col mode st ig (rng : R)
    (self s1 : Assembler) r :
  _select_line_from_file w path col mode st ig rng self = (s1, r) ->
  let key := cache_key (w_expanduser w path) col in
  _global_step s1 = _global_step self
  /\ (forall k, k <> key -> _positions s1 !! k = _positions self !! k)
  /\ (mode <> "SEQUENTIAL" -> _positions s1 = _positions self)
  /\ (mode = "SEQUENTIAL" -> forall out, r = Ok out ->
        _positions s1 !! key = Some (default 0 (_positions self !! key) + 1))
  /\ advanced (_positions self) (_positions s1).
Proof.
  rewrite select_eq. intros Hsel key.
  destruct (negb (isfile w (w_expanduser w path))).
  { injection Hsel as <- <-. repeat split; auto using advanced_refl. discriminate. }
  destruct (_load_file_lines w (w_expanduser w path) col st ig self)
    as [s0 r0] eqn:Hload.
  destruct (load_file_lines_frame _ _ _ _ _ _ _ _ Hload) as [Hpos Hstep].
  assert (Hsame : forall r', (forall out, r' <> Ok out) ->
            (s0, r') = (s1, r) ->
            _global_step s1 = _global_step self
            /\ (forall k, k <> key -> _positions s1 !! k = _positions self !! k)
            /\ (mode <> "SEQUENTIAL" -> _positions s1 = _positions self)
            /\ (mode = "SEQUENTIAL" -> forall out, r = Ok out ->
                  _positions s1 !! key = Some (default 0 (_positions self !! key) + 1))
            /\ advanced (_positions self) (_positions s1)).
  { intros r' Hr' [= <- <-]. rewrite Hpos, Hstep.
    repeat split; auto using advanced_refl.
    intros Hm out Hout. now destruct (Hr' out). }
  destruct r0 as [[|rec recs]|e].
  1,3: refine (Hsame _ _ Hsel); discriminate.
  cbv zeta in Hsel.
  destruct (String.eqb_spec mode "SEQUENTIAL") as [->|Hmode].
  - assert (Hs1 : s1 = set_positions
                         (insert (cache_key (w_expanduser w path) col)
                            (default 0 (_positions s0 !! cache_key (w_expanduser w path) col)
                             + 1)) s0)
      by (destruct (getitem _ _); now injection Hsel as <- _).
    subst s1. cbn [_positions _global_step set_positions]. rewrite Hpos, Hstep.
    fold key. split; [reflexivity|]. split.
    { intros k Hk. now rewrite lookup_insert_ne by congruence. }
    split; [congruence|]. split.
    { intros _ out _. now rewrite lookup_insert_eq. }
    apply advanced_insert.
  - destruct (getitem _ _) as [record|e];
      injection Hsel as <- <-; rewrite Hpos, Hstep;
      repeat split; auto using advanced_refl; contradiction.
Qed.

(** X16: a selection touches one cursor at most: it leaves the call
    counter alone and every cursor but the source's own; in SEQUENTIAL
    mode a successful selection moves that cursor one step on, and in
    any other mode no cursor moves at all. *)
Theorem selection_touches_one_cursor (w : World) path col mode st ig (rng : R)
    (self s1 : Assembler) r :
  _select_line_from_file w path col mode st ig rng self = (s1, r) ->
  let key := cache_key (w_expanduser w path) col in
  _global_step s1 = _global_step self
  /\ (forall k, k <> key -> _positions s1 !! k = _positions self !! k)
  /\ (mode <> "SEQUENTIAL" -> _positions s1 = _positions self)
  /\ (mode = "SEQUENTIAL" -> forall out, r = Ok out ->
        _positions s1 !! key = Some (default 0 (_positions self !! key) + 1)).
Proof.
  intros Hsel key.
  destruct (select_frame _ _ _ _ _ _ _ _ _ _ Hsel) as (H1 & H2 & H3 & H4 & _).
  auto.
Qed.

(** [_gather_files] changes neither the cursors nor the call counter. *)
Lemma gather_files_frame (w : World) mode manual manifest dir glob max
    (self s1 : Assembler) r :
  _gather_files w mode manual manifest dir glob max self = (s1, r) ->
  _positions s1 = _positions self /\ _global_step s1 = _global_step self.
Proof.
  unfold _gather_files, _load_manifest, _scan_directory.
  repeat match goal with
         | |- context [if ?b then _ else _] => destruct b
         end;
    try (unfold ret, raise; now intros [= <- _]).
  unfold bind. rewrite open_eq.
  destruct (w_files w !! _); unfold ret; now intros [= <- _].
Qed.

(** The loop of [compose] leaves the call counter alone, never moves a
    cursor back, and moves none outside SEQUENTIAL mode. *)
Lemma compose_loop_frame (w : World) (a : Args) inserts files :
  forall idx (rng : R) parts segments self s1 r,
    compose_loop w a inserts files idx rng parts segments self = (s1, r) ->
    _global_step s1 = _global_step self
    /\ advanced (_positions self) (_positions s1)
    /\ (a_selection_mode a <> "SEQUENTIAL" -> _positions s1 = _positions self).
Proof.
  induction files as [|f files IH]; intros idx rng parts segments self s1 r.
  - intros [= <- _]. repeat split; auto using advanced_refl.
  - cbn [compose_loop].
    destruct (_split_path_and_column f (a_csv_column a)) as [path column].
    unfold bind at 1.
    destruct (_select_line_from_file _ _ _ _ _ _ _ self) as [s0 r0] eqn:Hsel.
    destruct (select_frame w path column (a_selection_mode a)
                (a_strip_whitespace a) (a_ignore_blank_lines a) rng self s0 r0 Hsel)
      as (Hstep & _ & Hrand & _ & Hadv).
    destruct r0 as [[[[t i] total] rng']|e].
    + intros Hloop. destruct (IH _ _ _ _ _ _ _ Hloop) as (Hstep' & Hadv' & Hrand').
      split; [congruence|]. split; [eauto using advanced_trans|].
      intros Hm. rewrite Hrand', Hrand; auto.
    + intros [= <- _]. auto.
Qed.

(** [compose], step by step. *)
Lemma compose_eq (w : World) (a : Args) (self : Assembler) :
  compose w a self
  = let base := if a_reset a then fst (_reset_state self) else self in
    match _gather_files w (a_mode a) (a_manual_paths a) (a_manifest_path a)
            (a_directory_path a) (a_directory_glob a) (a_max_files a) base with
    | (s0, Err e) => (s0, Err e)
    | (s0, Ok []) =>
        (s0, Err (ValueError
                    "Wildcard Prompt Assembler: No files found for the selected mode."))
    | (s0, Ok (f :: fs)) =>
        let inserts := _parse_custom_inserts (a_custom_inserts a) in
        let rng := if 0 <=? a_random_seed a
                   then Random (a_random_seed a + (_global_step s0 + 1) - 1)
                   else Random (w_entropy w) in
        match compose_loop w a inserts (f :: fs) 0 rng
                (if str_truthy (a_prefix_text a) then [PyStr (a_prefix_text a)] else [])
                [] (set_global_step (_global_step s0 + 1) s0) with
        | (s2, Err e) => (s2, Err e)
        | (s2, Ok (parts, segments)) =>
            let parts := (parts ++ insert_at inserts (length (f :: fs)))%list in
            let parts := if str_truthy (a_suffix_text a)
                         then (parts ++ [PyStr (a_suffix_text a)])%list else parts in
            let prompt := if a_auto_space a then join " " (truthy_parts parts)
                          else join "" (truthy_parts parts) in
            (s2, Ok (prompt,
                     {| rep_mode := a_mode a; rep_selection_mode := a_selection_mode a;
                        rep_prompt := prompt; rep_segments := segments |},
                     Z.of_nat (length (f :: fs))))
        end
    end.
Proof.
  unfold compose. unfold bind at 1.
  assert (Hreset : (if a_reset a then _reset_state else ret tt) self
                   = ((if a_reset a then fst (_reset_state self) else self), Ok tt))
    by now destruct (a_reset a).
  rewrite Hreset. cbv zeta. unfold bind at 1.
  destruct (_gather_files _ _ _ _ _ _ _ _) as [s0 [[|f fs]|e]]; try reflexivity.
  unfold bind at 1. unfold _make_rng, bind at 1, get. unfold bind at 1, put.
  destruct (0 <=? a_random_seed a); unfold ret at 1; unfold bind at 1;
    destruct (compose_loop _ _ _ _ _ _ _ _ _) as [s2 [[parts segments]|e]];
    reflexivity.
Qed.

(** X17: without [reset], a call of [compose], whether it succeeds or
    raises, counts at most one call, and exactly one when it succeeds;
    it never drops a cursor nor moves one back; and outside SEQUENTIAL
    mode it leaves all cursors where they are. *)
Theorem compose_only_advances (w : World) (a : Args) (self s1 : Assembler) r :
  a_reset a = false ->
  compose w a self = (s1, r) ->
  _global_step self <= _global_step s1 <= _global_step self + 1
  /\ (forall out, r = Ok out -> _global_step s1 = _global_step self + 1)
  /\ advanced (_positions self) (_positions s1)
  /\ (a_selection_mode a <> "SEQUENTIAL" -> _positions s1 = _positions self).
Proof.
  intros Hreset. rewrite compose_eq, Hreset. cbv zeta.
  destruct (_gather_files _ _ _ _ _ _ _ self) as [s0 r0] eqn:Hfiles.
  destruct (gather_files_frame _ _ _ _ _ _ _ _ _ _ Hfiles) as [Hpos Hstep].
  destruct r0 as [[|f fs]|e].
  1,3: intros [= <- <-]; rewrite Hpos, Hstep;
       repeat split; auto using advanced_refl; try lia; discriminate.
  destruct (compose_loop _ _ _ _ _ _ _ _ _) as [s2 r2] eqn:Hloop.
  destruct (compose_loop_frame _ _ _ _ _ _ _ _ _ _ _ Hloop) as (Hstep2 & Hadv & Hrand).
  cbn [_global_step _positions set_global_step] in Hstep2, Hadv, Hrand.
  rewrite Hpos in Hadv, Hrand. rewrite Hstep in Hstep2.
  destruct r2 as [[parts segments]|e]; intros [= <- <-];
    repeat split; auto; lia.
Qed.

Lemma slice_to_length {A} (l : list A) (n : Z) :
  0 <= n -> Z.of_nat (length (slice_to l n)) <= n.
Proof.
  intros Hn. unfold slice_to. destruct (Z.ltb_spec n 0); [lia|].
  rewrite length_take. lia.
Qed.

Lemma gather_files_bound (w : World) mode manual manifest dir glob max
    (self s1 : Assembler) files :
  _gather_files w mode manual manifest dir glob max self = (s1, Ok files) ->
  0 <= max -> Z.of_nat (length files) <= max.
Proof.
  unfold _gather_files, _parse_manual_paths, _load_manifest, _scan_directory.
  repeat match goal with
         | |- context [if ?b then _ else _] => destruct b
         end;
    try (unfold ret, raise; intros [= _ <-]; apply slice_to_length);
    try discriminate.
  unfold bind. rewrite open_eq.
  destruct (w_files w !! _); unfold ret; [|discriminate].
  intros [= _ <-]. apply slice_to_length.
Qed.

(** A successful selection reports at least one usable line. *)
Lemma select_ok_total (w : World) path col mode st ig (rng rng' : R)
    (self s1 : Assembler) t i total :
  _select_line_from_file w path col mode st ig rng self = (s1, Ok (t, i, total, rng')) ->
  1 <= total.
Proof.
  rewrite select_eq.
  destruct (negb (isfile w _)); [discriminate|].
  destruct (_load_file_lines _ _ _ _ _ self) as [s0 [[|r rs]|e]]; try discriminate.
  cbv zeta. destruct (String.eqb mode "SEQUENTIAL");
    (destruct (getitem _ _); [|discriminate]); intros [= _ _ _ <- _];
    simpl length; lia.
Qed.

(** The loop of [compose] appends one segment per source, in order. *)
Lemma compose_loop_segments (w : World) (a : Args) inserts files :
  forall idx (rng : R) parts segs self s1 parts' segs',
    compose_loop w a inserts files idx rng parts segs self = (s1, Ok (parts', segs')) ->
    exists new,
      segs' = (segs ++ new)%list
      /\ map seg_source new
         = map (fun f => _split_path_and_column f (a_csv_column a)) files
      /\ Forall (fun seg => 1 <= seg_total_lines seg) new.
Proof.
  induction files as [|f files IH]; intros idx rng parts segs self s1 parts' segs'.
  - intros [= _ _ <-]. exists []. rewrite app_nil_r. repeat split. constructor.
  - cbn [compose_loop].
    destruct (_split_path_and_column f (a_csv_column a)) as [path column] eqn:Hsplit.
    unfold bind at 1.
    destruct (_select_line_from_file _ _ _ _ _ _ _ self)
      as [s0 [[[[t i] total] rng']|e]] eqn:Hsel; [|discriminate].
    intros Hloop. destruct (IH _ _ _ _ _ _ _ _ Hloop) as (new & -> & Hmap & Hall).
    exists ({| seg_file := path; seg_column := column; seg_line_index := i;
               seg_total_lines := total; seg_text := t |} :: new).
    rewrite <- app_assoc. split; [reflexivity|].
    split; [cbn [map]; now rewrite Hmap, Hsplit|].
    constructor; [|exact Hall]. exact (select_ok_total _ _ _ _ _ _ _ _ _ _ _ _ _ Hsel).
Qed.

(** X18: a successful call of [compose] reports its sources: [file_count]
    is the number of segments, at least 1 and, for [max_files >= 0], at
    most [max_files]; the segments name, in order, the path and column of
    each source gathered; every segment has [total_lines >= 1]; and the
    report carries the prompt returned and the two modes of the call. *)
Theorem compose_reports_its_sources (w : World) (a : Args) (self s1 : Assembler)
    prompt rep n :
  compose w a self = (s1, Ok (prompt, rep, n)) ->
  n = Z.of_nat (length (rep_segments rep))
  /\ 1 <= n
  /\ (0 <= a_max_files a -> n <= a_max_files a)
  /\ (forall s0 files,
        _gather_files w (a_mode a) (a_manual_paths a) (a_manifest_path a)
          (a_directory_path a) (a_directory_glob a) (a_max_files a)
          (if a_reset a then fst (_reset_state self) else self) = (s0, Ok files) ->
        map seg_source (rep_segments rep)
        = map (fun f => _split_path_and_column f (a_csv_column a)) files)
  /\ Forall (fun seg => 1 <= seg_total_lines seg) (rep_segments rep)
  /\ rep_prompt rep = prompt
  /\ rep_mode rep = a_mode a
  /\ rep_selection_mode rep = a_selection_mode a.
Proof.
  rewrite compose_eq. cbv zeta.
  destruct (_gather_files _ _ _ _ _ _ _ _) as [s0 [[|f fs]|e]] eqn:Hfiles;
    try discriminate.
  pose proof (gather_files_bound _ _ _ _ _ _ _ _ _ _ Hfiles) as Hbound.
  destruct (compose_loop _ _ _ _ _ _ _ _ _) as [s2 [[parts segments]|e]] eqn:Hloop;
    [|discriminate].
  destruct (compose_loop_segments _ _ _ _ _ _ _ _ _ _ _ _ Hloop) as (new & -> & Hmap & Hall).
  intros [= <- <- <- <-]. cbn [rep_segments rep_prompt rep_mode rep_selection_mode app].
  assert (Hlen : length new = length (f :: fs)).
  { rewrite <- (length_map seg_source new), Hmap. apply length_map. }
  repeat split; try assumption.
  - now rewrite Hlen.
  - simpl length. lia.
  - now intros s0' files [= _ <-].
Qed.

(** X19: a call that finds no source fails before it counts or reads:
    in MANUAL mode, when the box holds no entry (blank lines and comments
    only) or [max_files] is 0, [compose] raises the no-files error and
    leaves the instance as it was, or as [reset] left it; with a mode
    that is none of the three it raises a [ValueError] in the same
    way. *)
Theorem compose_without_sources (w : World) (a : Args) (self : Assembler) :
  let base := if a_reset a then fst (_reset_state self) else self in
  (a_mode a = "MANUAL" ->
   path_entries (splitlines (a_manual_paths a)) = [] \/ a_max_files a = 0 ->
   compose w a self
   = (base, Err (ValueError
                   "Wildcard Prompt Assembler: No files found for the selected mode.")))
  /\ (a_mode a <> "MANUAL" -> a_mode a <> "CONFIG_FILE" -> a_mode a <> "DIRECTORY" ->
      exists msg, compose w a self = (base, Err (ValueError msg))).
Proof.
  intros base. split.
  - intros Hmode Hnone.
    assert (Hempty : _parse_manual_paths (a_manual_paths a) (a_max_files a) = []).
    { unfold _parse_manual_paths. destruct Hnone as [-> | ->]; [|reflexivity].
      unfold slice_to. destruct (_ <? 0); apply take_nil. }
    rewrite compose_eq. fold base. cbv zeta.
    unfold _gather_files. rewrite Hmode, String.eqb_refl, Hempty. reflexivity.
  - intros H1 H2 H3. rewrite compose_eq. fold base. cbv zeta.
    unfold _gather_files.
    destruct (String.eqb_spec (a_mode a) "MANUAL"); [contradiction|].
    destruct (String.eqb_spec (a_mode a) "CONFIG_FILE"); [contradiction|].
    destruct (String.eqb_spec (a_mode a) "DIRECTORY"); [contradiction|].
    eexists. reflexivity.
Qed.

End ComposerRunFacts.

Section ComposerRunExamples.
Import WildcardPromptAssembler Composer ComposerRuns.

Lemma selection_touches_one_cursor_witness :
  _global_step (fst selected_once) = _global_step composed_twice
  /\ _positions (fst selected_once) !! cache_key "/prompts/names.csv" (Some "name")
     = _positions composed_twice !! cache_key "/prompts/names.csv" (Some "name").
Proof.
  destruct (selection_touches_one_cursor (H := lcg) sample_world colours_path None
              "SEQUENTIAL" true true 0 composed_twice (fst selected_once)
              (snd selected_once) ltac:(vm_compute; reflexivity))
    as (Hstep & Hother & _).
  split; [exact Hstep | apply Hother; discriminate].
Defined.

Lemma compose_only_advances_witness :
  _global_step composed_twice <= _global_step (fst composed_randomly)
    <= _global_step composed_twice + 1
  /\ _positions (fst composed_randomly) = _positions composed_twice.
Proof.
  destruct (compose_only_advances (H := lcg) sample_world
              (sample_compose "RANDOM" 7 false) composed_twice (fst composed_randomly)
              (snd composed_randomly) eq_refl ltac:(vm_compute; reflexivity))
    as (Hstep & _ & _ & Hrand).
  split; [exact Hstep | apply Hrand; discriminate].
Defined.

Lemma compose_reports_its_sources_witness :
  2 = Z.of_nat (length (rep_segments sample_report))
  /\ Forall (fun seg => 1 <= seg_total_lines seg) (rep_segments sample_report)
  /\ rep_prompt sample_report = "a red alice".
Proof.
  destruct (compose_reports_its_sources (H := lcg) sample_world
              (sample_compose "SEQUENTIAL" 7 false) __init__ _ "a red alice"
              sample_report 2 ltac:(vm_compute; reflexivity))
    as (Hn & _ & _ & _ & Hall & Hprompt & _).
  split; [exact Hn|]. split; [exact Hall | exact Hprompt].
Defined.

Lemma compose_without_sources_witness :
  compose (H := lcg) sample_world (no_sources true) composed_twice
  = (fst (_reset_state composed_twice),
     Err (ValueError "Wildcard Prompt Assembler: No files found for the selected mode.")).
Proof.
  apply (proj1 (compose_without_sources (H := lcg) sample_world (no_sources true)
                  composed_twice));
    [reflexivity | left; reflexivity].
Defined.

End ComposerRunExamples.


(** * Stripping, and the composer's parsing of its sources *)
Section ParseFacts.
Import WildcardPromptAssembler Composer ComposerRuns.

Lemma rstrip_cons (c : ascii) (s : string) :
  rstrip (String c s)
  = match rstrip s with
    | EmptyString => if is_space c then EmptyString else String c EmptyString
    | r => String c r
    end.
Proof. reflexivity. Qed.

Lemma rstrip_idempotent (s : string) : rstrip (rstrip s) = rstrip s.
Proof.
  induction s as [|c s IH]; [reflexivity|].
  rewrite rstrip_cons. destruct (rstrip s) as [|c' r] eqn:Hr.
  - destruct (is_space c) eqn:Hc; [reflexivity|].
    rewrite rstrip_cons. simpl rstrip. now rewrite Hc.
  - rewrite rstrip_cons, IH. reflexivity.
Qed.

Lemma lstrip_cases (s : string) :
  lstrip s = EmptyString
  \/ exists c t, lstrip s = String c t /\ is_space c = false.
Proof.
  induction s as [|c s IH]; [now left|]. simpl.
  destruct (is_space c) eqn:Hc; [exact IH|]. right. now exists c, s.
Qed.

Lemma lstrip_rstrip (c : ascii) (t : string) :
  is_space c = false -> lstrip (rstrip (String c t)) = rstrip (String c t).
Proof.
  intros Hc. rewrite rstrip_cons.
  destruct (rstrip t); rewrite ?Hc; simpl; now rewrite Hc.
Qed.

Lemma strip_idempotent (s : string) : strip (strip s) = strip s.
Proof.
  unfold strip. destruct (lstrip_cases s) as [-> | (c & t & -> & Hc)]; [reflexivity|].
  now rewrite lstrip_rstrip, rstrip_idempotent.
Qed.

Lemma lstrip_snoc (s : string) (c : ascii) :
  is_space c = true ->
  lstrip (snoc s c)
  = match lstrip s with
    | EmptyString => EmptyString
    | r => snoc r c
    end.
Proof.
  intros Hc. induction s as [|x s IH].
  - simpl. now rewrite Hc.
  - change (snoc (String x s) c) with (String x (snoc s c)). simpl.
    destruct (is_space x); [exact IH | reflexivity].
Qed.

Lemma rstrip_snoc (s : string) (c : ascii) :
  is_space c = true -> rstrip (snoc s c) = rstrip s.
Proof.
  intros Hc. induction s as [|x s IH].
  - simpl. now rewrite Hc.
  - change (snoc (String x s) c) with (String x (snoc s c)).
    now rewrite !rstrip_cons, IH.
Qed.

Lemma strip_snoc (s : string) (c : ascii) :
  is_space c = true -> strip (snoc s c) = strip s.
Proof.
  intros Hc. unfold strip. rewrite (lstrip_snoc s c Hc).
  destruct (lstrip s) as [|x r]; [reflexivity|]. now apply rstrip_snoc.
Qed.

(** The entries kept from a list of lines. *)
Lemma path_entries_spec (raw : list string) :
  Forall (fun e => str_truthy e = true /\ startswith_hash e = false /\ strip e = e
                   /\ exists line, In line raw /\ e = strip line)
    (path_entries raw).
Proof.
  unfold path_entries. induction raw as [|l raw IH]; [constructor|].
  assert (Hrest : Forall (fun e => str_truthy e = true /\ startswith_hash e = false
                                   /\ strip e = e
                                   /\ exists line, In line (l :: raw) /\ e = strip line)
                    (List.filter (fun l0 => str_truthy l0 && negb (startswith_hash l0))
                       (map strip raw))).
  { eapply Forall_impl; [exact IH|]. intros e (H1 & H2 & H3 & line & Hin & He).
    repeat split; auto. exists line. split; [now right | exact He]. }
  cbn [map List.filter].
  destruct (str_truthy (strip l) && negb (startswith_hash (strip l))) eqn:Hok;
    [|exact Hrest].
  apply andb_true_iff in Hok as [Ht Hh]. apply negb_true_iff in Hh.
  constructor; [|exact Hrest].
  repeat split; auto using strip_idempotent. exists l. split; [now left | reflexivity].
Qed.

(** X20: every entry [_parse_manual_paths] returns is a line of the box
    with the surrounding whitespace stripped, is not empty, does not
    start with ["#"], and has no surrounding whitespace left; and for
    [max_files >= 0] at most [max_files] entries are returned. *)
Theorem manual_paths_entries (manual_paths : string) (max_files : Z) :
  Forall (fun e => str_truthy e = true /\ startswith_hash e = false /\ strip e = e
                   /\ exists line, In line (splitlines manual_paths) /\ e = strip line)
    (_parse_manual_paths manual_paths max_files)
  /\ (0 <= max_files ->
      Z.of_nat (length (_parse_manual_paths manual_paths max_files)) <= max_files).
Proof.
  unfold _parse_manual_paths. split.
  - unfold slice_to. destruct (max_files <? 0); apply Forall_take, path_entries_spec.
  - intros Hmax. unfold slice_to. destruct (Z.ltb_spec max_files 0); [lia|].
    rewrite length_take. lia.
Qed.

Lemma split_once_skip (cur : string) (x : ascii) (s : string) :
  Ascii.eqb x ":"%char = false -> s <> EmptyString ->
  split_once cur (String x s) = split_once (snoc cur x) s.
Proof.
  intros Hx Hs. destruct s as [|y s]; [contradiction|]. simpl. now rewrite Hx.
Qed.

Lemma snoc_append (cur : string) (x : ascii) (p : string) :
  String.append (snoc cur x) p = String.append cur (String x p).
Proof.
  induction cur as [|c cur IH]; [reflexivity|].
  change (String c (String.append (snoc cur x) p)
          = String c (String.append cur (String x p))).
  now rewrite IH.
Qed.

Lemma append_empty_r (s : string) : String.append s EmptyString = s.
Proof.
  induction s as [|c s IH]; [reflexivity|].
  change (String c (String.append s EmptyString) = String c s). now rewrite IH.
Qed.

(** The first ["::"] of [p :: c], for [p] without colon, is the one
    written. *)
Lemma split_once_at (p c : string) :
  no_colon p = true ->
  forall cur,
    split_once cur (String.append p (String ":"%char (String ":"%char c)))
    = Some (String.append cur p, c).
Proof.
  induction p as [|x p IH]; intros Hp cur.
  - simpl. now rewrite append_empty_r.
  - simpl in Hp. apply andb_true_iff in Hp as [Hx Hp]. apply negb_true_iff in Hx.
    change (String.append (String x p) ?s) with (String x (String.append p s)).
    rewrite split_once_skip by (exact Hx || now destruct p).
    rewrite (IH Hp). do 2 f_equal. apply snoc_append.
Qed.

Lemma split_once_none (s : string) :
  no_colon s = true -> forall cur, split_once cur s = None.
Proof.
  induction s as [|x s IH]; intros Hs cur; [reflexivity|].
  simpl in Hs. apply andb_true_iff in Hs as [Hx Hs]. apply negb_true_iff in Hx.
  destruct s as [|y s]; [reflexivity|].
  rewrite split_once_skip by (exact Hx || discriminate). now apply IH.
Qed.

Lemma or_none_not_empty (s : string) : or_none s <> Some EmptyString.
Proof. unfold or_none. now destruct s. Qed.

(** X21: an entry [path::column], its path without colon, names the
    stripped path and the stripped column, whatever the node's
    [csv_column]; an entry without colon takes the node's [csv_column];
    in both cases an empty column counts as none, and the path comes
    without surrounding whitespace. *)
Theorem entry_column_overrides_default (entry default_column : string) :
  (forall p c, no_colon p = true ->
     entry = String.append p (String ":"%char (String ":"%char c)) ->
     _split_path_and_column entry default_column = (strip p, or_none (strip c)))
  /\ (no_colon entry = true ->
      _split_path_and_column entry default_column
      = (strip entry, or_none (strip default_column)))
  /\ snd (_split_path_and_column entry default_column) <> Some EmptyString
  /\ strip (fst (_split_path_and_column entry default_column))
     = fst (_split_path_and_column entry default_column).
Proof.
  unfold _split_path_and_column. repeat split.
  - intros p c Hp ->. now rewrite (split_once_at p c Hp EmptyString).
  - intros He. now rewrite (split_once_none entry He).
  - destruct (split_once EmptyString entry) as [[p c]|]; apply or_none_not_empty.
  - destruct (split_once EmptyString entry) as [[p c]|]; apply strip_idempotent.
Qed.

Lemma entry_column_overrides_default_witness :
  _split_path_and_column " /prompts/names.csv :: name " "score"
  = (strip " /prompts/names.csv ", or_none (strip " name ")).
Proof.
  apply (proj1 (entry_column_overrides_default " /prompts/names.csv :: name " "score")
           " /prompts/names.csv " " name ");
    reflexivity.
Defined.

(** X22: sources do not collide: for paths without colon, two sources
    get the same key, and so share a cache entry and a cursor, only when
    they have the same path and the same column, where no column and the
    empty column are the same. *)
Theorem cache_key_injective (p1 p2 : string) (c1 c2 : option string) :
  no_colon p1 = true -> no_colon p2 = true ->
  cache_key p1 c1 = cache_key p2 c2 ->
  p1 = p2 /\ or_empty c1 = or_empty c2
  /\ (c1 <> Some EmptyString -> c2 <> Some EmptyString -> c1 = c2).
Proof.
  intros H1 H2 Hkey.
  pose proof (split_once_at p1 (or_empty c1) H1 EmptyString) as Hs1.
  pose proof (split_once_at p2 (or_empty c2) H2 EmptyString) as Hs2.
  change (String.append p1 (String ":"%char (String ":"%char (or_empty c1))))
    with (cache_key p1 c1) in Hs1.
  change (String.append p2 (String ":"%char (String ":"%char (or_empty c2))))
    with (cache_key p2 c2) in Hs2.
  rewrite Hkey, Hs2 in Hs1. injection Hs1 as Hp Hc.
  split; [now symmetry|]. split; [now symmetry|].
  intros Hn1 Hn2. destruct c1 as [x1|], c2 as [x2|]; simpl in Hc; subst;
    try reflexivity; contradiction.
Qed.

Lemma cache_key_injective_witness :
  "/prompts/names.csv" = "/prompts/names.csv"
  /\ or_empty (Some "name") = or_empty (Some "name")
  /\ (Some "name" <> Some EmptyString -> Some "name" <> Some EmptyString ->
      Some "name" = Some "name").
Proof.
  apply (cache_key_injective "/prompts/names.csv" "/prompts/names.csv"
           (Some "name") (Some "name"));
    reflexivity.
Defined.

(** Read as a file and split as a string, a text whose only line
    boundary is ["\n"] gives the same lines, up to the whitespace
    [strip] removes. *)
Lemma file_lines_splitlines (s : string) :
  plain_lines s = true ->
  forall cur, map strip (file_lines_from cur s) = map strip (splitlines_from cur s).
Proof.
  induction s as [|c s IH]; intros Hs cur; [reflexivity|].
  simpl in Hs. apply andb_true_iff in Hs as [Hc Hs].
  cbn [file_lines_from splitlines_from].
  destruct (Ascii.eqb_spec c newline) as [->|Hnl].
  - change (Ascii.eqb newline carriage_return) with false.
    change (is_linebreak newline) with true. cbn [map].
    rewrite strip_snoc by reflexivity. now rewrite IH.
  - rewrite orb_false_r in Hc. apply negb_true_iff in Hc.
    destruct (Ascii.eqb_spec c carriage_return) as [->|_]; [discriminate|].
    rewrite Hc. now apply IH.
Qed.

(** X23: a manifest lists sources as the [manual_paths] box does: for a
    manifest file whose text has no line boundary other than ["\n"],
    [_load_manifest] opens the file once and returns the entries
    [_parse_manual_paths] returns for that text. *)
Theorem manifest_lists_like_manual_paths (w : World) (manifest_path : string)
    (max_files : Z) (fd : FileData) (self : Assembler) :
  str_truthy manifest_path = true ->
  w_files w !! w_expanduser w manifest_path = Some fd ->
  plain_lines (fd_text fd) = true ->
  _load_manifest w manifest_path max_files self
  = (log_open (w_expanduser w manifest_path) self,
     Ok (_parse_manual_paths (fd_text fd) max_files)).
Proof.
  intros Hp Hf Hplain. unfold _load_manifest, isfile. rewrite Hp, Hf. simpl.
  unfold bind. rewrite open_eq, Hf. unfold modify, ret. simpl.
  unfold _parse_manual_paths, path_entries, file_lines, splitlines.
  now rewrite (file_lines_splitlines _ Hplain).
Qed.

Lemma manifest_lists_like_manual_paths_witness :
  _load_manifest manifest_world "/prompts/list.txt" 16 __init__
  = (log_open (w_expanduser manifest_world "/prompts/list.txt") __init__,
     Ok (_parse_manual_paths (fd_text manifest_txt) 16)).
Proof.
  apply (manifest_lists_like_manual_paths manifest_world "/prompts/list.txt" 16
           manifest_txt __init__);
    reflexivity.
Defined.

End ParseFacts.
(** * The composer: the flags and the texts selected *)
Section ComposerTextFacts.
Import WildcardPromptAssembler Composer ComposerTexts.
Context {R : Type} `{PyRandom R}.

Lemma getitem_ok_lookup {A} (l : list A) (i : Z) (x : A) :
  getitem l i = Ok x -> exists n, l !! n = Some x.
Proof.
  unfold getitem. destruct (_ && _); [|discriminate].
  destruct (l !! _) as [y|] eqn:Hy; [|discriminate].
  intros [= <-]. eauto.
Qed.

Lemma collect_formatted (st ig : bool) (items : list (Z * pyval)) : forall recs,
  collect st ig items = Ok recs ->
  Forall (fun r => formatted st ig (text r)) recs.
Proof.
  induction items as [|[idx raw] items IH]; intros recs.
  - intros [= <-]. constructor.
  - cbn [collect].
    assert (Hfmt : forall t, (if st then pyval_strip raw else Ok raw) = Ok t ->
                             st = true -> exists s, t = PyStr s /\ strip s = s).
    { intros t Ht ->. destruct raw as [|s]; [discriminate|].
      injection Ht as <-. exists (strip s). split; [reflexivity|].
      apply strip_idempotent. }
    destruct (if st then pyval_strip raw else Ok raw) as [t|]; [|discriminate].
    simpl rbind. destruct (ig && negb (pyval_truthy t)) eqn:Hdrop; [apply IH|].
    destruct (collect st ig items) as [rest|]; [|discriminate].
    intros [= <-]. constructor; [|now apply IH].
    split; [|now apply Hfmt]. intros ->. simpl in Hdrop.
    now apply negb_false_iff in Hdrop.
Qed.

Lemma cache_formatted_eq (s s' : Assembler) :
  _cache s' = _cache s -> cache_formatted s -> cache_formatted s'.
Proof. intros Heq Hs key e. rewrite Heq. apply Hs. Qed.

Lemma read_by_extension_cache (w : World) path col st ig (self s' : Assembler) r :
  read_by_extension w path col st ig self = (s', r) -> _cache s' = _cache self.
Proof.
  destruct (read_by_extension_shape w path col) as [b Hshape].
  destruct (Hshape st ig) as (r0 & Hr & _). rewrite Hr.
  intros [= <- _]. now destruct b.
Qed.

(** A load keeps the cache formatted and returns formatted texts. *)
Lemma load_formatted (w : World) path col st ig (self s1 : Assembler) r :
  cache_formatted self ->
  _load_file_lines w path col st ig self = (s1, r) ->
  cache_formatted s1
  /\ (forall recs, r = Ok recs -> Forall (fun x => formatted st ig (text x)) recs).
Proof.
  intros Hc. destruct (w_files w !! path) as [fd|] eqn:Hf.
  2:{ rewrite (load_file_lines_missing _ _ _ _ _ _ Hf). intros [= <- <-].
      split; [exact Hc | discriminate]. }
  rewrite (load_file_lines_eq _ _ _ _ _ _ fd Hf).
  destruct (cache_hit self _ _ st ig) as [recs|] eqn:Hhit.
  - intros [= <- <-]. split; [exact Hc|]. intros recs' [= <-].
    destruct (cache_hit_inv _ _ _ _ _ _ Hhit) as (e & He & Hvalid & <-).
    destruct (cache_valid_flags _ _ _ _ Hvalid) as (_ & <- & <-).
    exact (Hc _ _ He).
  - destruct (read_by_extension w path col st ig self) as [s' [recs|err]] eqn:Hread;
      pose proof (read_by_extension_cache _ _ _ _ _ _ _ _ Hread) as Hcache;
      intros [= <- <-].
    + assert (Hrecs : Forall (fun x => formatted st ig (text x)) recs).
      { destruct (read_by_extension_collects _ _ _ _ _ _ _ _ Hread) as [items Hitems].
        exact (collect_formatted _ _ _ _ Hitems). }
      split; [|now intros recs' [= <-]].
      intros key e. cbn [_cache set_cache].
      destruct (decide (key = cache_key path col)) as [->|Hne].
      * rewrite lookup_insert_eq. intros [= <-]. exact Hrecs.
      * rewrite lookup_insert_ne by congruence. rewrite Hcache. apply Hc.
    + split; [exact (cache_formatted_eq _ _ Hcache Hc) | discriminate].
Qed.

(** A selection keeps the cache formatted and returns a formatted
    text. *)
Lemma select_formatted (w : World) path col mode st ig (rng : R)
    (self s1 : Assembler) r :
  cache_formatted self ->
  _select_line_from_file w path col mode st ig rng self = (s1, r) ->
  cache_formatted s1
  /\ (forall t i total rng', r = Ok (t, i, total, rng') -> formatted st ig t).
Proof.
  intros Hc. rewrite select_eq.
  destruct (negb (isfile w _)).
  { intros [= <- <-]. split; [exact Hc | discriminate]. }
  destruct (_load_file_lines w _ col st ig self) as [s0 r0] eqn:Hload.
  destruct (load_formatted _ _ _ _ _ _ _ _ Hc Hload) as [Hc0 Hrecs].
  destruct r0 as [[|rec recs]|e].
  1,3: intros [= <- <-]; split; [exact Hc0 | discriminate].
  specialize (Hrecs _ eq_refl). cbv zeta.
  assert (Hpick : forall j record, getitem (rec :: recs) j = Ok record ->
                                   formatted st ig (text record)).
  { intros j record Hj. destruct (getitem_ok_lookup _ _ _ Hj) as [n Hn].
    exact (proj1 (Forall_lookup _ _) Hrecs n record Hn). }
  destruct (String.eqb mode "SEQUENTIAL");
    (destruct (getitem _ _) as [record|e] eqn:Hget; intros [= <- <-];
     (split; [exact Hc0|]); [|discriminate]);
    intros t i total rng' [= <- _ _ _]; exact (Hpick _ _ Hget).
Qed.

Lemma compose_loop_formatted (w : World) (a : Args) inserts files :
  forall idx (rng : R) parts segs self s1 r,
    cache_formatted self ->
    Forall (fun seg => formatted (a_strip_whitespace a) (a_ignore_blank_lines a)
                         (seg_text seg)) segs ->
    compose_loop w a inserts files idx rng parts segs self = (s1, r) ->
    cache_formatted s1
    /\ (forall parts' segs', r = Ok (parts', segs') ->
          Forall (fun seg => formatted (a_strip_whitespace a) (a_ignore_blank_lines a)
                               (seg_text seg)) segs').
Proof.
  induction files as [|f files IH]; intros idx rng parts segs self s1 r Hc Hsegs.
  - intros [= <- <-]. split; [exact Hc|]. now intros parts' segs' [= _ <-].
  - cbn [compose_loop].
    destruct (_split_path_and_column f (a_csv_column a)) as [path column].
    unfold bind at 1.
    destruct (_select_line_from_file _ _ _ _ _ _ _ self) as [s0 r0] eqn:Hsel.
    destruct (select_formatted _ _ _ _ _ _ _ _ _ _ Hc Hsel) as [Hc0 Ht].
    destruct r0 as [[[[t i] total] rng']|e].
    + apply IH; [exact Hc0|]. apply Forall_app. split; [exact Hsegs|].
      constructor; [|constructor]. exact (Ht _ _ _ _ eq_refl).
    + intros [= <- <-]. split; [exact Hc0 | discriminate].
Qed.

Lemma compose_formatted (w : World) (a : Args) (self : Assembler) :
  cache_formatted self ->
  cache_formatted (fst (compose w a self))
  /\ formatted_outcome a (snd (compose w a self)).
Proof.
  intros Hc. rewrite compose_eq. cbv zeta.
  assert (Hbase : cache_formatted (if a_reset a then fst (_reset_state self) else self))
    by now destruct (a_reset a).
  destruct (_gather_files _ _ _ _ _ _ _ _) as [s0 r0] eqn:Hfiles.
  pose proof (cache_formatted_eq _ _ (gather_files_cache _ _ _ _ _ _ _ _ _ _ Hfiles) Hbase)
    as Hc0.
  destruct r0 as [[|f fs]|e]; [now split | | now split].
  destruct (compose_loop _ _ _ _ _ _ _ _ _) as [s2 r2] eqn:Hloop.
  destruct (compose_loop_formatted w a _ _ _ _ _ _
              (set_global_step (_global_step s0 + 1) s0) _ _ Hc0 ltac:(constructor) Hloop)
    as [Hc2 Hsegs].
  destruct r2 as [[parts segments]|e]; [|now split].
  split; [exact Hc2|]. exact (Hsegs _ _ eq_refl).
Qed.

(** X24: in every run from a new instance, whatever the inputs and the
    files of each call, the texts a successful call selects are texts
    read under that call's flags, served from the cache or not: with
    [ignore_blank_lines] on no segment is blank, and with
    [strip_whitespace] on every segment is a string without surrounding
    whitespace. *)
Theorem segments_follow_the_flags (calls : list (World * Args)) :
  Forall2 (fun c r => formatted_outcome (snd c) r) calls
    (snd (compose_all calls __init__))
  /\ cache_formatted (fst (compose_all calls __init__)).
Proof.
  assert (Hgen : forall self, cache_formatted self ->
            Forall2 (fun c r => formatted_outcome (snd c) r) calls
              (snd (compose_all calls self))
            /\ cache_formatted (fst (compose_all calls self))).
  { induction calls as [|[w a] calls IH]; intros self Hc.
    - split; [constructor | exact Hc].
    - cbn [compose_all].
      destruct (compose_formatted w a self Hc) as [Hc1 Hout].
      destruct (compose w a self) as [s1 r]. cbn [fst snd] in Hc1, Hout.
      destruct (IH s1 Hc1) as [Hrest Hc2].
      destruct (compose_all calls s1) as [s2 rs]. cbn [fst snd] in *.
      split; [constructor; assumption | exact Hc2]. }
  apply Hgen. intros key e. cbn [_cache __init__]. rewrite lookup_empty. discriminate.
Qed.

End ComposerTextFacts.
(** * Plain text files in the composer and in the line nodes *)
Section PlainTextFacts.
Import WildcardPromptAssembler Composer ComposerLines.

Lemma rstrip_newline_cons (c : ascii) (s : string) :
  rstrip_newline (String c s)
  = match rstrip_newline s with
    | EmptyString => if Ascii.eqb c newline then EmptyString else String c EmptyString
    | r => String c r
    end.
Proof. reflexivity. Qed.

Lemma rstrip_newline_snoc (s : string) :
  rstrip_newline (snoc s newline) = rstrip_newline s.
Proof.
  induction s as [|x s IH]; [reflexivity|].
  change (snoc (String x s) newline) with (String x (snoc s newline)).
  now rewrite !rstrip_newline_cons, IH.
Qed.

Lemma rstrip_newline_keeps (s : string) (c : ascii) :
  Ascii.eqb c newline = false -> rstrip_newline (snoc s c) = snoc s c.
Proof.
  intros Hc. induction s as [|x s IH].
  - simpl. now rewrite Hc.
  - change (snoc (String x s) c) with (String x (snoc s c)).
    rewrite rstrip_newline_cons, IH. now destruct s.
Qed.

(** The lines of a file without their ["\n"] are the lines
    [splitlines] finds, when ["\n"] is the only boundary. *)
Lemma file_lines_plain (s : string) :
  plain_lines s = true ->
  forall cur, rstrip_newline cur = cur ->
    map rstrip_newline (file_lines_from cur s) = splitlines_from cur s.
Proof.
  induction s as [|c s IH]; intros Hs cur Hcur.
  - simpl. destruct (str_truthy cur); [simpl; now rewrite Hcur | reflexivity].
  - simpl in Hs. apply andb_true_iff in Hs as [Hc Hs].
    cbn [file_lines_from splitlines_from].
    destruct (Ascii.eqb_spec c newline) as [->|Hnl].
    + change (Ascii.eqb newline carriage_return) with false.
      change (is_linebreak newline) with true. cbn [map].
      rewrite rstrip_newline_snoc, Hcur. now rewrite IH.
    + rewrite orb_false_r in Hc. apply negb_true_iff in Hc.
      destruct (Ascii.eqb_spec c carriage_return) as [->|_]; [discriminate|].
      rewrite Hc. apply IH; [exact Hs|].
      apply rstrip_newline_keeps. now apply Ascii.eqb_neq.
Qed.

Lemma collect_numbered (st : bool) (texts : list string) : forall k,
  collect st false (enumerate_from k (map PyStr texts)) = Ok (numbered st k texts).
Proof.
  induction texts as [|t texts IH]; intros k; [reflexivity|].
  cbn [map enumerate_from collect numbered]. rewrite IH.
  now destruct st.
Qed.

(** X26: on a text file whose only line boundary is ["\n"], the
    composer with [ignore_blank_lines] off reads the lines the two line
    nodes read, in the same order and with the same numbers: record
    number [i] has [line_index = i] and holds line [i] of
    [splitlines], stripped when [strip_whitespace] is on. *)
Theorem plain_text_is_numbered_alike (w : World) (path : string) (fd : FileData)
    (st : bool) (self : Assembler) :
  w_files w !! path = Some fd ->
  plain_lines (fd_text fd) = true ->
  _read_text_file w path st false self
  = (log_open path self, Ok (numbered st 1 (splitlines (fd_text fd))))
  /\ AutoPromptLineLoader._read_txt w path = Ok (map PyStr (splitlines (fd_text fd)))
  /\ PromptLineLoader._read_txt w path = Ok (map PyStr (splitlines (fd_text fd))).
Proof.
  intros Hf Hplain. split.
  - unfold _read_text_file, bind. rewrite open_eq, Hf. unfold lift.
    rewrite <- (map_map rstrip_newline PyStr).
    unfold file_lines. rewrite (file_lines_plain _ Hplain EmptyString eq_refl).
    fold (splitlines (fd_text fd)). now rewrite collect_numbered.
  - unfold AutoPromptLineLoader._read_txt, PromptLineLoader._read_txt, open_file.
    now rewrite Hf.
Qed.

Lemma plain_text_is_numbered_alike_witness :
  _read_text_file sample_world colours_path false false __init__
  = (log_open colours_path __init__,
     Ok (numbered false 1 (splitlines (fd_text colours_txt)))).
Proof.
  apply (proj1 (plain_text_is_numbered_alike sample_world colours_path colours_txt
                  false __init__ eq_refl eq_refl)).
Defined.

End PlainTextFacts.
(** * The composer: the prompt and the report *)
Section ComposerPromptFacts.
Import WildcardPromptAssembler Composer ComposerLines.
Context {R : Type} `{PyRandom R}.

(** The parts and the segments the loop of [compose] appends. *)
Lemma compose_loop_parts (w : World) (a : Args) inserts files :
  forall idx (rng : R) parts segs self s1 parts' segs',
    compose_loop w a inserts files idx rng parts segs self = (s1, Ok (parts', segs')) ->
    exists new,
      segs' = (segs ++ new)%list
      /\ parts' = (parts ++ interleave inserts idx (map seg_text new))%list
      /\ length new = length files.
Proof.
  induction files as [|f files IH]; intros idx rng parts segs self s1 parts' segs'.
  - intros [= _ <- <-]. exists []. now rewrite !app_nil_r.
  - cbn [compose_loop].
    destruct (_split_path_and_column f (a_csv_column a)) as [path column].
    unfold bind at 1.
    destruct (_select_line_from_file _ _ _ _ _ _ _ self)
      as [s0 [[[[t i] total] rng']|e]]; [|discriminate].
    intros Hloop. destruct (IH _ _ _ _ _ _ _ _ Hloop) as (new & -> & -> & Hlen).
    exists ({| seg_file := path; seg_column := column; seg_line_index := i;
               seg_total_lines := total; seg_text := t |} :: new).
    rewrite <- !app_assoc. cbn [map interleave seg_text length app].
    rewrite <- ?app_assoc. repeat split; auto.
Qed.

(** X27: the prompt of a successful call is determined by the report and
    the inputs: it is the join, with [" "] when [auto_space] is on and
    with nothing otherwise, of the non-empty parts among the prefix,
    then for each segment in order the insert of its position and its
    text, then the insert after the last segment, then the suffix. *)
Theorem prompt_is_built_from_segments (w : World) (a : Args) (self s1 : Assembler)
    prompt rep n :
  compose w a self = (s1, Ok (prompt, rep, n)) ->
  let inserts := _parse_custom_inserts (a_custom_inserts a) in
  let texts := map seg_text (rep_segments rep) in
  prompt
  = join (if a_auto_space a then " " else "")
      (truthy_parts
         ((if str_truthy (a_prefix_text a) then [PyStr (a_prefix_text a)] else [])
          ++ interleave inserts 0 texts
          ++ insert_at inserts (length texts)
          ++ (if str_truthy (a_suffix_text a) then [PyStr (a_suffix_text a)] else []))).
Proof.
  rewrite compose_eq. cbv zeta.
  destruct (_gather_files _ _ _ _ _ _ _ _) as [s0 [[|f fs]|e]]; try discriminate.
  destruct (compose_loop _ _ _ _ _ _ _ _ _) as [s2 [[parts segments]|e]] eqn:Hloop;
    [|discriminate].
  destruct (compose_loop_parts _ _ _ _ _ _ _ _ _ _ _ _ Hloop) as (new & -> & -> & Hlen).
  intros [= <- <- <- <-]. cbn [rep_segments app].
  rewrite length_map, Hlen.
  destruct (a_auto_space a), (str_truthy (a_suffix_text a));
    rewrite <- ?app_assoc, ?app_nil_r; reflexivity.
Qed.

End ComposerPromptFacts.

Section ComposerPromptExamples.
Import WildcardPromptAssembler Composer ComposerLines.

Lemma prompt_is_built_from_segments_witness :
  "a red alice"
  = join " "
      (truthy_parts
         ([PyStr "a"]
          ++ interleave (_parse_custom_inserts "") 0
               (map seg_text (rep_segments sample_report))
          ++ insert_at (_parse_custom_inserts "")
               (length (map seg_text (rep_segments sample_report)))
          ++ [])).
Proof.
  exact (prompt_is_built_from_segments (H := lcg) sample_world
           (sample_compose "SEQUENTIAL" 7 false) __init__ _ "a red alice"
           sample_report 2 ltac:(vm_compute; reflexivity)).
Defined.

End ComposerPromptExamples.
(** * The wrap-around index in both line nodes *)
Section WrapFacts.
Import AutoPromptLineLoader Sequencer.

(** [load_line] over the lines its reader returns. *)
Lemma load_line_eq (w : World) file_path (i : Z) col sw :
  PromptLineLoader.load_line w file_path i col sw
  = if negb (str_truthy file_path) then Err (ValueError "file_path is empty.")
    else if negb (isfile w (w_expanduser w file_path)) then
      Err (FileNotFoundError "File not found")
    else
      rbind (loader_lines w (w_expanduser w file_path) col) (fun lines =>
        let total_lines := Z.of_nat (length lines) in
        if total_lines =? 0 then
          Err (ValueError "The selected file contained zero lines.")
        else
          let index := ((i - 1) mod total_lines) + 1 in
          rbind (getitem lines (index - 1)) (fun text =>
          rbind (if sw then pyval_strip text else Ok text)
            (fun text => Ok (text, index, total_lines)))).
Proof. reflexivity. Qed.

(** The line at a wrapped index is there. *)
Lemma wrapped_lookup {A} (l : list A) (i : Z) :
  0 < Z.of_nat (length l) ->
  exists x, l !! Z.to_nat ((i - 1) mod Z.of_nat (length l) + 1 - 1) = Some x
            /\ getitem l ((i - 1) mod Z.of_nat (length l) + 1 - 1) = Ok x.
Proof.
  intros Hlen. pose proof (wrap_range i _ Hlen) as Hrange.
  destruct (lookup_lt_is_Some_2 l
              (Z.to_nat ((i - 1) mod Z.of_nat (length l) + 1 - 1)) ltac:(lia))
    as [x Hx].
  exists x. split; [exact Hx|]. apply getitem_in_range; [lia | exact Hx].
Qed.

(** The emission from a state whose lines are counted right. *)
Lemma emit_eq (a : Args) (s : State) :
  0 < total_lines s -> total_lines s = Z.of_nat (length (lines s)) ->
  exists raw,
    lines s !! Z.to_nat ((next_index s - 1) mod total_lines s + 1 - 1) = Some raw
    /\ emit a s
       = match (if a_strip_whitespace a then pyval_strip raw else Ok raw) with
         | Ok p =>
             (emitted_state s p ((next_index s - 1) mod total_lines s + 1),
              Ok (p, (next_index s - 1) mod total_lines s + 1,
                  emitted_steps s + 1, total_lines s,
                  (0 <=? a_max_steps a) && (a_max_steps a <=? emitted_steps s + 1)))
         | Err e => (s, Err e)
         end.
Proof.
  intros Hpos Htot.
  unfold emit, bind, get, lift, put, ret.
  rewrite normalize_index_ok by lia. rewrite Htot in Hpos |- *.
  destruct (wrapped_lookup (lines s) (next_index s) Hpos) as (raw & Hraw & Hget).
  exists raw. split; [exact Hraw|]. rewrite Hget.
  destruct (if a_strip_whitespace a then pyval_strip raw else Ok raw); reflexivity.
Qed.

(** A successful call holds the last output or emits, in the state it
    found or in the state a reload installed. *)
Lemma next_prompt_holds_or_emits (w : World) (a : Args) (s s1 : State) out :
  next_prompt w a s = (s1, Ok out) ->
  exists s0,
    (s0 = s
     \/ exists fd loaded,
          w_files w !! call_path w a = Some fd
          /\ _load_lines w (call_path w a) (a_csv_column a) = Ok loaded
          /\ s0 = fresh_state (call_path w a) (fd_mtime fd) a loaded)
    /\ ((s1 = s0 /\ out = held_output s0 /\ capped a s0 = true)
        \/ emit a s0 = (s1, Ok out)).
Proof.
  intros Hcall.
  destruct (next_prompt_ok_file _ _ _ _ _ Hcall) as [Hp [fd Hf]].
  rewrite (next_prompt_eq _ _ _ _ Hp Hf) in Hcall.
  set (path := call_path w a) in *. set (m := fd_mtime fd) in *.
  set (Found := fun s0 : State =>
         s0 = s
         \/ exists fd0 loaded,
              w_files w !! path = Some fd0
              /\ _load_lines w path (a_csv_column a) = Ok loaded
              /\ s0 = fresh_state path (fd_mtime fd0) a loaded).
  assert (Hfresh : forall l ls, _load_lines w path (a_csv_column a) = Ok (l :: ls) ->
                                Found (fresh_state path m a (l :: ls))).
  { intros l ls Hl. right. exists fd, (l :: ls). now repeat split. }
  assert (Hbody : forall s0,
    Found s0 ->
    (if capped a s0 then
       if auto_reset s0 then
         match _reset_state w path m a s0 with
         | (s2, Ok _) => emit a s2
         | (s2, Err e) => (s2, Err e)
         end
       else (s0, Ok (held_output s0))
     else emit a s0) = (s1, Ok out) ->
    exists s2, Found s2
               /\ ((s1 = s2 /\ out = held_output s2 /\ capped a s2 = true)
                   \/ emit a s2 = (s1, Ok out))).
  { intros s0 H0. destruct (capped a s0) eqn:Hcap.
    - destruct (auto_reset s0).
      + rewrite reset_state_eq.
        destruct (_load_lines w path (a_csv_column a)) as [[|l ls]|e] eqn:Hload;
          try discriminate.
        intros He. exists (fresh_state path m a (l :: ls)).
        split; [now apply Hfresh | now right].
      + intros [= <- <-]. exists s0. split; [exact H0|]. left. now repeat split.
    - intros He. exists s0. split; [exact H0 | now right]. }
  destruct (_should_reset s path m a).
  - rewrite reset_state_eq in Hcall.
    destruct (_load_lines w path (a_csv_column a)) as [[|l ls]|e] eqn:Hload;
      try discriminate.
    exact (Hbody _ (Hfresh l ls eq_refl) Hcall).
  - exact (Hbody s (or_introl eq_refl) Hcall).
Qed.

(** C1: for [total > 0] the wrap-around mapping [((i-1) mod total)+1] lies
    in [1, total] and is periodic in [i] with period [total], and it is
    what [_normalize_index] returns.  The sequencer emits by it: an
    emission from [next_index = i] over [total] lines returns the line
    at that index and reports it, a call that finds the instance ready
    is that emission, and every successful call is either the held
    output or such an emission, from the state found or from
    the freshly loaded one, whose [next_index] is [start_value] and whose
    total is the number of lines loaded.  The single-shot loader reports
    by it: on a file of [total] lines it returns the line at that index,
    the index and [total], and whenever it returns, the total is the
    number of lines read and the index is the mapping on it. *)
Theorem wrap_around_index (total i : Z) :
  0 < total ->
  let n := (i - 1) mod total + 1 in
  1 <= n <= total
  /\ (forall k, (i + k * total - 1) mod total + 1 = n)
  /\ _normalize_index i total = Ok n
  /\ (forall a s,
        total_lines s = total -> next_index s = i ->
        Z.of_nat (length (lines s)) = total ->
        exists raw,
          lines s !! Z.to_nat (n - 1) = Some raw
          /\ emit a s
             = match (if a_strip_whitespace a then pyval_strip raw else Ok raw) with
               | Ok p =>
                   (emitted_state s p n,
                    Ok (p, n, emitted_steps s + 1, total,
                        (0 <=? a_max_steps a)
                        && (a_max_steps a <=? emitted_steps s + 1)))
               | Err e => (s, Err e)
               end)
  /\ (forall w a s, ready w a s = true -> next_prompt w a s = emit a s)
  /\ (forall w a s s1 p idx k t d,
        next_prompt w a s = (s1, Ok (p, idx, k, t, d)) ->
        exists s0,
          (s0 = s
           \/ exists fd loaded,
                w_files w !! call_path w a = Some fd
                /\ _load_lines w (call_path w a) (a_csv_column a) = Ok loaded
                /\ s0 = fresh_state (call_path w a) (fd_mtime fd) a loaded
                /\ lines s0 = loaded
                /\ total_lines s0 = Z.of_nat (length loaded)
                /\ next_index s0 = a_start_value a)
          /\ ((s1 = s0 /\ (p, idx, k, t, d) = held_output s0 /\ capped a s0 = true)
              \/ (emit a s0 = (s1, Ok (p, idx, k, t, d))
                  /\ total_lines s0 <> 0
                  /\ idx = (next_index s0 - 1) mod total_lines s0 + 1
                  /\ t = total_lines s0)))
  /\ (forall w file_path col sw lines,
        str_truthy file_path = true ->
        isfile w (w_expanduser w file_path) = true ->
        loader_lines w (w_expanduser w file_path) col = Ok lines ->
        Z.of_nat (length lines) = total ->
        exists raw,
          lines !! Z.to_nat (n - 1) = Some raw
          /\ PromptLineLoader.load_line w file_path i col sw
             = rbind (if sw then pyval_strip raw else Ok raw)
                 (fun text => Ok (text, n, total)))
  /\ (forall w file_path col sw p idx t,
        PromptLineLoader.load_line w file_path i col sw = Ok (p, idx, t) ->
        0 < t /\ idx = (i - 1) mod t + 1
        /\ exists lines,
             loader_lines w (w_expanduser w file_path) col = Ok lines
             /\ t = Z.of_nat (length lines)).
Proof.
  intros Ht n. subst n. split; [now apply wrap_range|].
  split; [intros k; apply wrap_periodic; lia|].
  split; [apply normalize_index_ok; lia|].
  split; [|split; [exact next_prompt_ready | split; [|split]]].
  - intros a s Htot Hnext Hlen.
    destruct (emit_eq a s ltac:(lia) ltac:(lia)) as (raw & Hraw & Hemit).
    rewrite Htot, Hnext in Hraw, Hemit. now exists raw.
  - intros w a s s1 p idx k t d Hcall.
    destruct (next_prompt_holds_or_emits _ _ _ _ _ Hcall) as (s0 & Hs0 & Hout).
    exists s0. split.
    { destruct Hs0 as [-> | (fd & loaded & Hf & Hl & ->)]; [now left | right].
      exists fd, loaded. now repeat split. }
    destruct Hout as [Hheld | Hemit]; [now left | right].
    split; [exact Hemit|].
    apply emit_inv in Hemit as (Hne & Hidx & _ & Htot & _). auto.
  - intros w file_path col sw lines Hp Hfile Hlines Hlen.
    rewrite load_line_eq, Hp, Hfile, Hlines. cbn [negb rbind]. cbv zeta.
    destruct (Z.eqb_spec (Z.of_nat (length lines)) 0) as [|_]; [lia|].
    destruct (wrapped_lookup lines i ltac:(lia)) as (raw & Hraw & Hget).
    rewrite Hget. rewrite Hlen in Hraw |- *.
    exists raw. split; [exact Hraw | reflexivity].
  - intros w file_path col sw p idx t. rewrite load_line_eq.
    destruct (negb (str_truthy file_path)); [discriminate|].
    destruct (negb (isfile w _)); [discriminate|].
    destruct (loader_lines w _ col) as [lines|]; [|discriminate].
    cbn [rbind]. cbv zeta.
    destruct (Z.eqb_spec (Z.of_nat (length lines)) 0) as [|Hne]; [discriminate|].
    destruct (getitem _ _) as [raw|]; [|discriminate]. cbn [rbind].
    destruct (if sw then _ else _) as [q|]; [|discriminate]. cbn [rbind].
    intros [= <- <- <-]. split; [lia|]. split; [reflexivity|]. now exists lines.
Qed.

Lemma wrap_around_index_witness :
  1 <= (5 - 1) mod 4 + 1 <= 4
  /\ _normalize_index 5 4 = Ok 1
  /\ snd (emit (sample_args (-1) false) walked_four)
     = Ok (PyStr "red", 1, 5, 4, false)
  /\ PromptLineLoader.load_line sample_world "/prompts/colours.txt" 5 "" true
     = Ok (PyStr "red", 1, 4)
  /\ (exists s0,
        emit (sample_args (-1) false) s0
        = (fst (next_prompt sample_world (sample_args (-1) false) __init__),
           Ok (PyStr "red", 1, 1, 4, false))
        /\ 1 = (next_index s0 - 1) mod total_lines s0 + 1
        /\ 4 = total_lines s0).
Proof.
  pose proof (wrap_around_index 4 5 ltac:(lia)) as Hwrap. cbv zeta in Hwrap.
  destruct Hwrap as (Hr & _ & Hn & Hemit & _ & Hnext & Hload & _).
  split; [exact Hr|]. split; [exact Hn|]. split; [|split].
  - destruct (Hemit (sample_args (-1) false) walked_four eq_refl eq_refl eq_refl)
      as (raw & Hraw & Hcall).
    rewrite Hcall. vm_compute in Hraw. injection Hraw as <-. reflexivity.
  - destruct (Hload sample_world "/prompts/colours.txt" "" true
                [PyStr " red "; PyStr "green"; PyStr ""; PyStr "blue"]
                eq_refl eq_refl eq_refl eq_refl) as (raw & Hraw & Hcall).
    rewrite Hcall. vm_compute in Hraw. injection Hraw as <-. reflexivity.
  - destruct (Hnext sample_world (sample_args (-1) false) __init__
                (fst (next_prompt sample_world (sample_args (-1) false) __init__))
                (PyStr "red") 1 1 4 false eq_refl)
      as (s0 & _ & [(_ & Hheld & Hcap) | (Hcall & _ & Hidx & Htot)]).
    + exists s0. exfalso. unfold capped in Hcap. cbn [a_max_steps sample_args] in Hcap.
      discriminate.
    + exists s0. now repeat split.
Defined.

End WrapFacts.
(** * The composer: source indices and the items of the file *)
Section SourceIndexFacts.
Import WildcardPromptAssembler Composer.

(** Every reader is its loop over the items of the file. *)
Lemma read_by_extension_items (w : World) path col st ig (self : Assembler) :
  snd (read_by_extension w path col st ig self)
  = rbind (source_items w path col st)
      (fun items => collect st ig (enumerate_from 1 items)).
Proof.
  unfold read_by_extension, source_items. cbv zeta.
  assert (Htext :
    snd (_read_text_file w path st ig self)
    = rbind (rbind (open_file w path) (fun fd =>
               Ok (map (fun line => PyStr (rstrip_newline line))
                     (file_lines (fd_text fd)))))
        (fun items => collect st ig (enumerate_from 1 items))).
  { unfold _read_text_file, bind, open_file. rewrite open_eq.
    now destruct (w_files w !! path). }
  destruct (String.eqb _ ".txt" || String.eqb _ ".log"); [exact Htext|].
  cbn [orb].
  destruct (String.eqb _ ".md"); [exact Htext|].
  destruct (String.eqb _ ".csv").
  { unfold _read_csv, bind, open_file. rewrite open_eq.
    destruct (w_files w !! path) as [fd|]; [|reflexivity]. cbn [rbind].
    destruct (str_truthy (or_empty col)); [|reflexivity].
    destruct (dict_fieldnames (fd_csv fd)) as [fields|]; [|reflexivity].
    now destruct (negb (str_in (or_empty col) fields)). }
  destruct (String.eqb _ ".docx"); [|reflexivity].
  unfold _read_docx. destruct (negb (w_docx_installed w)); [reflexivity|].
  unfold bind, open_file. rewrite open_eq.
  now destruct (w_files w !! path).
Qed.

(** Each record of a reader's loop carries the number of the item it was
    made from, and the text of that item. *)
Lemma collect_sources st ig items : forall k recs,
  collect st ig (enumerate_from k items) = Ok recs ->
  Forall (fun r =>
            k <= line_index r < k + Z.of_nat (length items)
            /\ exists raw,
                 items !! Z.to_nat (line_index r - k) = Some raw
                 /\ (if st then pyval_strip raw else Ok raw) = Ok (text r)
                 /\ (ig = true -> pyval_truthy (text r) = true)) recs.
Proof.
  induction items as [|raw items IH]; intros k recs Hc.
  - injection Hc as <-. constructor.
  - simpl in Hc.
    destruct (if st then pyval_strip raw else Ok raw) as [t|] eqn:Ht; [|discriminate].
    simpl in Hc.
    assert (Hwide : forall rs,
      Forall (fun r =>
                k + 1 <= line_index r < k + 1 + Z.of_nat (length items)
                /\ exists raw0,
                     items !! Z.to_nat (line_index r - (k + 1)) = Some raw0
                     /\ (if st then pyval_strip raw0 else Ok raw0) = Ok (text r)
                     /\ (ig = true -> pyval_truthy (text r) = true)) rs ->
      Forall (fun r =>
                k <= line_index r < k + Z.of_nat (length (raw :: items))
                /\ exists raw0,
                     (raw :: items) !! Z.to_nat (line_index r - k) = Some raw0
                     /\ (if st then pyval_strip raw0 else Ok raw0) = Ok (text r)
                     /\ (ig = true -> pyval_truthy (text r) = true)) rs).
    { intros rs Hrs. eapply Forall_impl; [exact Hrs|].
      intros r (Hb & raw0 & Hl & Hs & Hn). cbv beta. split; [simpl length; lia|].
      exists raw0. split; [|now split].
      replace (Z.to_nat (line_index r - k))
        with (S (Z.to_nat (line_index r - (k + 1)))) by lia.
      exact Hl. }
    destruct (ig && negb (pyval_truthy t)) eqn:Hskip.
    + apply Hwide. now apply IH.
    + destruct (collect st ig (enumerate_from (k + 1) items)) as [rest|] eqn:Hrest;
        [|discriminate].
      injection Hc as <-. constructor; [|apply Hwide; now apply IH].
      cbn [line_index text]. split; [simpl length; lia|].
      exists raw. replace (k - k) with 0 by lia. split; [reflexivity|].
      split; [exact Ht|]. intros ->. simpl in Hskip.
      now apply negb_false_iff in Hskip.
Qed.

(** Each item that is not dropped is a record, under its number. *)
Lemma collect_complete st ig items : forall k recs,
  collect st ig (enumerate_from k items) = Ok recs ->
  forall (j : nat) raw t,
    items !! j = Some raw ->
    (if st then pyval_strip raw else Ok raw) = Ok t ->
    ig && negb (pyval_truthy t) = false ->
    exists i : nat, recs !! i = Some {| line_index := k + Z.of_nat j; text := t |}.
Proof.
  induction items as [|raw0 items IH]; intros k recs Hc j raw t Hl Ht Hkeep;
    [discriminate|].
  simpl in Hc.
  destruct (if st then pyval_strip raw0 else Ok raw0) as [t0|] eqn:Ht0; [|discriminate].
  simpl in Hc. destruct j as [|j].
  - injection Hl as ->. rewrite Ht in Ht0. injection Ht0 as <-.
    rewrite Hkeep in Hc.
    destruct (collect st ig (enumerate_from (k + 1) items)) as [rest|]; [|discriminate].
    injection Hc as <-. exists 0%nat. replace (k + Z.of_nat 0) with k by lia.
    reflexivity.
  - replace (k + Z.of_nat (S j)) with (k + 1 + Z.of_nat j) by lia.
    destruct (ig && negb (pyval_truthy t0)).
    + exact (IH _ _ Hc j raw t Hl Ht Hkeep).
    + destruct (collect st ig (enumerate_from (k + 1) items)) as [rest|] eqn:Hrest;
        [|discriminate].
      injection Hc as <-.
      destruct (IH _ _ Hrest j raw t Hl Ht Hkeep) as [i Hi].
      now exists (S i).
Qed.

(** With [ignore_blank] off no item is dropped. *)
Lemma collect_keeps_all st items : forall k recs,
  collect st false (enumerate_from k items) = Ok recs ->
  length recs = length items.
Proof.
  induction items as [|raw items IH]; intros k recs Hc.
  - now injection Hc as <-.
  - simpl in Hc.
    destruct (if st then pyval_strip raw else Ok raw) as [t|]; [|discriminate].
    simpl in Hc.
    destruct (collect st false (enumerate_from (k + 1) items)) as [rest|] eqn:Hrest;
      [|discriminate].
    injection Hc as <-. simpl. f_equal. exact (IH _ _ Hrest).
Qed.

(** C6, as the code has it: a record's source index is the 1-based
    position, among the items of the file, of the item it was made from,
    counted before blank items are dropped.  For every load (from an
    instance whose cache was filled by loads): the index of the record at
    position [i] (0-based) is at least [i + 1 >= 1], indices grow
    strictly along the list, and with [ignore_blank] off the index is
    exactly [i + 1], hence within [1..len(records)].  What a reader
    returns is its loop over the items of the file ([source_items]: its
    lines, its rows or its paragraphs): every record's index lies within
    [1..len(items)], the item at that position is the one whose text
    the record holds, every item that is not dropped is a record under
    its position, no more records come back than items, and as many when
    [ignore_blank] is off.  A load that finds no valid cache entry
    returns what the reader returns. *)
Theorem source_index_is_read_position (w : World) path col st ig
    (self self' : Assembler) recs :
  cache_indexed self ->
  _load_file_lines w path col st ig self = (self', Ok recs) ->
  cache_indexed self'
  /\ (forall (i : nat) r, recs !! i = Some r ->
        1 <= Z.of_nat i + 1 <= line_index r
        /\ (ig = false ->
            line_index r = Z.of_nat i + 1
            /\ 1 <= line_index r <= Z.of_nat (length recs)))
  /\ (forall (i j : nat) ri rj, (i < j)%nat ->
        recs !! i = Some ri -> recs !! j = Some rj -> line_index ri < line_index rj)
  /\ (forall s0 s0' recs0,
        read_by_extension w path col st ig s0 = (s0', Ok recs0) ->
        exists items,
          source_items w path col st = Ok items
          /\ collect st ig (enumerate_from 1 items) = Ok recs0
          /\ (length recs0 <= length items)%nat
          /\ (ig = false -> length recs0 = length items)
          /\ (forall (i : nat) r, recs0 !! i = Some r ->
                1 <= line_index r <= Z.of_nat (length items)
                /\ exists raw,
                     items !! Z.to_nat (line_index r - 1) = Some raw
                     /\ (if st then pyval_strip raw else Ok raw) = Ok (text r)
                     /\ (ig = true -> pyval_truthy (text r) = true))
          /\ (forall (j : nat) raw t,
                items !! j = Some raw ->
                (if st then pyval_strip raw else Ok raw) = Ok t ->
                ig && negb (pyval_truthy t) = false ->
                exists i : nat,
                  recs0 !! i = Some {| line_index := Z.of_nat j + 1; text := t |}))
  /\ (forall fd,
        w_files w !! path = Some fd ->
        cache_hit self (cache_key path col) (fd_mtime fd) st ig = None ->
        exists s1, read_by_extension w path col st ig self = (s1, Ok recs)).
Proof.
  intros Hwf Hload.
  destruct (load_file_lines_indexed _ _ _ _ _ _ _ _ Hwf Hload) as [Hwf' Hi].
  split; [exact Hwf'|]. split; [|split; [|split]].
  - intros i r Hl. destruct (indexed_from_lookup _ _ _ _ _ Hi Hl) as [Hlow Heq].
    split; [lia|]. intros Hig. split; [rewrite (Heq Hig); lia|].
    apply lookup_lt_Some in Hl. rewrite (Heq Hig). lia.
  - intros i j ri rj. apply (indexed_from_increasing _ _ _ _ _ _ _ Hi).
  - intros s0 s0' recs0 Hread.
    pose proof (read_by_extension_items w path col st ig s0) as Hitems.
    rewrite Hread in Hitems. cbn [snd] in Hitems.
    destruct (source_items w path col st) as [items|]; [|discriminate].
    cbn [rbind] in Hitems. symmetry in Hitems.
    exists items. split; [reflexivity|]. split; [exact Hitems|].
    split; [exact (collect_length _ _ _ _ _ Hitems)|].
    split; [intros ->; exact (collect_keeps_all _ _ _ _ Hitems)|].
    split.
    + intros i r Hl.
      pose proof (proj1 (Forall_lookup _ _) (collect_sources _ _ _ _ _ Hitems) i r Hl)
        as (Hb & raw & Hraw & Hs & Hn).
      split; [lia|]. now exists raw.
    + intros j raw t Hl Ht Hkeep.
      destruct (collect_complete _ _ _ _ _ Hitems j raw t Hl Ht Hkeep) as [i Hrec].
      exists i. now replace (Z.of_nat j + 1) with (1 + Z.of_nat j) by lia.
  - intros fd Hf Hmiss.
    rewrite (load_file_lines_eq _ _ _ _ _ _ _ Hf), Hmiss in Hload.
    destruct (read_by_extension w path col st ig self) as [s1 [r|e]];
      [|discriminate].
    injection Hload as _ ->. now exists s1.
Qed.

Lemma source_index_is_read_position_witness :
  colours_stripped !! 2%nat = Some {| line_index := 4; text := PyStr "blue" |}
  /\ 1 <= Z.of_nat 2 + 1 <= 4
  /\ exists items,
       source_items sample_world colours_path None true = Ok items
       /\ (length colours_stripped <= length items)%nat
       /\ 1 <= 4 <= Z.of_nat (length items)
       /\ items !! Z.to_nat (4 - 1) = Some (PyStr "blue").
Proof.
  destruct (source_index_is_read_position sample_world colours_path None true true
              __init__ _ colours_stripped cache_indexed_init eq_refl)
    as (_ & Hpos & _ & Hitems_of & Hmiss).
  split; [reflexivity|].
  split; [exact (proj1 (Hpos 2%nat _ eq_refl))|].
  destruct (Hmiss colours_txt eq_refl eq_refl) as (s1 & Hread).
  destruct (Hitems_of __init__ s1 colours_stripped Hread)
    as (items & Hitems & _ & Hlen & _ & Hrec & _).
  exists items. split; [exact Hitems|]. split; [exact Hlen|].
  destruct (Hrec 2%nat _ eq_refl) as (Hb & raw & Hraw & Hs & _).
  split; [exact Hb|].
  vm_compute in Hitems. injection Hitems as <-. exact eq_refl.
Defined.

End SourceIndexFacts.
(** * The composer: the generator of a call *)
Section SeedFacts.
Import WildcardPromptAssembler Composer.
Context {R : Type} `{PyRandom R}.

(** A call that returns has counted itself, from 0 after a reset. *)
Lemma compose_counts (w : World) (a : Args) (s s1 : Assembler) out :
  compose w a s = (s1, Ok out) ->
  _global_step s1 = (if a_reset a then 0 else _global_step s) + 1.
Proof.
  rewrite compose_eq. cbv zeta.
  set (base := if a_reset a then fst (_reset_state s) else s).
  assert (Hbase : _global_step base = if a_reset a then 0 else _global_step s)
    by (subst base; now destruct (a_reset a)).
  destruct (_gather_files _ _ _ _ _ _ _ base) as [s0 [[|f fs]|e]] eqn:Hg;
    try discriminate.
  apply gather_files_frame in Hg as [_ Hstep].
  destruct (compose_loop _ _ _ _ _ _ _ _ _) as [s2 [[parts segments]|e]] eqn:Hloop;
    [|discriminate].
  intros [= <- _]. apply compose_loop_frame in Hloop as (Hs2 & _).
  rewrite Hs2. cbn [_global_step set_global_step]. lia.
Qed.

Lemma compose_all_counts (cs : list (World * Args)) : forall s : Assembler,
  Forall (fun c => a_reset (snd c) = false) cs ->
  Forall (fun r => exists out, r = Ok out) (snd (compose_all cs s)) ->
  _global_step (fst (compose_all cs s)) = _global_step s + Z.of_nat (length cs).
Proof.
  induction cs as [|[w a] cs IH]; intros s Hr Hok; [simpl; lia|].
  apply Forall_cons in Hr as [Ha Hr]. simpl in Ha.
  cbn [compose_all] in *. destruct (compose w a s) as [s1 r] eqn:Hc.
  specialize (IH s1 Hr). destruct (compose_all cs s1) as [s2 rs].
  cbn [fst snd] in *. apply Forall_cons in Hok as [[out ->] Hok].
  rewrite (IH Hok), (compose_counts _ _ _ _ _ Hc), Ha. simpl length. lia.
Qed.

(** C7: with [random_seed >= 0] in every call, two runs of the same calls
    from the same instance give the same outcomes and leave the same
    instance, whatever seeds the operating system offers in either run.
    The generator of such a call is [Random(random_seed + n - 1)], [n]
    the call's number: [_make_rng] counts the call and returns that
    generator, and [compose] is its loop over the sources run with it,
    [n] one more than the count the call finds (0 after a reset); a
    call that returns leaves the count at [n], so in a run of returning
    calls without reset the count grows by one per call.
    Outside SEQUENTIAL mode a selection is the record at the index the
    generator draws below the number of records, and it hands the
    generator on as the draw leaves it. *)
Theorem seeded_runs_agree (calls : list (World * Args)) (es1 es2 : list Z)
    (self : Assembler) :
  Forall (fun c => 0 <= a_random_seed (snd c)) calls ->
  compose_all (reseed es1 calls) self = compose_all (reseed es2 calls) self
  /\ (forall w random_seed s,
        0 <= random_seed ->
        _make_rng w random_seed s
        = (set_global_step (_global_step s + 1) s,
           Ok (Random (random_seed + (_global_step s + 1) - 1))))
  /\ (forall w a s,
        0 <= a_random_seed a ->
        let base := if a_reset a then fst (_reset_state s) else s in
        let n := _global_step base + 1 in
        let inserts := _parse_custom_inserts (a_custom_inserts a) in
        compose w a s
        = match _gather_files w (a_mode a) (a_manual_paths a) (a_manifest_path a)
                  (a_directory_path a) (a_directory_glob a) (a_max_files a) base with
          | (s0, Err e) => (s0, Err e)
          | (s0, Ok []) =>
              (s0, Err (ValueError
                          "Wildcard Prompt Assembler: No files found for the selected mode."))
          | (s0, Ok (f :: fs)) =>
              match compose_loop w a inserts (f :: fs) 0
                      (Random (a_random_seed a + n - 1))
                      (if str_truthy (a_prefix_text a)
                       then [PyStr (a_prefix_text a)] else [])
                      [] (set_global_step n s0) with
              | (s2, Err e) => (s2, Err e)
              | (s2, Ok (parts, segments)) =>
                  let parts := (parts ++ insert_at inserts (length (f :: fs)))%list in
                  let parts := if str_truthy (a_suffix_text a)
                               then (parts ++ [PyStr (a_suffix_text a)])%list
                               else parts in
                  let prompt := if a_auto_space a then join " " (truthy_parts parts)
                                else join "" (truthy_parts parts) in
                  (s2, Ok (prompt,
                           {| rep_mode := a_mode a;
                              rep_selection_mode := a_selection_mode a;
                              rep_prompt := prompt; rep_segments := segments |},
                           Z.of_nat (length (f :: fs))))
              end
          end)
  /\ (forall w a s s1 out,
        compose w a s = (s1, Ok out) ->
        _global_step s1 = (if a_reset a then 0 else _global_step s) + 1)
  /\ (forall cs s,
        Forall (fun c => a_reset (snd c) = false) cs ->
        Forall (fun r => exists out, r = Ok out) (snd (compose_all cs s)) ->
        _global_step (fst (compose_all cs s)) = _global_step s + Z.of_nat (length cs))
  /\ (forall w path col mode st ig (rng : R) s s1 r rs,
        mode <> "SEQUENTIAL" ->
        isfile w (w_expanduser w path) = true ->
        _load_file_lines w (w_expanduser w path) col st ig s = (s1, Ok (r :: rs)) ->
        let total := Z.of_nat (length (r :: rs)) in
        _select_line_from_file w path col mode st ig rng s
        = (s1, rbind (getitem (r :: rs) (fst (randrange rng total)))
                 (fun record => Ok (text record, line_index record, total,
                                    snd (randrange rng total))))).
Proof.
  intros Hseeds.
  split; [|split; [intros w seed s; apply make_rng_seeded | split; [|split; [|split]]]].
  - assert (Hplain : forall es cs s,
              Forall (fun c => 0 <= a_random_seed (snd c)) cs ->
              compose_all (reseed es cs) s = compose_all cs s).
    { intros es cs. revert es.
      induction cs as [|[w a] cs IH]; intros es s Hcs; [now destruct es|].
      destruct es as [|e es]; [reflexivity|].
      apply Forall_cons in Hcs as [Ha Hcs]. simpl in Ha |- *.
      rewrite (compose_entropy e w a s Ha).
      destruct (compose w a s) as [s1 r]. now rewrite IH. }
    now rewrite !Hplain.
  - intros w a s Hseed base n inserts. subst n inserts.
    rewrite compose_eq. cbv zeta. fold base.
    destruct (_gather_files _ _ _ _ _ _ _ base) as [s0 [[|f fs]|e]] eqn:Hg;
      try reflexivity.
    apply gather_files_frame in Hg as [_ Hstep]. rewrite Hstep.
    destruct (Z.leb_spec 0 (a_random_seed a)); [reflexivity | lia].
  - intros w a s s1 out. apply compose_counts.
  - intros cs s. apply compose_all_counts.
  - intros w path col mode st ig rng s s1 r rs Hmode Hfile Hload total.
    rewrite select_eq, Hfile, Hload. cbn [negb]. cbv zeta. fold total.
    destruct (String.eqb_spec mode "SEQUENTIAL") as [|_]; [contradiction|].
    now destruct (getitem _ _).
Qed.

End SeedFacts.

Section SeedExamples.
Import WildcardPromptAssembler Composer.

Lemma seeded_runs_agree_witness :
  compose_all (H := lcg) (reseed [1; 2] (two_calls "RANDOM" 7)) __init__
  = compose_all (H := lcg) (reseed [2; 1] (two_calls "RANDOM" 7)) __init__
  /\ _global_step composed_once_randomly = 1
  /\ _global_step
       (fst (compose_all (H := lcg) (two_calls "RANDOM" 7) __init__)) = 2
  /\ prompt_of
       (snd (compose (H := lcg) sample_world (sample_compose "RANDOM" 7 false)
               __init__))
     = "a green bob"
  /\ prompt_of
       (snd (compose (H := lcg) sample_world (sample_compose "RANDOM" 7 false)
               composed_once_randomly))
     = "a blue alice".
Proof.
  destruct (seeded_runs_agree (H := lcg) (two_calls "RANDOM" 7) [1; 2] [2; 1] __init__
              ltac:(repeat constructor; simpl; lia))
    as (Hruns & _ & Hcompose & Hcount & Hrun & _).
  split; [exact Hruns|]. split; [|split; [|split]].
  - exact (Hcount sample_world (sample_compose "RANDOM" 7 false) __init__
             composed_once_randomly _ eq_refl).
  - exact (Hrun (two_calls "RANDOM" 7) __init__
             ltac:(repeat constructor)
             ltac:(repeat constructor; eexists; reflexivity)).
  - rewrite (Hcompose sample_world (sample_compose "RANDOM" 7 false) __init__
               ltac:(simpl; lia)).
    vm_compute. reflexivity.
  - rewrite (Hcompose sample_world (sample_compose "RANDOM" 7 false)
               composed_once_randomly ltac:(simpl; lia)).
    vm_compute. reflexivity.
Defined.

End SeedExamples.
